(** * Async IP Connections

    A shallow embedding of the synchronous IP layer (ip_network.c) and of the
    asynchronous facade built on it (async_ip_network.c).

    Conventions of the embedding.
    - C integers are [Z]; unsigned wrap-around is written out where the code
      can reach it.
    - A pointer to a connection structure is an address ([Z]) into a heap of
      structures; a NULL pointer is [None].
    - Every function that touches the sockets, the heap or the globals is a
      state transformer returning a [Res]: [Done] with a value and the new
      state, [Crash] when the C code would dereference an invalid pointer or
      index outside an array, [Hang] when the call does not return (a loop
      that runs out of fuel, a blocking queue operation that cannot proceed).
    - Operating system calls are read off an explicit [OS] component: its
      oracles give the outcome of name resolution and socket configuration,
      its queues hold what the descriptors can receive, and its wire log
      records what was transmitted.
    - Threads are interleaved at the granularity of one facade call or one
      per-connection worker step. *)

From stdpp Require Import gmap strings list fin_maps pretty sorting.
From Stdlib Require Import ZArith Lia.
Local Open Scope Z_scope.

(** ** Outcomes and the state monad *)

Inductive Res (S A : Type) : Type :=
| Done (a : A) (s : S)
| Crash
| Hang.
Arguments Done {S A} a s.
Arguments Crash {S A}.
Arguments Hang {S A}.

Definition M (S A : Type) : Type := S -> Res S A.

Definition ret {S A} (a : A) : M S A := fun s => Done a s.

Definition bind {S A B} (c : M S A) (k : A -> M S B) : M S B :=
  fun s => match c s with
           | Done a s' => k a s'
           | Crash => Crash
           | Hang => Hang
           end.

Notation "'do' x <- c ; k" := (bind c (fun x => k))
  (at level 10, x name, c at level 100, k at level 200).
Notation "'do' ' p <- c ; k" := (bind c (fun x => match x with p => k end))
  (at level 10, p pattern, c at level 100, k at level 200).
Notation "'exec' c ; k" := (bind c (fun _ => k))
  (at level 10, c at level 100, k at level 200).

Definition get {S} : M S S := fun s => Done s s.
Definition gets {S A} (f : S -> A) : M S A := fun s => Done (f s) s.
Definition modify {S} (f : S -> S) : M S unit := fun s => Done tt (f s).
Definition crash {S A} : M S A := fun _ => Crash.
Definition hang {S A} : M S A := fun _ => Hang.

(** A value that must be present: its absence is an invalid access. *)
Definition must {S A} (o : option A) : M S A :=
  match o with Some a => ret a | None => crash end.

(** ** Constants of ip_network.h and of the platform headers *)

Definition IP_MAX_MESSAGE_LENGTH : Z := 512.
Definition IP_SERVER : Z := 0x01.
Definition IP_CLIENT : Z := 0x02.
Definition IP_TCP : Z := 0x10.
Definition IP_UDP : Z := 0x20.

Definition SOCKET_ERROR : Z := -1.
Definition INVALID_SOCKET : Z := -1.
Definition AF_UNSPEC : Z := 0.
Definition AF_INET : Z := 2.
Definition AF_INET6 : Z := 10.
Definition AI_PASSIVE : Z := 1.
Definition INADDR_ANY : Z := 0.
Definition INADDR_BROADCAST : Z := 0xFFFFFFFF.
Definition INADDR_NONE : Z := 0xFFFFFFFF.
Definition POLLRDNORM : Z := 0x040.
Definition POLLRDBAND : Z := 0x080.
Definition SOCK_STREAM : Z := 1.
Definition SOCK_DGRAM : Z := 2.
Definition IPPROTO_TCP : Z := 6.
Definition IPPROTO_UDP : Z := 17.
Definition POLL_LIST_SIZE : nat := 1024.

(** Arithmetic of [size_t] and [unsigned long] (64 bits). *)
Definition SIZE_MODULUS : Z := 2 ^ 64.
Definition size_wrap (n : Z) : Z := n mod SIZE_MODULUS.

(** ** Addresses *)

(** The fields the code reads from a [sockaddr_in] / [sockaddr_in6]:
    [sin_addr] is the IPv4 address as [ntohl] returns it, [sin6_addr] the
    sixteen bytes of an IPv6 address. *)
Record IPAddressData : Type := {
  sa_family : Z;
  sin_port : Z;
  sin_addr : Z;
  sin6_addr : list Z
}.

Global Instance IPAddressData_eq_dec : EqDecision IPAddressData.
Proof. solve_decision. Defined.

Definition memcmp16 (a b : list Z) : bool := bool_decide (take 16 a = take 16 b).

Section Macros.
Variable IP_NETWORK_LEGACY : bool.

Definition IS_IPV6_MULTICAST_ADDRESS (address : IPAddressData) : bool :=
  if IP_NETWORK_LEGACY then false
  else bool_decide (default 0 (sin6_addr address !! 0%nat) = 0xFF).

Definition ARE_EQUAL_IPV6_ADDRESSES (address_1 address_2 : IPAddressData) : bool :=
  if IP_NETWORK_LEGACY then false
  else (sa_family address_1 =? AF_INET6)
       && (sin_port address_1 =? sin_port address_2)
       && memcmp16 (sin6_addr address_1) (sin6_addr address_2).

Definition IS_IPV4_MULTICAST_ADDRESS (address : IPAddressData) : bool :=
  Z.land (sin_addr address) 0xF0000000 =? 0xE0000000.

Definition ARE_EQUAL_IPV4_ADDRESSES (address_1 address_2 : IPAddressData) : bool :=
  (sa_family address_1 =? AF_INET)
  && (sin_port address_1 =? sin_port address_2).

Definition IS_IP_MULTICAST_ADDRESS (address : IPAddressData) : bool :=
  IS_IPV4_MULTICAST_ADDRESS address || IS_IPV6_MULTICAST_ADDRESS address.

Definition ARE_EQUAL_IP_ADDRESSES (address_1 address_2 : IPAddressData) : bool :=
  ARE_EQUAL_IPV4_ADDRESSES address_1 address_2
  || ARE_EQUAL_IPV6_ADDRESSES address_1 address_2.
End Macros.

(** ** The operating system *)

(** What a descriptor can receive: a datagram with its source address, or a
    chunk of a TCP stream (an empty chunk stands for the peer's orderly
    shutdown, on which [recv] returns 0). *)
Record Packet : Type := {
  pkt_source : IPAddressData;
  pkt_data : list Z
}.

(** One successful [send] or [sendto]: descriptor, destination ([None] for a
    connected socket), number of bytes put on the wire and the known prefix
    of those bytes. *)
Record WireSend : Type := {
  ws_fd : Z;
  ws_dest : option IPAddressData;
  ws_length : Z;
  ws_bytes : list Z
}.

(** The configuration calls whose failure aborts the opening of a
    connection. *)
Inductive Syscall : Type :=
| SYS_fcntl_O_NONBLOCK
| SYS_setsockopt_SO_REUSEADDR
| SYS_setsockopt_IPV6_V6ONLY
| SYS_bind
| SYS_listen
| SYS_setsockopt_IPV6_MULTICAST_HOPS
| SYS_setsockopt_IPV6_MULTICAST_IF
| SYS_setsockopt_IP_MULTICAST_TTL
| SYS_setsockopt_IP_MULTICAST_IF
| SYS_setsockopt_SO_BROADCAST
| SYS_connect
| SYS_bind_local
| SYS_setsockopt_IPV6_ADD_MEMBERSHIP
| SYS_setsockopt_IP_ADD_MEMBERSHIP.

Record OS : Type := {
  (* getaddrinfo( node, service, hints.ai_flags, hints.ai_family ):
     [None] on error, otherwise the list of results *)
  os_getaddrinfo : option string -> string -> Z -> Z -> option (list IPAddressData);
  (* getnameinfo with NI_NUMERICHOST and with NI_NUMERICSERV *)
  os_getnameinfo_host : IPAddressData -> option string;
  os_getnameinfo_serv : IPAddressData -> option string;
  os_inet_addr : string -> Z;
  os_inet_ntoa : Z -> string;
  (* socket( family, type, protocol ): a descriptor or INVALID_SOCKET *)
  os_socket : Z -> Z -> Z -> Z;
  (* whether a configuration call on a descriptor succeeds *)
  os_call : Syscall -> Z -> bool;
  (* pending input of each descriptor, oldest first *)
  os_inbox : gmap Z (list Packet);
  (* pending connections of each listening descriptor: the descriptor
     accept will return and the peer address *)
  os_backlog : gmap Z (list (Z * IPAddressData));
  (* whether send / sendto on a descriptor succeeds *)
  os_send_ok : Z -> bool;
  (* everything transmitted so far, oldest first *)
  os_wire : list WireSend
}.

Definition set_os_inbox (v : gmap Z (list Packet)) (o : OS) : OS :=
  {| os_getaddrinfo := os_getaddrinfo o; os_getnameinfo_host := os_getnameinfo_host o;
     os_getnameinfo_serv := os_getnameinfo_serv o; os_inet_addr := os_inet_addr o;
     os_inet_ntoa := os_inet_ntoa o; os_socket := os_socket o; os_call := os_call o;
     os_inbox := v; os_backlog := os_backlog o; os_send_ok := os_send_ok o;
     os_wire := os_wire o |}.

Definition set_os_backlog (v : gmap Z (list (Z * IPAddressData))) (o : OS) : OS :=
  {| os_getaddrinfo := os_getaddrinfo o; os_getnameinfo_host := os_getnameinfo_host o;
     os_getnameinfo_serv := os_getnameinfo_serv o; os_inet_addr := os_inet_addr o;
     os_inet_ntoa := os_inet_ntoa o; os_socket := os_socket o; os_call := os_call o;
     os_inbox := os_inbox o; os_backlog := v; os_send_ok := os_send_ok o;
     os_wire := os_wire o |}.

Definition set_os_wire (v : list WireSend) (o : OS) : OS :=
  {| os_getaddrinfo := os_getaddrinfo o; os_getnameinfo_host := os_getnameinfo_host o;
     os_getnameinfo_serv := os_getnameinfo_serv o; os_inet_addr := os_inet_addr o;
     os_inet_ntoa := os_inet_ntoa o; os_socket := os_socket o; os_call := os_call o;
     os_inbox := os_inbox o; os_backlog := os_backlog o; os_send_ok := os_send_ok o;
     os_wire := v |}.

(** [close( fd )]: whatever was pending on the descriptor is gone. *)
Definition os_close (fd : Z) (o : OS) : OS :=
  set_os_backlog (delete fd (os_backlog o)) (set_os_inbox (delete fd (os_inbox o)) o).

(** [recvfrom] / [recv] on a datagram socket: the oldest datagram, cut to
    [len] bytes; it stays in the socket under MSG_PEEK and is removed
    otherwise.  With nothing pending the non-blocking call fails. *)
Definition os_recv_dgram (fd len : Z) (peek : bool) (o : OS)
  : option (list Z * IPAddressData) * OS :=
  match os_inbox o !! fd with
  | Some (p :: rest) =>
      (Some (take (Z.to_nat len) (pkt_data p), pkt_source p),
       if peek then o else set_os_inbox (<[fd := rest]> (os_inbox o)) o)
  | _ => (None, o)
  end.

(** [recv] on a stream socket: up to [len] bytes of the oldest chunk, the
    rest of the chunk staying in the stream. *)
Definition os_recv_stream (fd len : Z) (o : OS) : option (list Z) * OS :=
  match os_inbox o !! fd with
  | Some (p :: rest) =>
      let n := Z.to_nat len in
      let data := pkt_data p in
      let left := drop n data in
      (Some (take n data),
       match data, left with
       | [], _ => o
       | _, [] => set_os_inbox (<[fd := rest]> (os_inbox o)) o
       | _, _ => set_os_inbox
                   (<[fd := {| pkt_source := pkt_source p; pkt_data := left |} :: rest]>
                      (os_inbox o)) o
       end)
  | _ => (None, o)
  end.

(** [accept]: the oldest pending connection, or INVALID_SOCKET. *)
Definition os_accept (fd : Z) (o : OS) : option (Z * IPAddressData) * OS :=
  match os_backlog o !! fd with
  | Some (c :: rest) => (Some c, set_os_backlog (<[fd := rest]> (os_backlog o)) o)
  | _ => (None, o)
  end.

(** [send] / [sendto] of [len] bytes starting at [message]. *)
Definition os_send (fd : Z) (dest : option IPAddressData) (message : list Z) (len : Z)
    (o : OS) : bool * OS :=
  if os_send_ok o fd
  then (true, set_os_wire (os_wire o ++ [{| ws_fd := fd; ws_dest := dest; ws_length := len;
                                            ws_bytes := take (Z.to_nat len) message |}]) o)
  else (false, o).

(** What poll / select report as readable. *)
Definition os_readable (o : OS) (fd : Z) : bool :=
  match os_inbox o !! fd, os_backlog o !! fd with
  | Some (_ :: _), _ => true
  | _, Some (_ :: _) => true
  | _, _ => false
  end.

(** ** Connection structures *)

(** The socket a connection refers to: in the poll build a pointer into the
    global array [polledSocketsList] (an index), in the legacy build a
    poller structure of its own. *)
Inductive SocketRef : Type :=
| PollSlot (index : nat)
| OwnPoller (fd : Z).

Record SocketPoller : Type := {
  fd : Z;
  events : Z;
  revents : Z
}.

(** The functions the method pointers of a connection can hold. *)
Inductive ReceiveMethod : Type :=
| fn_ReceiveTCPMessage
| fn_ReceiveUDPMessage
| fn_AcceptTCPClient
| fn_AcceptUDPClient.

Inductive SendMethod : Type :=
| fn_SendTCPMessage
| fn_SendUDPMessage
| fn_SendMessageAll.

Inductive CloseMethod : Type :=
| fn_CloseTCPServer
| fn_CloseUDPServer
| fn_CloseTCPClient
| fn_CloseUDPClient.

Global Instance SendMethod_eq_dec : EqDecision SendMethod.
Proof. solve_decision. Defined.
Global Instance CloseMethod_eq_dec : EqDecision CloseMethod.
Proof. solve_decision. Defined.

(** [struct _IPConnectionData], with the members the functions use.
    [ref_clientsCount] points to a counter allocated with the connection
    and referenced from nowhere else, so the counter is kept in place. *)
Record IPConnectionData : Type := {
  socket : SocketRef;
  ref_ReceiveMessage : ReceiveMethod;
  ref_SendMessage : SendMethod;
  ref_Close : CloseMethod;
  addressData : IPAddressData;
  messageLength : Z;
  buffer : option (list Z);
  clientsList : list (option Z);
  ref_clientsCount : Z;
  server : option Z
}.

Definition set_messageLength (v : Z) (c : IPConnectionData) : IPConnectionData :=
  {| socket := socket c; ref_ReceiveMessage := ref_ReceiveMessage c;
     ref_SendMessage := ref_SendMessage c; ref_Close := ref_Close c;
     addressData := addressData c; messageLength := v; buffer := buffer c;
     clientsList := clientsList c; ref_clientsCount := ref_clientsCount c;
     server := server c |}.

Definition set_buffer (v : option (list Z)) (c : IPConnectionData) : IPConnectionData :=
  {| socket := socket c; ref_ReceiveMessage := ref_ReceiveMessage c;
     ref_SendMessage := ref_SendMessage c; ref_Close := ref_Close c;
     addressData := addressData c; messageLength := messageLength c; buffer := v;
     clientsList := clientsList c; ref_clientsCount := ref_clientsCount c;
     server := server c |}.

Definition set_clientsList (v : list (option Z)) (c : IPConnectionData) : IPConnectionData :=
  {| socket := socket c; ref_ReceiveMessage := ref_ReceiveMessage c;
     ref_SendMessage := ref_SendMessage c; ref_Close := ref_Close c;
     addressData := addressData c; messageLength := messageLength c; buffer := buffer c;
     clientsList := v; ref_clientsCount := ref_clientsCount c;
     server := server c |}.

Definition set_clientsCount (v : Z) (c : IPConnectionData) : IPConnectionData :=
  {| socket := socket c; ref_ReceiveMessage := ref_ReceiveMessage c;
     ref_SendMessage := ref_SendMessage c; ref_Close := ref_Close c;
     addressData := addressData c; messageLength := messageLength c; buffer := buffer c;
     clientsList := clientsList c; ref_clientsCount := v;
     server := server c |}.

Definition set_server (v : option Z) (c : IPConnectionData) : IPConnectionData :=
  {| socket := socket c; ref_ReceiveMessage := ref_ReceiveMessage c;
     ref_SendMessage := ref_SendMessage c; ref_Close := ref_Close c;
     addressData := addressData c; messageLength := messageLength c; buffer := buffer c;
     clientsList := clientsList c; ref_clientsCount := ref_clientsCount c;
     server := v |}.

(** ** The state of the synchronous layer *)

Record World : Type := {
  os : OS;
  heap : gmap Z IPConnectionData;
  next_address : Z;
  (* poll build *)
  polledSocketsList : list SocketPoller;
  (* legacy build *)
  polledSocketsSet : gset Z;
  activeSocketsSet : gset Z;
  polledSocketsNumber : Z
}.

Definition set_os (v : OS) (w : World) : World :=
  {| os := v; heap := heap w; next_address := next_address w;
     polledSocketsList := polledSocketsList w; polledSocketsSet := polledSocketsSet w;
     activeSocketsSet := activeSocketsSet w; polledSocketsNumber := polledSocketsNumber w |}.

Definition set_heap (v : gmap Z IPConnectionData) (w : World) : World :=
  {| os := os w; heap := v; next_address := next_address w;
     polledSocketsList := polledSocketsList w; polledSocketsSet := polledSocketsSet w;
     activeSocketsSet := activeSocketsSet w; polledSocketsNumber := polledSocketsNumber w |}.

Definition set_next_address (v : Z) (w : World) : World :=
  {| os := os w; heap := heap w; next_address := v;
     polledSocketsList := polledSocketsList w; polledSocketsSet := polledSocketsSet w;
     activeSocketsSet := activeSocketsSet w; polledSocketsNumber := polledSocketsNumber w |}.

Definition set_polledSocketsList (v : list SocketPoller) (w : World) : World :=
  {| os := os w; heap := heap w; next_address := next_address w;
     polledSocketsList := v; polledSocketsSet := polledSocketsSet w;
     activeSocketsSet := activeSocketsSet w; polledSocketsNumber := polledSocketsNumber w |}.

Definition set_polledSocketsSet (v : gset Z) (w : World) : World :=
  {| os := os w; heap := heap w; next_address := next_address w;
     polledSocketsList := polledSocketsList w; polledSocketsSet := v;
     activeSocketsSet := activeSocketsSet w; polledSocketsNumber := polledSocketsNumber w |}.

Definition set_activeSocketsSet (v : gset Z) (w : World) : World :=
  {| os := os w; heap := heap w; next_address := next_address w;
     polledSocketsList := polledSocketsList w; polledSocketsSet := polledSocketsSet w;
     activeSocketsSet := v; polledSocketsNumber := polledSocketsNumber w |}.

Definition set_polledSocketsNumber (v : Z) (w : World) : World :=
  {| os := os w; heap := heap w; next_address := next_address w;
     polledSocketsList := polledSocketsList w; polledSocketsSet := polledSocketsSet w;
     activeSocketsSet := activeSocketsSet w; polledSocketsNumber := v |}.

(** The globals before the first call: a zeroed poll array, nothing
    allocated, nothing transmitted. *)
Definition initial_World (o : OS) : World :=
  {| os := set_os_wire [] o; heap := ∅; next_address := 1;
     polledSocketsList := replicate POLL_LIST_SIZE {| fd := 0; events := 0; revents := 0 |};
     polledSocketsSet := ∅; activeSocketsSet := ∅; polledSocketsNumber := 0 |}.

(** Heap accesses. *)
Definition malloc (c : IPConnectionData) : M World Z :=
  do w <- get;
  let p := next_address w in
  exec modify (fun w => set_next_address (p + 1) (set_heap (<[p := c]> (heap w)) w));
  ret p.

Definition deref (p : Z) : M World IPConnectionData :=
  do w <- get; must (heap w !! p).

Definition update (p : Z) (f : IPConnectionData -> IPConnectionData) : M World unit :=
  do c <- deref p;
  modify (fun w => set_heap (<[p := f c]> (heap w)) w).

Definition free (p : Z) : M World unit :=
  exec deref p;
  modify (fun w => set_heap (delete p (heap w)) w).

(** Lifting of the operating system calls. *)
Definition sys {A} (f : OS -> A * OS) : M World A :=
  do w <- get;
  let '(a, o) := f (os w) in
  exec modify (set_os o);
  ret a.

Definition close (fd : Z) : M World unit := modify (fun w => set_os (os_close fd (os w)) w).

Definition call_ok (c : Syscall) (fd : Z) : M World bool :=
  gets (fun w => os_call (os w) c fd).

(** ** ip_network.c *)

(** Library functions the code relies on. *)

Definition int_wrap (n : Z) : Z := (n + 2 ^ 31) mod 2 ^ 32 - 2 ^ 31.

(** [htons] on a little-endian host. *)
Definition htons (n : Z) : Z := (n mod 256) * 256 + (n / 256) mod 256.

(** [strlen] over the bytes readable at a [char*]: the position of the first
    zero byte, the whole extent when none is found within it. *)
Fixpoint strlen (message : list Z) : Z :=
  match message with
  | [] => 0
  | b :: rest => if b =? 0 then 0 else 1 + strlen rest
  end.

(** [strtoul] on a decimal numeral. *)
Definition digit_value (c : Ascii.ascii) : option Z :=
  let n := Z.of_N (Ascii.N_of_ascii c) in
  if (48 <=? n) && (n <=? 57) then Some (n - 48) else None.

Fixpoint strtoul_from (acc : Z) (s : string) : Z :=
  match s with
  | EmptyString => acc
  | String c rest =>
      match digit_value c with
      | Some d => strtoul_from (acc * 10 + d) rest
      | None => acc
      end
  end.

Definition strtoul (s : string) : Z := size_wrap (strtoul_from 0 s).

Definition CompareSockets (ref_socket_1 ref_socket_2 : SocketPoller) : Z :=
  int_wrap (fd ref_socket_1 - fd ref_socket_2).

(** [bsearch] with [CompareSockets] over the first [nmemb] pollers. *)
Fixpoint bsearch_loop (fuel : nat) (key : SocketPoller) (base : list SocketPoller)
    (l u : nat) : option nat :=
  match fuel with
  | O => None
  | S fuel' =>
      if decide (l < u)%nat then
        let idx := ((l + u) / 2)%nat in
        match base !! idx with
        | None => None
        | Some p =>
            let comparison := CompareSockets key p in
            if comparison <? 0 then bsearch_loop fuel' key base l idx
            else if 0 <? comparison then bsearch_loop fuel' key base (S idx) u
            else Some idx
        end
      else None
  end.

Definition bsearch (key : SocketPoller) (base : list SocketPoller) (nmemb : nat) : option nat :=
  bsearch_loop (S nmemb) key base 0%nat nmemb.

(** [qsort] with [CompareSockets] over the first [nmemb] pollers. *)
Fixpoint qsort_insert (p : SocketPoller) (sorted : list SocketPoller) : list SocketPoller :=
  match sorted with
  | [] => [p]
  | q :: rest => if CompareSockets p q <=? 0 then p :: sorted else q :: qsort_insert p rest
  end.

Definition qsort (base : list SocketPoller) (nmemb : nat) : list SocketPoller :=
  foldr qsort_insert [] (take nmemb base) ++ drop nmemb base.

(** [realloc] of a list of client pointers to [n] cells. *)
Definition realloc (l : list (option Z)) (n : nat) : list (option Z) :=
  take n (l ++ replicate (n - length l) None).

Definition FD_SETSIZE : Z := 1024.

Section IPNetwork.
Variable IP_NETWORK_LEGACY : bool.

(** [connection->socket->fd] *)
Definition socket_fd (s : SocketRef) : M World Z :=
  match s with
  | PollSlot i => do w <- get; must (fd <$> polledSocketsList w !! i)
  | OwnPoller f => ret f
  end.

Definition GetAddressString (o : OS) (address : IPAddressData) : option string :=
  if IP_NETWORK_LEGACY then
    Some (os_inet_ntoa o (sin_addr address) +:+ "/" +:+ pretty (sin_port address))
  else
    match os_getnameinfo_serv o address with
    | None => None
    | Some serv => Some (default "" (os_getnameinfo_host o address) +:+ "/" +:+ serv)
    end.

Definition IP_GetAddress (connection : option Z) : M World (option string) :=
  match connection with
  | None => ret None
  | Some p =>
      do c <- deref p;
      do w <- get;
      ret (GetAddressString (os w) (addressData c))
  end.

Definition IP_IsServer (connection : option Z) : M World bool :=
  match connection with
  | None => ret false
  | Some p =>
      do c <- deref p;
      ret (bool_decide (ref_Close c = fn_CloseTCPServer)
           || bool_decide (ref_Close c = fn_CloseUDPServer))
  end.

Definition IP_GetClientsNumber (connection : option Z) : M World Z :=
  match connection with
  | None => ret 0
  | Some p =>
      do isServer <- IP_IsServer connection;
      if isServer then do c <- deref p; ret (ref_clientsCount c) else ret 1
  end.

(** *** Initialization *)

Definition AddConnection (socketFD : Z) (address : IPAddressData)
    (transportProtocol networkRole : Z) : M World Z :=
  do w <- get;
  do socket <-
    (if IP_NETWORK_LEGACY then
       if (0 <=? socketFD) && (socketFD <? FD_SETSIZE) then
         exec modify (fun w => set_polledSocketsSet ({[ socketFD ]} ∪ polledSocketsSet w) w);
         exec modify (fun w =>
                if size_wrap socketFD >=? polledSocketsNumber w
                then set_polledSocketsNumber (socketFD + 1) w else w);
         ret (OwnPoller socketFD)
       else crash
     else
       let cmpPoller := {| fd := socketFD; events := 0; revents := 0 |} in
       let nmemb := Z.to_nat (polledSocketsNumber w) in
       match bsearch cmpPoller (polledSocketsList w) nmemb with
       | Some i => ret (PollSlot i)
       | None =>
           do slot <- must (polledSocketsList w !! nmemb);
           let poller := {| fd := socketFD; events := Z.lor POLLRDNORM POLLRDBAND;
                            revents := revents slot |} in
           exec modify (fun w =>
                  set_polledSocketsNumber (size_wrap (polledSocketsNumber w + 1))
                    (set_polledSocketsList
                       (qsort (<[nmemb := poller]> (polledSocketsList w)) (S nmemb)) w));
           ret (PollSlot nmemb)
       end);
  malloc
    (if networkRole =? IP_SERVER then
       {| socket := socket;
          ref_ReceiveMessage :=
            if transportProtocol =? IP_TCP then fn_AcceptTCPClient else fn_AcceptUDPClient;
          ref_SendMessage :=
            if (transportProtocol =? IP_UDP) && IS_IP_MULTICAST_ADDRESS IP_NETWORK_LEGACY address
            then fn_SendUDPMessage else fn_SendMessageAll;
          ref_Close :=
            if transportProtocol =? IP_TCP then fn_CloseTCPServer else fn_CloseUDPServer;
          addressData := address;
          messageLength := IP_MAX_MESSAGE_LENGTH;
          buffer := None;
          clientsList := [];
          ref_clientsCount := 0;
          server := None |}
     else
       {| socket := socket;
          ref_ReceiveMessage :=
            if transportProtocol =? IP_TCP then fn_ReceiveTCPMessage else fn_ReceiveUDPMessage;
          ref_SendMessage :=
            if transportProtocol =? IP_TCP then fn_SendTCPMessage else fn_SendUDPMessage;
          ref_Close :=
            if transportProtocol =? IP_TCP then fn_CloseTCPClient else fn_CloseUDPClient;
          addressData := address;
          messageLength := IP_MAX_MESSAGE_LENGTH;
          buffer := Some (replicate (Z.to_nat IP_MAX_MESSAGE_LENGTH) 0);
          clientsList := [];
          ref_clientsCount := 0;
          server := None |}).

(** The scan of [AddClient] for the first free cell among the first
    [clientsNumber] cells: the resulting [clientIndex] and
    [clientsListSize], or [None] when a cell read lies outside the list. *)
Fixpoint AddClient_scan (n : nat) (clientsList : list (option Z))
    (clientsNumber clientIndex clientsListSize : Z) : option (Z * Z) :=
  match n with
  | O => Some (clientIndex, clientsListSize)
  | S n' =>
      if clientIndex <? clientsNumber then
        match clientsList !! Z.to_nat clientIndex with
        | None => None
        | Some None => Some (clientIndex, clientsListSize + 1)
        | Some (Some _) =>
            AddClient_scan n' clientsList clientsNumber (clientIndex + 1) (clientsListSize + 1)
        end
      else Some (clientIndex, clientsListSize)
  end.

Definition AddClient (server client : Z) : M World unit :=
  exec update client (set_server (Some server));
  do s <- deref server;
  let clientsNumber := ref_clientsCount s in
  do '(clientIndex, clientsListSize) <-
    must (AddClient_scan (Z.to_nat clientsNumber) (clientsList s) clientsNumber 0 0);
  let list :=
    if clientIndex =? clientsListSize
    then realloc (clientsList s) (Z.to_nat (clientIndex + 1))
    else clientsList s in
  if decide (Z.to_nat clientIndex < length list)%nat then
    update server (fun s =>
      set_clientsCount (size_wrap (ref_clientsCount s + 1))
        (set_clientsList (<[Z.to_nat clientIndex := Some client]> list) s))
  else crash.

Definition LoadAddressInfo (o : OS) (host : option string) (port : string)
    (networkRole : Z) : option IPAddressData :=
  if IP_NETWORK_LEGACY then
    let portNumber := strtoul port mod 65536 in
    let addressData (s_addr : Z) :=
      {| sa_family := AF_INET; sin_port := htons portNumber; sin_addr := s_addr;
         sin6_addr := [] |} in
    match host with
    | None => Some (addressData INADDR_ANY)
    | Some h =>
        if bool_decide (h = "255.255.255.255") then Some (addressData INADDR_BROADCAST)
        else if os_inet_addr o h =? INADDR_NONE then None
        else Some (addressData (os_inet_addr o h))
    end
  else
    let hints : option (Z * Z) :=
      match host with
      | None => if networkRole =? IP_SERVER then Some (AI_PASSIVE, AF_INET6) else None
      | Some _ => Some (0, AF_UNSPEC)
      end in
    match hints with
    | None => None
    | Some (ai_flags, ai_family) =>
        match os_getaddrinfo o host port ai_flags ai_family with
        | None => None
        | Some hostsInfoList =>
            head (filter (fun ai_addr => is_Some (GetAddressString o ai_addr)) hostsInfoList)
        end
    end.

Definition CreateSocket (o : OS) (protocol : Z) (address : IPAddressData) : Z :=
  if protocol =? IP_TCP then os_socket o (sa_family address) SOCK_STREAM IPPROTO_TCP
  else if protocol =? IP_UDP then os_socket o (sa_family address) SOCK_DGRAM IPPROTO_UDP
  else INVALID_SOCKET.

(** One configuration call: on failure the descriptor is closed and the
    enclosing function returns false. *)
Definition configure (c : Syscall) (socketFD : Z) (k : M World bool) : M World bool :=
  do ok <- call_ok c socketFD;
  if ok then k else exec close socketFD; ret false.

Definition SetSocketConfig (socketFD : Z) : M World bool :=
  configure SYS_fcntl_O_NONBLOCK socketFD
    (configure SYS_setsockopt_SO_REUSEADDR socketFD (ret true)).

Definition BindServerSocket (socketFD : Z) (address : IPAddressData) : M World bool :=
  let bind_it := configure SYS_bind socketFD (ret true) in
  if sa_family address =? AF_INET6
  then configure SYS_setsockopt_IPV6_V6ONLY socketFD bind_it
  else bind_it.

Definition BindTCPServerSocket (socketFD : Z) (address : IPAddressData) : M World bool :=
  do bound <- BindServerSocket socketFD address;
  if negb bound then ret false
  else configure SYS_listen socketFD (ret true).

Definition BindUDPServerSocket (socketFD : Z) (address : IPAddressData) : M World bool :=
  do bound <- BindServerSocket socketFD address;
  if negb bound then ret false
  else if IP_NETWORK_LEGACY then
    configure SYS_setsockopt_SO_BROADCAST socketFD (ret true)
  else if sa_family address =? AF_INET6 then
    configure SYS_setsockopt_IPV6_MULTICAST_HOPS socketFD
      (configure SYS_setsockopt_IPV6_MULTICAST_IF socketFD (ret true))
  else
    configure SYS_setsockopt_IP_MULTICAST_TTL socketFD
      (configure SYS_setsockopt_IP_MULTICAST_IF socketFD (ret true)).

Definition ConnectTCPClientSocket (socketFD : Z) (address : IPAddressData) : M World bool :=
  configure SYS_connect socketFD (ret true).

Definition ConnectUDPClientSocket (socketFD : Z) (address : IPAddressData) : M World bool :=
  configure SYS_bind_local socketFD
    (if IP_NETWORK_LEGACY then ret true
     else if sa_family address =? AF_INET6 then
       if IS_IPV6_MULTICAST_ADDRESS IP_NETWORK_LEGACY address
       then configure SYS_setsockopt_IPV6_ADD_MEMBERSHIP socketFD (ret true)
       else ret true
     else
       if IS_IPV4_MULTICAST_ADDRESS address
       then configure SYS_setsockopt_IP_ADD_MEMBERSHIP socketFD (ret true)
       else ret true).

Definition IP_OpenConnection (connectionType : Z) (host : option string) (port : Z)
    : M World (option Z) :=
  let TRANSPORT_MASK := 0xF0 in
  let ROLE_MASK := 0x0F in
  if port <? 49152 then ret None
  else
    let portString := pretty port in
    do w <- get;
    match LoadAddressInfo (os w) host portString (Z.land connectionType ROLE_MASK) with
    | None => ret None
    | Some address =>
        let socketFD := CreateSocket (os w) (Z.land connectionType TRANSPORT_MASK) address in
        if socketFD =? INVALID_SOCKET then ret None
        else
          do configured <- SetSocketConfig socketFD;
          if negb configured then ret None
          else
            do bound <-
              (if connectionType =? Z.lor IP_TCP IP_SERVER
               then BindTCPServerSocket socketFD address
               else if connectionType =? Z.lor IP_UDP IP_SERVER
               then BindUDPServerSocket socketFD address
               else if connectionType =? Z.lor IP_TCP IP_CLIENT
               then ConnectTCPClientSocket socketFD address
               else if connectionType =? Z.lor IP_UDP IP_CLIENT
               then ConnectUDPClientSocket socketFD address
               else ret false);
            if negb bound then ret None
            else
              do connection <-
                AddConnection socketFD address (Z.land connectionType TRANSPORT_MASK)
                  (Z.land connectionType ROLE_MASK);
              ret (Some connection)
    end.

Definition IP_SetMessageLength (connection : option Z) (messageLength_ : Z) : M World Z :=
  match connection with
  | None => ret 0
  | Some p =>
      exec update p
        (set_messageLength (if messageLength_ >? IP_MAX_MESSAGE_LENGTH
                            then IP_MAX_MESSAGE_LENGTH
                            else messageLength_ mod 65536));
      do c <- deref p;
      ret (messageLength c)
  end.

(** *** Finalizing (declared ahead of its first use in the C file) *)

Definition RemoveSocket (socketFD : Z) : M World unit :=
  exec (if IP_NETWORK_LEGACY then
          if (0 <=? socketFD) && (socketFD <? FD_SETSIZE) then
            exec modify (fun w => set_polledSocketsSet (polledSocketsSet w ∖ {[ socketFD ]}) w);
            modify (fun w =>
              if size_wrap (int_wrap (socketFD + 1)) >=? polledSocketsNumber w
              then set_polledSocketsNumber (size_wrap (socketFD - 1)) w else w)
          else crash
        else
          do w <- get;
          let cmpPoller := {| fd := socketFD; events := 0; revents := 0 |} in
          let nmemb := Z.to_nat (polledSocketsNumber w) in
          match bsearch cmpPoller (polledSocketsList w) nmemb with
          | Some i =>
              do poller <- must (polledSocketsList w !! i);
              let removed := {| fd := 0xFFFF; events := events poller;
                                revents := revents poller |} in
              modify (fun w =>
                set_polledSocketsNumber (size_wrap (polledSocketsNumber w - 1))
                  (set_polledSocketsList (qsort (<[i := removed]> (polledSocketsList w)) nmemb) w))
          | None => ret tt
          end);
  close socketFD.

(** *** Generic and specific communication *)

(** The bytes [data] written at the start of a buffer. *)
Definition write_buffer (data buf : list Z) : list Z := data ++ drop (length data) buf.

Definition ReceiveTCPMessage (connection : Z) : M World (option (list Z)) :=
  do c <- deref connection;
  do socketFD <- socket_fd (socket c);
  if socketFD =? INVALID_SOCKET then ret None
  else
    do buf <- must (buffer c);
    do received <- sys (os_recv_stream socketFD (messageLength c));
    match received with
    | None => ret None
    | Some data =>
        if Z.of_nat (length data) =? 0 then
          exec RemoveSocket socketFD;
          ret None
        else
          exec update connection (set_buffer (Some (write_buffer data buf)));
          ret (Some (write_buffer data buf))
    end.

Definition SendTCPMessage (connection : Z) (message : list Z) : M World Z :=
  do c <- deref connection;
  do socketFD <- socket_fd (socket c);
  do sent <- sys (os_send socketFD None message (messageLength c));
  if sent then ret 0 else ret (-1).

Definition ReceiveUDPMessage (connection : Z) : M World (option (list Z)) :=
  do c <- deref connection;
  do socketFD <- socket_fd (socket c);
  do buf <- must (buffer c);
  do peeked <- sys (os_recv_dgram socketFD (messageLength c) true);
  match peeked with
  | None => ret None
  | Some (data, address) =>
      exec update connection (set_buffer (Some (write_buffer data buf)));
      if ARE_EQUAL_IP_ADDRESSES IP_NETWORK_LEGACY (addressData c) address then
        do consumed <- sys (os_recv_dgram socketFD (messageLength c) false);
        let buf' := match consumed with
                    | Some (data', _) => write_buffer data' (write_buffer data buf)
                    | None => write_buffer data buf
                    end in
        exec update connection (set_buffer (Some buf'));
        ret (Some buf')
      else ret None
  end.

Definition SendUDPMessage (connection : Z) (message : list Z) : M World Z :=
  do c <- deref connection;
  do socketFD <- socket_fd (socket c);
  do sent <- sys (os_send socketFD (Some (addressData c)) message (messageLength c));
  if sent then ret 0 else ret (-1).

(** The loop of [SendMessageAll]; [send] is [IP_SendMessage].  A vacated
    (NULL) cell below [clientsNumber] leaves [clientIndex] unchanged. *)
Fixpoint SendMessageAll_loop (send : Z -> list Z -> M World Z) (fuel : nat)
    (connection : Z) (message : list Z) (clientsNumber clientIndex : Z) : M World Z :=
  if clientIndex <? clientsNumber then
    match fuel with
    | O => hang
    | S fuel' =>
        do c <- deref connection;
        do cell <- must (clientsList c !! Z.to_nat clientIndex);
        match cell with
        | Some client =>
            exec send client message;
            SendMessageAll_loop send fuel' connection message clientsNumber (clientIndex + 1)
        | None =>
            SendMessageAll_loop send fuel' connection message clientsNumber clientIndex
        end
    end
  else ret 0.

Fixpoint IP_SendMessage (fuel : nat) (connection : Z) (message : list Z) : M World Z :=
  do c <- deref connection;
  if strlen message + 1 >? messageLength c then ret 0
  else
    match ref_SendMessage c with
    | fn_SendTCPMessage => SendTCPMessage connection message
    | fn_SendUDPMessage => SendUDPMessage connection message
    | fn_SendMessageAll =>
        match fuel with
        | O => hang
        | S fuel' =>
            SendMessageAll_loop (IP_SendMessage fuel') fuel' connection message
              (ref_clientsCount c) 0
        end
    end.

Definition SendMessageAll (fuel : nat) (connection : Z) (message : list Z) : M World Z :=
  do c <- deref connection;
  SendMessageAll_loop (IP_SendMessage fuel) fuel connection message (ref_clientsCount c) 0.

Definition AcceptTCPClient (server : Z) : M World (option Z) :=
  do s <- deref server;
  do socketFD <- socket_fd (socket s);
  do accepted <- sys (os_accept socketFD);
  match accepted with
  | None => ret None
  | Some (clientSocketFD, clientAddress) =>
      if clientSocketFD =? INVALID_SOCKET then ret None
      else
        do client <- AddConnection clientSocketFD clientAddress IP_TCP 0;
        exec AddClient server client;
        ret (Some client)
  end.

(** The loop of [AcceptUDPClient] over the first [clientsNumber] cells:
    whether one of them holds the peeked address. *)
Fixpoint AcceptUDPClient_known (n : nat) (server : Z) (clientAddress : IPAddressData)
    (clientIndex : Z) : M World bool :=
  match n with
  | O => ret false
  | S n' =>
      do s <- deref server;
      do cell <- must (clientsList s !! Z.to_nat clientIndex);
      do client <- must cell;
      do c <- deref client;
      if ARE_EQUAL_IP_ADDRESSES IP_NETWORK_LEGACY (addressData c) clientAddress then ret true
      else AcceptUDPClient_known n' server clientAddress (clientIndex + 1)
  end.

Definition AcceptUDPClient (server : Z) : M World (option Z) :=
  do s <- deref server;
  do socketFD <- socket_fd (socket s);
  do peeked <- sys (os_recv_dgram socketFD IP_MAX_MESSAGE_LENGTH true);
  match peeked with
  | None => ret None
  | Some (_, clientAddress) =>
      let clientsNumber := ref_clientsCount s in
      do known <- AcceptUDPClient_known (Z.to_nat clientsNumber) server clientAddress 0;
      if known then ret None
      else
        do socketFD <- socket_fd (socket s);
        do client <- AddConnection socketFD clientAddress IP_UDP 0;
        exec AddClient server client;
        ret (Some client)
  end.

Definition IP_ReceiveMessage (connection : Z) : M World (option (list Z)) :=
  do c <- deref connection;
  exec must (buffer c);
  exec update connection
    (set_buffer (Some (replicate (Z.to_nat IP_MAX_MESSAGE_LENGTH) 0)));
  match ref_ReceiveMessage c with
  | fn_ReceiveTCPMessage => ReceiveTCPMessage connection
  | fn_ReceiveUDPMessage => ReceiveUDPMessage connection
  | _ => crash
  end.

Definition IP_AcceptClient (connection : Z) : M World (option Z) :=
  do c <- deref connection;
  match ref_ReceiveMessage c with
  | fn_AcceptTCPClient => AcceptTCPClient connection
  | fn_AcceptUDPClient => AcceptUDPClient connection
  | _ => crash
  end.

Definition IP_WaitEvent (milliseconds : Z) : M World Z :=
  if IP_NETWORK_LEGACY then
    exec modify (fun w =>
           set_activeSocketsSet
             (filter (fun socketFD =>
                        socketFD < polledSocketsNumber w
                        ∧ os_readable (os w) socketFD = true)
                     (polledSocketsSet w)) w);
    gets (fun w => Z.of_nat (size (activeSocketsSet w)))
  else
    exec modify (fun w =>
           let nmemb := Z.to_nat (polledSocketsNumber w) in
           let polled p :=
             {| fd := fd p; events := events p;
                revents := if (0 <=? fd p) && os_readable (os w) (fd p)
                           then POLLRDNORM else 0 |} in
           set_polledSocketsList
             ((polled <$> take nmemb (polledSocketsList w)) ++ drop nmemb (polledSocketsList w))
             w);
    gets (fun w =>
            Z.of_nat (length (filter (fun p => revents p ≠ 0)
                                (take (Z.to_nat (polledSocketsNumber w))
                                   (polledSocketsList w))))).

Definition IP_IsDataAvailable (connection : option Z) : M World bool :=
  match connection with
  | None => ret false
  | Some p =>
      do c <- deref p;
      if IP_NETWORK_LEGACY then
        do socketFD <- socket_fd (socket c);
        gets (fun w => bool_decide (socketFD ∈ activeSocketsSet w))
      else
        match socket c with
        | PollSlot i =>
            do w <- get;
            do poller <- must (polledSocketsList w !! i);
            ret (negb (Z.land (revents poller) POLLRDNORM =? 0)
                 || negb (Z.land (revents poller) POLLRDBAND =? 0))
        | OwnPoller _ => crash
        end
  end.

(** *** Finalizing *)

Definition CloseTCPServer (server : Z) : M World unit :=
  do s <- deref server;
  do socketFD <- socket_fd (socket s);
  exec RemoveSocket socketFD;
  free server.

Definition CloseUDPServer (server : Z) : M World unit :=
  do s <- deref server;
  if ref_clientsCount s =? 0 then
    do socketFD <- socket_fd (socket s);
    exec RemoveSocket socketFD;
    free server
  else ret tt.

(** The loop of [RemoveClient] over the first [clientsNumber] cells. *)
Fixpoint RemoveClient_loop (n : nat) (server client : Z) (clientIndex : Z) : M World unit :=
  match n with
  | O => ret tt
  | S n' =>
      do s <- deref server;
      do cell <- must (clientsList s !! Z.to_nat clientIndex);
      if bool_decide (cell = Some client) then
        update server (fun s =>
          set_clientsCount (size_wrap (ref_clientsCount s - 1))
            (set_clientsList (<[Z.to_nat clientIndex := None]> (clientsList s)) s))
      else RemoveClient_loop n' server client (clientIndex + 1)
  end.

Definition RemoveClient (server : option Z) (client : Z) : M World unit :=
  match server with
  | None => ret tt
  | Some sp =>
      do s <- deref sp;
      RemoveClient_loop (Z.to_nat (ref_clientsCount s)) sp client 0
  end.

Definition CloseTCPClient (client : Z) : M World unit :=
  do c <- deref client;
  exec RemoveClient (server c) client;
  do socketFD <- socket_fd (socket c);
  exec RemoveSocket socketFD;
  free client.

Definition CloseUDPClient (client : Z) : M World unit :=
  do c <- deref client;
  exec RemoveClient (server c) client;
  exec match server c with
       | None => do socketFD <- socket_fd (socket c); close socketFD
       | Some sp =>
           do s <- deref sp;
           if ref_clientsCount s =? 0 then CloseUDPServer sp else ret tt
       end;
  free client.

Definition IP_CloseConnection (connection : option Z) : M World unit :=
  match connection with
  | None => ret tt
  | Some p =>
      do c <- deref p;
      match ref_Close c with
      | fn_CloseTCPServer => CloseTCPServer p
      | fn_CloseUDPServer => CloseUDPServer p
      | fn_CloseTCPClient => CloseTCPClient p
      | fn_CloseUDPClient => CloseUDPClient p
      end
  end.

End IPNetwork.

(** ** The threading library (thread_safe_queues.h, thread_safe_maps.h, threads.h)

    The library is a separate project; its functions are modelled from their
    contracts. *)

(** What a queue cell holds: a message buffer, or the identifier of an
    accepted client (the cells of a server's read queue). *)
Inductive Slot : Type :=
| SlotMessage (bytes : list Z)
| SlotID (id : Z).

Inductive TSQueueAccessMode : Type :=
| TSQUEUE_WAIT
| TSQUEUE_NOWAIT.

(** Modelled from the spec: the bounded FIFO of the threading library, which
    is missing from the sources.  "A bounded FIFO of fixed-size slots with
    blocking and non-blocking enqueue/dequeue"; items are kept oldest
    first. *)
Record TSQueue : Type := {
  tsq_maxLength : Z;
  tsq_itemSize : Z;
  tsq_items : list Slot
}.

(** Modelled from the spec: [TSQ_Create], missing from the sources.
    "Create(capacity, element_size)". *)
Definition TSQ_Create (maxLength itemSize : Z) : TSQueue :=
  {| tsq_maxLength := maxLength; tsq_itemSize := itemSize; tsq_items := [] |}.

(** Modelled from the spec: [TSQ_GetItemsCount], missing from the sources. *)
Definition TSQ_GetItemsCount (queue : TSQueue) : Z := Z.of_nat (length (tsq_items queue)).

(** Modelled from the spec: [TSQ_Enqueue], missing from the sources.
    "Wait modes block on a full queue until space is available; on
    Enqueue-NoWait into a full queue, behavior is drop-oldest overwrite so
    the freshest message survives."  [None]: the call blocks. *)
Definition TSQ_Enqueue (queue : TSQueue) (item : Slot) (mode : TSQueueAccessMode)
  : option TSQueue :=
  if TSQ_GetItemsCount queue <? tsq_maxLength queue then
    Some {| tsq_maxLength := tsq_maxLength queue; tsq_itemSize := tsq_itemSize queue;
            tsq_items := tsq_items queue ++ [item] |}
  else
    match mode with
    | TSQUEUE_WAIT => None
    | TSQUEUE_NOWAIT =>
        Some {| tsq_maxLength := tsq_maxLength queue; tsq_itemSize := tsq_itemSize queue;
                tsq_items := drop 1 (tsq_items queue) ++ [item] |}
    end.

(** Modelled from the spec: [TSQ_Dequeue], missing from the sources.
    "Wait modes block on an empty queue until an item is available; NoWait
    modes return without effect when the queue is empty."  [None]: the call
    blocks; otherwise the item taken, if any, and the queue left. *)
Definition TSQ_Dequeue (queue : TSQueue) (mode : TSQueueAccessMode)
  : option (option Slot * TSQueue) :=
  match tsq_items queue with
  | item :: rest =>
      Some (Some item,
            {| tsq_maxLength := tsq_maxLength queue; tsq_itemSize := tsq_itemSize queue;
               tsq_items := rest |})
  | [] =>
      match mode with
      | TSQUEUE_WAIT => None
      | TSQUEUE_NOWAIT => Some (None, queue)
      end
  end.

(** Modelled from the spec: the integer-keyed table of the threading library,
    which is missing from the sources.  "Assigns a stable opaque identifier
    on insert (integer, monotonically assigned per insert), supports
    acquire/release with per-entry mutual exclusion, removal, iteration by
    key under a snapshot, and a count."  [tsm_held] is the set of entries
    currently acquired. *)
Record TSMap (V : Type) : Type := {
  tsm_items : gmap Z V;
  tsm_nextID : Z;
  tsm_held : gset Z
}.
Arguments tsm_items {V} _.
Arguments tsm_nextID {V} _.
Arguments tsm_held {V} _.

Section TSMap.
Context {V : Type}.

(** The identifier the first insert into a new map receives. *)
Variable TSM_FIRST_ID : Z.

(** Modelled from the spec: [TSM_Create], missing from the sources. *)
Definition TSM_Create : TSMap V :=
  {| tsm_items := ∅; tsm_nextID := TSM_FIRST_ID; tsm_held := ∅ |}.

(** Modelled from the spec: [TSM_SetItem], missing from the sources.
    "SetItem(key, value) → assigned opaque ID (integer, monotonically
    assigned per insert)". *)
Definition TSM_SetItem (map : TSMap V) (value : V) : Z * TSMap V :=
  (tsm_nextID map,
   {| tsm_items := <[tsm_nextID map := value]> (tsm_items map);
      tsm_nextID := tsm_nextID map + 1;
      tsm_held := tsm_held map |}).

(** Modelled from the spec: [TSM_AcquireItem], missing from the sources.
    "AcquireItem(id) → pointer to value with exclusive per-entry hold (or
    null if absent)".  [None]: the entry is held and the call blocks. *)
Definition TSM_AcquireItem (map : option (TSMap V)) (id : Z)
  : option (option V * option (TSMap V)) :=
  match map with
  | None => Some (None, None)
  | Some m =>
      match tsm_items m !! id with
      | None => Some (None, map)
      | Some v =>
          if bool_decide (id ∈ tsm_held m) then None
          else Some (Some v,
                     Some {| tsm_items := tsm_items m; tsm_nextID := tsm_nextID m;
                             tsm_held := {[ id ]} ∪ tsm_held m |})
      end
  end.

(** Modelled from the spec: [TSM_ReleaseItem], missing from the sources. *)
Definition TSM_ReleaseItem (map : option (TSMap V)) (id : Z) : option (TSMap V) :=
  match map with
  | None => None
  | Some m =>
      Some {| tsm_items := tsm_items m; tsm_nextID := tsm_nextID m;
              tsm_held := tsm_held m ∖ {[ id ]} |}
  end.

(** Modelled from the spec: [TSM_RemoveItem], missing from the sources.
    "An acquired entry cannot be removed until released.  Removal after
    release triggers destructor and reclaims the slot." *)
Definition TSM_RemoveItem (map : option (TSMap V)) (id : Z) : option (TSMap V) :=
  match map with
  | None => None
  | Some m =>
      if bool_decide (id ∈ tsm_held m) then map
      else Some {| tsm_items := delete id (tsm_items m); tsm_nextID := tsm_nextID m;
                   tsm_held := tsm_held m |}
  end.

(** Modelled from the spec: [TSM_GetItem], missing from the sources.
    "GetItem(id, out) copy-get": whether the entry exists. *)
Definition TSM_GetItem (map : option (TSMap V)) (id : Z) : bool :=
  match map with
  | None => false
  | Some m => bool_decide (is_Some (tsm_items m !! id))
  end.

(** Modelled from the spec: [TSM_GetItemsCount], missing from the
    sources. *)
Definition TSM_GetItemsCount (map : option (TSMap V)) : Z :=
  match map with
  | None => 0
  | Some m => Z.of_nat (size (tsm_items m))
  end.

(** Modelled from the spec: the key snapshot of [TSM_RunForAllKeys],
    missing from the sources.  "RunForAllKeys(fn) iterates IDs under a
    snapshot calling fn(id) without holding the map lock." *)
Definition TSM_keys (map : option (TSMap V)) : list Z :=
  match map with
  | None => []
  | Some m => (map_to_list (tsm_items m)).*1
  end.
End TSMap.

(** Modelled from the spec: the handle of a worker thread (threads.h, missing
    from the sources): not started, running its loop, or exited and
    joined. *)
Inductive Thread : Type :=
| THREAD_INVALID_HANDLE
| THREAD_RUNNING
| THREAD_EXITED.

Global Instance Thread_eq_dec : EqDecision Thread.
Proof. solve_decision. Defined.

(** Modelled from the spec: [Thread_WaitExit], missing from the sources.
    The worker loops test [isNetworkRunning] once per iteration; a join
    issued after the flag is cleared finds the thread exited.  The bound on
    the wait is not represented. *)
Definition Thread_WaitExit (handle : Thread) (isNetworkRunning : bool) : Thread :=
  match handle with
  | THREAD_RUNNING => if isNetworkRunning then THREAD_RUNNING else THREAD_EXITED
  | other => other
  end.

(** ** async_ip_network.c *)

Definition QUEUE_MAX_ITEMS : Z := 10.

(** [(unsigned long) IP_CONNECTION_INVALID_ID] *)
Definition IP_CONNECTION_INVALID_ID : Z := size_wrap (-1).

Definition SIZEOF_UNSIGNED_LONG : Z := 8.

Record AsyncIPConnectionData : Type := {
  baseConnection : option Z;
  readQueue : TSQueue;
  writeQueue : TSQueue
}.

Definition set_baseConnection (v : option Z) (c : AsyncIPConnectionData) :=
  {| baseConnection := v; readQueue := readQueue c; writeQueue := writeQueue c |}.
Definition set_readQueue (v : TSQueue) (c : AsyncIPConnectionData) :=
  {| baseConnection := baseConnection c; readQueue := v; writeQueue := writeQueue c |}.
Definition set_writeQueue (v : TSQueue) (c : AsyncIPConnectionData) :=
  {| baseConnection := baseConnection c; readQueue := readQueue c; writeQueue := v |}.

(** The globals of the facade, the function-local statics among them, over
    the state of the synchronous layer. *)
Record State : Type := {
  world : World;
  globalReadThread : Thread;
  globalWriteThread : Thread;
  isNetworkRunning : bool;
  globalConnectionsList : option (TSMap AsyncIPConnectionData);
  (* static in AsyncIP_GetActivesNumber *)
  activeConnectionsNumber : Z;
  (* static in AsyncIP_ReadMessage *)
  messageData : list Z
}.

Definition set_world (v : World) (s : State) : State :=
  {| world := v; globalReadThread := globalReadThread s;
     globalWriteThread := globalWriteThread s; isNetworkRunning := isNetworkRunning s;
     globalConnectionsList := globalConnectionsList s;
     activeConnectionsNumber := activeConnectionsNumber s; messageData := messageData s |}.

Definition set_globalReadThread (v : Thread) (s : State) : State :=
  {| world := world s; globalReadThread := v;
     globalWriteThread := globalWriteThread s; isNetworkRunning := isNetworkRunning s;
     globalConnectionsList := globalConnectionsList s;
     activeConnectionsNumber := activeConnectionsNumber s; messageData := messageData s |}.

Definition set_globalWriteThread (v : Thread) (s : State) : State :=
  {| world := world s; globalReadThread := globalReadThread s;
     globalWriteThread := v; isNetworkRunning := isNetworkRunning s;
     globalConnectionsList := globalConnectionsList s;
     activeConnectionsNumber := activeConnectionsNumber s; messageData := messageData s |}.

Definition set_isNetworkRunning (v : bool) (s : State) : State :=
  {| world := world s; globalReadThread := globalReadThread s;
     globalWriteThread := globalWriteThread s; isNetworkRunning := v;
     globalConnectionsList := globalConnectionsList s;
     activeConnectionsNumber := activeConnectionsNumber s; messageData := messageData s |}.

Definition set_globalConnectionsList (v : option (TSMap AsyncIPConnectionData)) (s : State)
  : State :=
  {| world := world s; globalReadThread := globalReadThread s;
     globalWriteThread := globalWriteThread s; isNetworkRunning := isNetworkRunning s;
     globalConnectionsList := v;
     activeConnectionsNumber := activeConnectionsNumber s; messageData := messageData s |}.

Definition set_activeConnectionsNumber (v : Z) (s : State) : State :=
  {| world := world s; globalReadThread := globalReadThread s;
     globalWriteThread := globalWriteThread s; isNetworkRunning := isNetworkRunning s;
     globalConnectionsList := globalConnectionsList s;
     activeConnectionsNumber := v; messageData := messageData s |}.

Definition set_messageData (v : list Z) (s : State) : State :=
  {| world := world s; globalReadThread := globalReadThread s;
     globalWriteThread := globalWriteThread s; isNetworkRunning := isNetworkRunning s;
     globalConnectionsList := globalConnectionsList s;
     activeConnectionsNumber := activeConnectionsNumber s; messageData := v |}.

Definition initial_State (o : OS) : State :=
  {| world := initial_World o;
     globalReadThread := THREAD_INVALID_HANDLE;
     globalWriteThread := THREAD_INVALID_HANDLE;
     isNetworkRunning := false;
     globalConnectionsList := None;
     activeConnectionsNumber := 0;
     messageData := replicate (Z.to_nat IP_MAX_MESSAGE_LENGTH) 0 |}.

(** A call into the synchronous layer. *)
Definition in_world {A} (c : M World A) : M State A :=
  fun s => match c (world s) with
           | Done a w => Done a (set_world w s)
           | Crash => Crash
           | Hang => Hang
           end.

(** A blocking call of the threading library. *)
Definition blocking {S A} (o : option A) : M S A :=
  match o with Some a => ret a | None => hang end.

(** The registry calls on the global list. *)
Definition AcquireItem (id : Z) : M State (option AsyncIPConnectionData) :=
  do s <- get;
  do '(item, map) <- blocking (TSM_AcquireItem (globalConnectionsList s) id);
  exec modify (set_globalConnectionsList map);
  ret item.

Definition ReleaseItem (id : Z) : M State unit :=
  modify (fun s => set_globalConnectionsList (TSM_ReleaseItem (globalConnectionsList s) id) s).

Definition RemoveItem (id : Z) : M State unit :=
  modify (fun s => set_globalConnectionsList (TSM_RemoveItem (globalConnectionsList s) id) s).

(** A write through the pointer [TSM_AcquireItem] returned. *)
Definition update_item (id : Z) (f : AsyncIPConnectionData -> AsyncIPConnectionData)
  : M State unit :=
  do s <- get;
  do m <- must (globalConnectionsList s);
  do item <- must (tsm_items m !! id);
  modify (set_globalConnectionsList
            (Some {| tsm_items := <[id := f item]> (tsm_items m);
                     tsm_nextID := tsm_nextID m; tsm_held := tsm_held m |})).

(** A read through the pointer [TSM_AcquireItem] returned. *)
Definition read_item (id : Z) : M State AsyncIPConnectionData :=
  do s <- get;
  do m <- must (globalConnectionsList s);
  must (tsm_items m !! id).

(** [for] loop over [0 .. n-1] with a body in the monad. *)
Fixpoint for_each {S A} (l : list A) (body : A -> M S unit) : M S unit :=
  match l with
  | [] => ret tt
  | a :: rest => exec body a; for_each rest body
  end.

(** The bytes of an [unsigned long], least significant first. *)
Definition unsigned_long_bytes (n : Z) : list Z :=
  (fun i => (n / 2 ^ (8 * i)) mod 256) <$> seqZ 0 SIZEOF_UNSIGNED_LONG.

Definition unsigned_long_of_bytes (bytes : list Z) : Z :=
  foldr (fun b acc => b + 256 * acc) 0 (take (Z.to_nat SIZEOF_UNSIGNED_LONG) bytes).

(** The bytes a dequeue copies out of a cell. *)
Definition slot_bytes (item : Slot) : list Z :=
  match item with
  | SlotMessage bytes => bytes
  | SlotID id => unsigned_long_bytes id
  end.

(** Modelled from the spec: [TSQ_Discard], missing from the sources: the
    queue is destroyed with whatever it holds. *)
Definition TSQ_Discard (queue : TSQueue) : TSQueue :=
  {| tsq_maxLength := tsq_maxLength queue; tsq_itemSize := tsq_itemSize queue;
     tsq_items := [] |}.

Section AsyncIPNetwork.
Variable IP_NETWORK_LEGACY : bool.
Variable TSM_FIRST_ID : Z.

(** *** Information utilities *)

Definition AsyncIP_GetActivesNumber : M State Z :=
  do s <- get;
  let globalConnectionsListSize := TSM_GetItemsCount (globalConnectionsList s) in
  exec for_each (seqZ 0 globalConnectionsListSize) (fun connectionIndex =>
         do s <- get;
         if TSM_GetItem (globalConnectionsList s) connectionIndex
         then modify (fun s =>
                set_activeConnectionsNumber (size_wrap (activeConnectionsNumber s + 1)) s)
         else ret tt);
  gets activeConnectionsNumber.

Definition AsyncIP_GetClientsNumber (serverID : Z) : M State Z :=
  do connection <- AcquireItem serverID;
  match connection with
  | None => ret 0
  | Some c =>
      do clientsNumber <- in_world (IP_GetClientsNumber (baseConnection c));
      exec ReleaseItem serverID;
      ret clientsNumber
  end.

Definition AsyncIP_GetAddress (connectionID : Z) : M State (option string) :=
  do connection <- AcquireItem connectionID;
  match connection with
  | None => ret None
  | Some c =>
      exec ReleaseItem connectionID;
      in_world (IP_GetAddress IP_NETWORK_LEGACY (baseConnection c))
  end.

(** *** Initialization *)

Definition AddAsyncConnection (baseConnection : Z) : M State Z :=
  do s <- get;
  exec match globalConnectionsList s with
       | None =>
           (* the two workers start and set the running flag *)
           modify (fun s =>
             set_isNetworkRunning true
               (set_globalWriteThread THREAD_RUNNING
                  (set_globalReadThread THREAD_RUNNING
                     (set_globalConnectionsList (Some (TSM_Create TSM_FIRST_ID)) s))))
       | Some _ => ret tt
       end;
  do isServer <- in_world (IP_IsServer (Some baseConnection));
  let readQueueItemSize :=
    if negb isServer then IP_MAX_MESSAGE_LENGTH else SIZEOF_UNSIGNED_LONG in
  let connectionData :=
    {| baseConnection := Some baseConnection;
       readQueue := TSQ_Create QUEUE_MAX_ITEMS readQueueItemSize;
       writeQueue := TSQ_Create QUEUE_MAX_ITEMS IP_MAX_MESSAGE_LENGTH |} in
  do s <- get;
  do map <- must (globalConnectionsList s);
  let '(connectionID, map') := TSM_SetItem map connectionData in
  exec modify (set_globalConnectionsList (Some map'));
  ret connectionID.

Definition AsyncIP_OpenConnection (connectionType : Z) (host : option string) (port : Z)
    : M State Z :=
  do baseConnection <- in_world (IP_OpenConnection IP_NETWORK_LEGACY connectionType host port);
  match baseConnection with
  | None => ret IP_CONNECTION_INVALID_ID
  | Some p => AddAsyncConnection p
  end.

Definition AsyncIP_SetMessageLength (connectionID : Z) (messageLength_ : Z) : M State Z :=
  do connection <- AcquireItem connectionID;
  match connection with
  | None => ret 0
  | Some c =>
      do messageLength_ <- in_world (IP_SetMessageLength (baseConnection c) messageLength_);
      exec ReleaseItem connectionID;
      ret messageLength_
  end.

(** *** Asynchronous update *)

(** [TSQ_Enqueue( connection->readQueue, item, TSQUEUE_WAIT )] *)
Definition enqueue_read (connectionID : Z) (item : Slot) : M State unit :=
  do connection <- read_item connectionID;
  do queue <- blocking (TSQ_Enqueue (readQueue connection) item TSQUEUE_WAIT);
  update_item connectionID (set_readQueue queue).

Definition ReadToQueue (connectionID : Z) : M State unit :=
  do connection <- AcquireItem connectionID;
  match connection with
  | None => ret tt
  | Some c =>
      if TSQ_GetItemsCount (readQueue c) >=? QUEUE_MAX_ITEMS then ReleaseItem connectionID
      else
        do available <- in_world (IP_IsDataAvailable IP_NETWORK_LEGACY (baseConnection c));
        if available then
          do isServer <- in_world (IP_IsServer (baseConnection c));
          do base <- must (baseConnection c);
          if isServer then
            do newClient <- in_world (IP_AcceptClient IP_NETWORK_LEGACY base);
            match newClient with
            | Some client =>
                do addressString <- in_world (IP_GetAddress IP_NETWORK_LEGACY newClient);
                match addressString with
                | Some _ =>
                    exec ReleaseItem connectionID;
                    do newClientID <- AddAsyncConnection client;
                    enqueue_read connectionID (SlotID newClientID)
                | None => ReleaseItem connectionID
                end
            | None => ReleaseItem connectionID
            end
          else
            do lastMessage <- in_world (IP_ReceiveMessage IP_NETWORK_LEGACY base);
            exec match lastMessage with
                 | Some message => enqueue_read connectionID (SlotMessage message)
                 | None => ret tt
                 end;
            ReleaseItem connectionID
        else ReleaseItem connectionID
  end.

(** One iteration of the loop of [AsyncReadQueues]. *)
Definition AsyncReadQueues_iteration : M State unit :=
  do eventsNumber <- in_world (IP_WaitEvent IP_NETWORK_LEGACY 5000);
  if eventsNumber >? 0 then
    do s <- get;
    for_each (TSM_keys (globalConnectionsList s)) ReadToQueue
  else ret tt.

Definition WriteFromQueue (fuel : nat) (connectionID : Z) : M State unit :=
  do connection <- AcquireItem connectionID;
  match connection with
  | None => ret tt
  | Some c =>
      if TSQ_GetItemsCount (writeQueue c) =? 0 then ReleaseItem connectionID
      else
        do '(item, queue) <- blocking (TSQ_Dequeue (writeQueue c) TSQUEUE_WAIT);
        exec update_item connectionID (set_writeQueue queue);
        let firstMessage := from_option slot_bytes [] item in
        do base <- must (baseConnection c);
        do sent <- in_world (IP_SendMessage fuel base firstMessage);
        if sent =? -1 then
          exec ReleaseItem connectionID;
          RemoveItem connectionID
        else ReleaseItem connectionID
  end.

(** One iteration of the loop of [AsyncWriteQueues]. *)
Definition AsyncWriteQueues_iteration (fuel : nat) : M State unit :=
  do s <- get;
  for_each (TSM_keys (globalConnectionsList s)) (WriteFromQueue fuel).

(** *** Synchronous update *)

Definition AsyncIP_ReadMessage (clientID : Z) : M State (option (list Z)) :=
  do client <- AcquireItem clientID;
  do firstMessage <-
    match client with
    | Some c =>
        do isServer <- in_world (IP_IsServer (baseConnection c));
        if negb isServer then
          if TSQ_GetItemsCount (readQueue c) >? 0 then
            do '(item, queue) <- blocking (TSQ_Dequeue (readQueue c) TSQUEUE_WAIT);
            exec update_item clientID (set_readQueue queue);
            exec modify (fun s =>
                   set_messageData
                     (write_buffer (from_option slot_bytes [] item) (messageData s)) s);
            do s <- get;
            ret (Some (messageData s))
          else ret None
        else ret None
    | None => ret None
    end;
  exec ReleaseItem clientID;
  ret firstMessage.

Definition AsyncIP_WriteMessage (connectionID : Z) (message : list Z) : M State bool :=
  do connection <- AcquireItem connectionID;
  match connection with
  | None => ret false
  | Some c =>
      do queue <- blocking (TSQ_Enqueue (writeQueue c)
                              (SlotMessage (take (Z.to_nat IP_MAX_MESSAGE_LENGTH) message))
                              TSQUEUE_NOWAIT);
      exec update_item connectionID (set_writeQueue queue);
      exec ReleaseItem connectionID;
      ret true
  end.

Definition AsyncIP_GetClient (serverID : Z) : M State Z :=
  do server <- AcquireItem serverID;
  match server with
  | Some s =>
      do isServer <- in_world (IP_IsServer (baseConnection s));
      do firstClient <-
        (if isServer then
           if TSQ_GetItemsCount (readQueue s) >? 0 then
             do '(item, queue) <- blocking (TSQ_Dequeue (readQueue s) TSQUEUE_WAIT);
             exec update_item serverID (set_readQueue queue);
             ret (from_option (fun i => unsigned_long_of_bytes (slot_bytes i))
                    IP_CONNECTION_INVALID_ID item)
           else ret IP_CONNECTION_INVALID_ID
         else ret IP_CONNECTION_INVALID_ID);
      exec ReleaseItem serverID;
      ret firstClient
  | None => ret IP_CONNECTION_INVALID_ID
  end.

(** *** Ending *)

Definition AsyncIP_CloseConnection (connectionID : Z) : M State unit :=
  do connection <- AcquireItem connectionID;
  match connection with
  | None => ret tt
  | Some c =>
      exec in_world (IP_CloseConnection IP_NETWORK_LEGACY (baseConnection c));
      exec update_item connectionID (set_baseConnection None);
      exec update_item connectionID (fun c => set_readQueue (TSQ_Discard (readQueue c)) c);
      exec update_item connectionID (fun c => set_writeQueue (TSQ_Discard (writeQueue c)) c);
      exec ReleaseItem connectionID;
      exec RemoveItem connectionID;
      do s <- get;
      if TSM_GetItemsCount (globalConnectionsList s) =? 0 then
        exec modify (set_isNetworkRunning false);
        exec modify (fun s =>
               set_globalReadThread
                 (Thread_WaitExit (globalReadThread s) (isNetworkRunning s)) s);
        exec modify (fun s =>
               set_globalWriteThread
                 (Thread_WaitExit (globalWriteThread s) (isNetworkRunning s)) s);
        modify (set_globalConnectionsList None)
      else ret tt
  end.

(** *** Interleavings

    What can happen to the state: a call of the facade from the
    application, one iteration of a running worker, or a change of the
    environment (input arriving, a peer going away). *)
Inductive Event : Type :=
| EvOpenConnection (connectionType : Z) (host : option string) (port : Z)
| EvCloseConnection (connectionID : Z)
| EvGetAddress (connectionID : Z)
| EvGetActivesNumber
| EvGetClientsNumber (serverID : Z)
| EvSetMessageLength (connectionID : Z) (messageLength_ : Z)
| EvReadMessage (clientID : Z)
| EvWriteMessage (connectionID : Z) (message : list Z)
| EvGetClient (serverID : Z)
| EvReadToQueue (connectionID : Z)
| EvReaderIteration
| EvWriteFromQueue (fuel : nat) (connectionID : Z)
| EvWriterIteration (fuel : nat)
| EvEnvironment (change : OS -> OS).

Definition worker (handle : State -> Thread) (body : M State unit) : M State unit :=
  do s <- get;
  if bool_decide (handle s = THREAD_RUNNING) && isNetworkRunning s then body else ret tt.

Definition step (e : Event) : M State unit :=
  match e with
  | EvOpenConnection connectionType host port =>
      (* the arguments are converted to uint8_t and uint16_t *)
      exec AsyncIP_OpenConnection (connectionType mod 256) host (port mod 65536); ret tt
  | EvCloseConnection connectionID => AsyncIP_CloseConnection connectionID
  | EvGetAddress connectionID => exec AsyncIP_GetAddress connectionID; ret tt
  | EvGetActivesNumber => exec AsyncIP_GetActivesNumber; ret tt
  | EvGetClientsNumber serverID => exec AsyncIP_GetClientsNumber serverID; ret tt
  | EvSetMessageLength connectionID messageLength_ =>
      (* the argument is converted to size_t *)
      exec AsyncIP_SetMessageLength connectionID (size_wrap messageLength_); ret tt
  | EvReadMessage clientID => exec AsyncIP_ReadMessage clientID; ret tt
  | EvWriteMessage connectionID message =>
      exec AsyncIP_WriteMessage connectionID message; ret tt
  | EvGetClient serverID => exec AsyncIP_GetClient serverID; ret tt
  | EvReadToQueue connectionID => worker globalReadThread (ReadToQueue connectionID)
  | EvReaderIteration => worker globalReadThread AsyncReadQueues_iteration
  | EvWriteFromQueue fuel connectionID =>
      worker globalWriteThread (WriteFromQueue fuel connectionID)
  | EvWriterIteration fuel => worker globalWriteThread (AsyncWriteQueues_iteration fuel)
  | EvEnvironment change =>
      (* the environment cannot take back what was transmitted *)
      modify (fun s =>
        set_world
          (set_os (set_os_wire (os_wire (os (world s))) (change (os (world s))))
             (world s)) s)
  end.

(** A sequence of events, each of which returns. *)
Definition run (trace : list Event) : M State unit := for_each trace step.

End AsyncIPNetwork.

(** * Specifications

    The predicates the theorems are stated with, and the scenarios the
    witnesses and counterexamples run. *)

(** Partial correctness: from a state satisfying [P], a call that returns
    leaves a value and a state satisfying [Q]. *)
Definition hoare {S A} (P : S -> Prop) (c : M S A) (Q : A -> S -> Prop) : Prop :=
  forall s, P s -> match c s with Done a s' => Q a s' | _ => True end.

Definition preserves {S A} (I : S -> Prop) (c : M S A) : Prop :=
  hoare I c (fun _ => I).

Definition length_bounded (c : IPConnectionData) : Prop :=
  0 <= messageLength c <= IP_MAX_MESSAGE_LENGTH.

Definition wire_bounded (o : OS) : Prop :=
  Forall (fun ws => ws_length ws <= IP_MAX_MESSAGE_LENGTH) (os_wire o).

Definition World_ok (w : World) : Prop :=
  (forall p c, heap w !! p = Some c -> length_bounded c) /\ wire_bounded (os w).

Definition queue_bounded (q : TSQueue) : Prop :=
  tsq_maxLength q = QUEUE_MAX_ITEMS /\ TSQ_GetItemsCount q <= QUEUE_MAX_ITEMS.

Definition entry_bounded (c : AsyncIPConnectionData) : Prop :=
  queue_bounded (readQueue c) /\ queue_bounded (writeQueue c).

Definition queues_bounded (s : State) : Prop :=
  forall map id c,
    globalConnectionsList s = Some map -> tsm_items map !! id = Some c -> entry_bounded c.

(** Both workers run exactly while the registry exists. *)
Definition workers_follow_registry (s : State) : Prop :=
  match globalConnectionsList s with
  | Some _ =>
      globalReadThread s = THREAD_RUNNING /\ globalWriteThread s = THREAD_RUNNING
      /\ isNetworkRunning s = true
  | None =>
      globalReadThread s <> THREAD_RUNNING /\ globalWriteThread s <> THREAD_RUNNING
      /\ isNetworkRunning s = false
  end.

Definition State_ok (s : State) : Prop :=
  World_ok (world s) /\ queues_bounded s /\ workers_follow_registry s.

Definition registry_nonempty (s : State) : Prop :=
  forall map, globalConnectionsList s = Some map -> tsm_items map <> ∅.

(** The events of the writer worker. *)
Definition writer_event (e : Event) : bool :=
  match e with
  | EvWriteFromQueue _ _ | EvWriterIteration _ => true
  | _ => false
  end.

(** The writer worker removes no connection along [trace] from [s]: none of
    its steps leaves fewer registered connections than it found. *)
Fixpoint no_eviction (IP_NETWORK_LEGACY : bool) (TSM_FIRST_ID : Z) (trace : list Event)
    (s : State) : Prop :=
  match trace with
  | [] => True
  | e :: rest =>
      match step IP_NETWORK_LEGACY TSM_FIRST_ID e s with
      | Done _ s' =>
          (writer_event e = true ->
           TSM_GetItemsCount (globalConnectionsList s)
           <= TSM_GetItemsCount (globalConnectionsList s'))
          /\ no_eviction IP_NETWORK_LEGACY TSM_FIRST_ID rest s'
      | _ => True
      end
  end.

(** A client the broadcast can send to: a live structure with a socket and
    a send method of its own. *)
Definition sendable (w : World) (client : Z) : Prop :=
  exists c socketFD,
    heap w !! client = Some c
    /\ socket_fd (socket c) w = Done socketFD w
    /\ ref_SendMessage c <> fn_SendMessageAll.

(** The first [clientsNumber] cells of a server's list all hold such
    clients: no cell among them was vacated. *)
Definition clients_sendable (w : World) (s : IPConnectionData) : Prop :=
  0 <= ref_clientsCount s /\
  forall i, (i < Z.to_nat (ref_clientsCount s))%nat ->
    exists client, clientsList s !! i = Some (Some client) /\ sendable w client.

(** What a send leaves as it was. *)
Definition same_structures (w w' : World) : Prop :=
  heap w' = heap w /\ polledSocketsList w' = polledSocketsList w.

Definition registered (s : State) (id : Z) : Prop :=
  TSM_GetItem (globalConnectionsList s) id = true.

(** The classification of [IP_IsServer] on a live structure. *)
Definition is_server (w : World) (connection : option Z) : bool :=
  match connection with
  | None => false
  | Some p =>
      match heap w !! p with
      | Some c =>
          bool_decide (ref_Close c = fn_CloseTCPServer)
          || bool_decide (ref_Close c = fn_CloseUDPServer)
      | None => false
      end
  end.

(** The message [AsyncIP_ReadMessage] is to hand out, in the words of its
    contract: the oldest item of the read queue when the identifier names a
    client connection whose read queue is not empty, and none otherwise. *)
Definition oldest_message (s : State) (clientID : Z) : option Slot :=
  match globalConnectionsList s with
  | None => None
  | Some map =>
      match tsm_items map !! clientID with
      | None => None
      | Some c =>
          if is_server (world s) (baseConnection c) then None
          else head (tsq_items (readQueue c))
      end
  end.

(** No other thread holds the entry, and its connection structure is
    live. *)
Definition entry_usable (s : State) (id : Z) : bool :=
  match globalConnectionsList s with
  | None => true
  | Some map =>
      match tsm_items map !! id with
      | None => true
      | Some c =>
          bool_decide (id ∉ tsm_held map)
          && match baseConnection c with
             | None => true
             | Some p => bool_decide (is_Some (heap (world s) !! p))
             end
      end
  end.

Definition ipv4 (host port : Z) : IPAddressData :=
  {| sa_family := AF_INET; sin_port := port; sin_addr := host; sin6_addr := [] |}.

Definition datagram (source : IPAddressData) (data : list Z) : Packet :=
  {| pkt_source := source; pkt_data := data |}.

(** An operating system in which every name resolves to [resolved], the one
    socket is descriptor 5 with [inbox] pending on it, every configuration
    call succeeds, and sends succeed or fail as [send_ok] says. *)
Definition scenario_OS (resolved : IPAddressData) (inbox : list Packet) (send_ok : bool) : OS :=
  {| os_getaddrinfo := fun _ _ _ _ => Some [resolved];
     os_getnameinfo_host := fun _ => Some "host";
     os_getnameinfo_serv := fun _ => Some "port";
     os_inet_addr := fun _ => sin_addr resolved;
     os_inet_ntoa := fun _ => "host";
     os_socket := fun _ _ _ => 5;
     os_call := fun _ _ => true;
     os_inbox := {[ 5 := inbox ]};
     os_backlog := ∅;
     os_send_ok := fun _ => send_ok;
     os_wire := [] |}.

(** The state a sequence of events leads to. *)
Definition state_after (IP_NETWORK_LEGACY : bool) (TSM_FIRST_ID : Z) (o : OS)
    (trace : list Event) : State :=
  match run IP_NETWORK_LEGACY TSM_FIRST_ID trace (initial_State o) with
  | Done _ s => s
  | _ => initial_State o
  end.

Definition registry_of (s : State) : TSMap AsyncIPConnectionData :=
  default (TSM_Create 0) (globalConnectionsList s).

Definition entry_of (s : State) (id : Z) : AsyncIPConnectionData :=
  default {| baseConnection := None; readQueue := TSQ_Create 0 0; writeQueue := TSQ_Create 0 0 |}
    (tsm_items (registry_of s) !! id).

Definition structure_of (w : World) (connection : Z) : IPConnectionData :=
  default {| socket := OwnPoller 0; ref_ReceiveMessage := fn_ReceiveTCPMessage;
             ref_SendMessage := fn_SendTCPMessage; ref_Close := fn_CloseTCPClient;
             addressData := ipv4 0 0; messageLength := 0; buffer := None;
             clientsList := []; ref_clientsCount := 0; server := None |}
    (heap w !! connection).

(** The peers of the scenarios. *)
Definition peer_A : IPAddressData := ipv4 0x0A000001 50000.
Definition peer_B : IPAddressData := ipv4 0x0A000002 50000.
Definition multicast_group : IPAddressData := ipv4 0xE0000001 50000.
Definition any_address : IPAddressData := ipv4 0 50000.

Definition client_OS : OS := scenario_OS peer_A [] true.
Definition broken_OS : OS := scenario_OS peer_A [] false.
Definition foreign_OS : OS := scenario_OS peer_A [datagram peer_B [104; 105]] true.
Definition server_OS : OS :=
  scenario_OS any_address [datagram peer_A [97]; datagram peer_B [98]] true.
Definition multicast_OS : OS := scenario_OS multicast_group [] false.

(** The workers run exactly while a connection is registered. *)
Definition workers_match_connections (s : State) : Prop :=
  if 0 <? TSM_GetItemsCount (globalConnectionsList s)
  then globalReadThread s = THREAD_RUNNING /\ globalWriteThread s = THREAD_RUNNING
       /\ isNetworkRunning s = true
  else globalReadThread s <> THREAD_RUNNING /\ globalWriteThread s <> THREAD_RUNNING
       /\ isNetworkRunning s = false.

(** Eleven datagrams wait for a UDP client that is handed twelve messages to
    write and whose reader runs eleven times. *)
Definition busy_OS : OS := scenario_OS peer_A (replicate 11 (datagram peer_A [97])) true.

Definition busy_trace : list Event :=
  EvOpenConnection 0x22 (Some "10.0.0.1") 50000
  :: replicate 12 (EvWriteMessage 0 [120]) ++ replicate 11 EvReaderIteration.

Definition successful_send_trace : list Event :=
  [EvOpenConnection 0x12 (Some "10.0.0.1") 50000; EvWriteMessage 0 [120];
   EvWriteFromQueue 0 0].

Definition short_length_trace : list Event :=
  [EvOpenConnection 0x12 (Some "10.0.0.1") 50000; EvSetMessageLength 0 4;
   EvWriteMessage 0 [104; 101; 108; 108; 111]].

Definition open_client_trace : list Event :=
  [EvOpenConnection 0x12 (Some "10.0.0.1") 50000].

Definition received_trace : list Event :=
  [EvOpenConnection 0x22 (Some "10.0.0.1") 50000; EvReaderIteration].

(** A UDP client whose reader has queued the datagram [111; 107] of its
    peer. *)
Definition received_state : State :=
  state_after false 0 (scenario_OS peer_A [datagram peer_A [111; 107]] true) received_trace.

(** A UDP server whose one pseudo-client cannot be sent to: every send
    fails. *)
Definition deaf_client_OS : OS := scenario_OS any_address [datagram peer_A [97]] false.

Definition served_trace : list Event :=
  [EvOpenConnection 0x21 (Some "0.0.0.0") 50000; EvReaderIteration; EvWriteMessage 0 [120]].

Definition served_state : State := state_after false 0 deaf_client_OS served_trace.

Definition peer_C : IPAddressData := ipv4 0x0A000002 50001.
Definition peer_D : IPAddressData := ipv4 0x0A000003 50002.

(** Three hosts send a datagram each to a UDP server. *)
Definition three_peers_OS : OS :=
  scenario_OS any_address
    [datagram peer_A [97]; datagram peer_C [98]; datagram peer_D [99]] true.

(** A UDP server accepts two pseudo-clients, reads the datagram of each, and
    the first one is closed: the first cell of the client list is vacated. *)
Definition vacate_first_client : M World (Z * Z * Z) :=
  do server <- IP_OpenConnection false 0x21 (Some "0.0.0.0") 50000;
  do server <- must server;
  do first <- IP_AcceptClient false server;
  do first <- must first;
  exec IP_ReceiveMessage false first;
  do second <- IP_AcceptClient false server;
  do second <- must second;
  exec IP_ReceiveMessage false second;
  exec IP_CloseConnection false (Some first);
  ret (server, first, second).

Definition world_after {A} (c : M World A) (o : OS) : World :=
  match c (initial_World o) with
  | Done _ w => w
  | _ => initial_World o
  end.

Definition two_sockets_OS : OS :=
  {| os_getaddrinfo := fun _ _ _ _ => Some [peer_A];
     os_getnameinfo_host := fun _ => Some "host";
     os_getnameinfo_serv := fun _ => Some "port";
     os_inet_addr := fun _ => sin_addr peer_A;
     os_inet_ntoa := fun _ => "host";
     os_socket := fun _ type _ => if type =? SOCK_STREAM then 3 else 4;
     os_call := fun _ _ => true;
     os_inbox := {[ 3 := []; 4 := [datagram peer_A [97]] ]};
     os_backlog := ∅;
     os_send_ok := fun _ => true;
     os_wire := [] |}.

(** A TCP client is opened on descriptor 3, a UDP client on descriptor 4,
    and the TCP client is closed. *)
Definition close_the_earlier : M World (Z * Z * Z) :=
  do earlier <- IP_OpenConnection false 0x12 (Some "10.0.0.1") 50000;
  do earlier <- must earlier;
  do later <- IP_OpenConnection false 0x22 (Some "10.0.0.1") 50000;
  do later <- must later;
  do c <- deref later;
  do socketFD <- socket_fd (socket c);
  exec IP_CloseConnection false (Some earlier);
  ret (earlier, later, socketFD).

(** ** The poll list, the client list and further scenarios *)

(** The order [CompareSockets] sorts by. *)
Definition poller_lt (p q : SocketPoller) : Prop := fd p < fd q.

(** A descriptor below the sentinel [RemoveSocket] marks a slot with. *)
Definition below_sentinel (socketFD : Z) : Prop := 0 <= socketFD < 0xFFFF.

(** The descriptors the poll build watches: those of the first
    [polledSocketsNumber] slots of [polledSocketsList]. *)
Definition polled_sockets (w : World) : list SocketPoller :=
  take (Z.to_nat (polledSocketsNumber w)) (polledSocketsList w).

Definition polled_fds (w : World) : list Z := fd <$> polled_sockets w.

(** The poll list as the code keeps it: an array of [POLL_LIST_SIZE] slots
    whose first [polledSocketsNumber] are sorted by descriptor, without
    repetition, every descriptor below the sentinel. *)
Definition poll_list_ok (w : World) : Prop :=
  length (polledSocketsList w) = POLL_LIST_SIZE
  /\ 0 <= polledSocketsNumber w <= Z.of_nat POLL_LIST_SIZE
  /\ StronglySorted poller_lt (polled_sockets w)
  /\ Forall (fun p => below_sentinel (fd p)) (polled_sockets w).

(** What poll writes into a slot. *)
Definition polled_slot (o : OS) (p : SocketPoller) : SocketPoller :=
  {| fd := fd p; events := events p;
     revents := if (0 <=? fd p) && os_readable o (fd p) then POLLRDNORM else 0 |}.

(** The cell [AddClient] writes: the first vacated one among the first
    [clientsNumber] cells, the cell behind them when there is none. *)
Fixpoint first_vacated (clientsList : list (option Z)) (clientsNumber : nat)
    {struct clientsNumber} : nat :=
  match clientsNumber, clientsList with
  | S n, Some _ :: rest => S (first_vacated rest n)
  | _, _ => 0
  end.

(** An identifier the registry does not know: no entry and no hold. *)
Definition unknown_id (s : State) (id : Z) : Prop :=
  match globalConnectionsList s with
  | None => True
  | Some map => tsm_items map !! id = None /\ (id ∉ tsm_held map)
  end.

(** What a failed opening leaves untouched: everything but the pending
    input of a descriptor it closed. *)
Definition nothing_allocated (w w' : World) : Prop :=
  heap w' = heap w
  /\ next_address w' = next_address w
  /\ polledSocketsList w' = polledSocketsList w
  /\ polledSocketsNumber w' = polledSocketsNumber w
  /\ polledSocketsSet w' = polledSocketsSet w
  /\ os_wire (os w') = os_wire (os w).

(** What a send of [message] on the client [c] with descriptor [socketFD]
    puts on the wire: [messageLength] bytes, to the connection's address for
    a datagram socket. *)
Definition sent_record (c : IPConnectionData) (socketFD : Z) (message : list Z) : WireSend :=
  {| ws_fd := socketFD;
     ws_dest := match ref_SendMessage c with
                | fn_SendUDPMessage => Some (addressData c)
                | _ => None
                end;
     ws_length := messageLength c;
     ws_bytes := take (Z.to_nat (messageLength c)) message |}.

(** What IP_SendMessage on the client in [cell] transmits from the world
    [w]: one record, or nothing when the message is too long for the client
    or the send fails. *)
Definition transmitted (w : World) (message : list Z) (cell : option Z) : list WireSend :=
  match cell with
  | None => []
  | Some client =>
      match heap w !! client with
      | None => []
      | Some c =>
          if strlen message + 1 >? messageLength c then []
          else match socket_fd (socket c) w with
               | Done socketFD _ =>
                   if os_send_ok (os w) socketFD then [sent_record c socketFD message] else []
               | _ => []
               end
      end
  end.

(** What a send leaves as it was: everything but the wire. *)
Definition only_wire_grows (w w' : World) (sent : list WireSend) : Prop :=
  heap w' = heap w
  /\ polledSocketsList w' = polledSocketsList w
  /\ os_send_ok (os w') = os_send_ok (os w)
  /\ os_inbox (os w') = os_inbox (os w)
  /\ os_wire (os w') = os_wire (os w) ++ sent.

(** The datagram [p] is the oldest one pending on the socket of the UDP
    client [connection], with [rest] behind it, and its source does not
    compare equal to the address of the connection. *)
Definition held_up_by (IP_NETWORK_LEGACY : bool) (w : World) (connection : Z)
    (p : Packet) (rest : list Packet) : Prop :=
  exists c buf socketFD,
    heap w !! connection = Some c
    /\ ref_ReceiveMessage c = fn_ReceiveUDPMessage
    /\ buffer c = Some buf
    /\ socket_fd (socket c) w = Done socketFD w
    /\ os_inbox (os w) !! socketFD = Some (p :: rest)
    /\ ARE_EQUAL_IP_ADDRESSES IP_NETWORK_LEGACY (addressData c) (pkt_source p) = false.

(** The world a computation leaves behind another one. *)
Definition world_then {A} (c : M World A) (w : World) : World :=
  match c w with
  | Done _ w' => w'
  | _ => w
  end.

(** A TCP client is opened on descriptor 3 and a UDP client on
    descriptor 4. *)
Definition open_two_clients (IP_NETWORK_LEGACY : bool) : M World (Z * Z) :=
  do earlier <- IP_OpenConnection IP_NETWORK_LEGACY 0x12 (Some "10.0.0.1") 50000;
  do earlier <- must earlier;
  do later <- IP_OpenConnection IP_NETWORK_LEGACY 0x22 (Some "10.0.0.1") 50000;
  do later <- must later;
  ret (earlier, later).

(** The UDP client alone, on descriptor 4. *)
Definition open_later_client : M World Z :=
  do later <- IP_OpenConnection false 0x22 (Some "10.0.0.1") 50000;
  must later.

Definition two_clients_world : World := world_after (open_two_clients false) two_sockets_OS.

Definition two_legacy_clients_world : World :=
  world_after (open_two_clients true) two_sockets_OS.

Definition later_client_world : World := world_after open_later_client two_sockets_OS.

(** The slot of a watched descriptor. *)
Definition watched (socketFD : Z) : SocketPoller :=
  {| fd := socketFD; events := Z.lor POLLRDNORM POLLRDBAND; revents := 0 |}.

(** The state a computation leaves behind another one. *)
Definition state_then {A} (c : M State A) (s : State) : State :=
  match c s with
  | Done _ s' => s'
  | _ => s
  end.

Definition vacated_world : World := world_after vacate_first_client three_peers_OS.

(** A UDP server accepts two pseudo-clients and reads the datagram of
    each. *)
Definition serve_two_clients : M World (Z * Z * Z) :=
  do server <- IP_OpenConnection false 0x21 (Some "0.0.0.0") 50000;
  do server <- must server;
  do first <- IP_AcceptClient false server;
  do first <- must first;
  exec IP_ReceiveMessage false first;
  do second <- IP_AcceptClient false server;
  do second <- must second;
  exec IP_ReceiveMessage false second;
  ret (server, first, second).

Definition two_served_world : World := world_after serve_two_clients three_peers_OS.

(** A connection from [peer_A] waits on the listening descriptor 5; accept
    will return descriptor 6 for it. *)
Definition listening_OS : OS :=
  set_os_backlog {[ 5 := [(6, peer_A)] ]} (scenario_OS any_address [] true).

Definition accept_TCP_client : M World (Z * Z) :=
  do server <- IP_OpenConnection false 0x11 (Some "0.0.0.0") 50000;
  do server <- must server;
  do client <- IP_AcceptClient false server;
  do client <- must client;
  ret (server, client).

Definition TCP_served_world : World := world_after accept_TCP_client listening_OS.

(** A datagram of [peer_C] has reached the socket of a UDP client of
    [peer_A] ahead of one of its peer. *)
Definition stray_OS : OS :=
  scenario_OS peer_A [datagram peer_C [98]; datagram peer_A [97]] true.

Definition stray_world : World :=
  world_after (IP_OpenConnection false 0x22 (Some "10.0.0.1") 50000) stray_OS.

(** The peer of the TCP client on descriptor 3 has shut the stream down; a
    datagram waits on descriptor 4. *)
Definition hangup_OS : OS :=
  set_os_inbox {[ 3 := [datagram peer_A []]; 4 := [datagram peer_A [97]] ]} two_sockets_OS.

Definition hangup_world : World := world_after (open_two_clients false) hangup_OS.

(** One TCP client, registered under identifier 0. *)
Definition one_client_state : State := state_after false 0 client_OS open_client_trace.

(** A UDP server, registered under identifier 0, after the wait of the
    reader that found the datagram of [peer_A]. *)
Definition awaiting_server_state : State :=
  state_then (in_world (IP_WaitEvent false 5000))
    (state_after false 0 server_OS [EvOpenConnection 0x21 (Some "0.0.0.0") 50000]).

(** A UDP client, registered under identifier 0, after the wait of the
    reader that found the datagram [111; 107] of its peer. *)
Definition awaiting_client_state : State :=
  state_then (in_world (IP_WaitEvent false 5000))
    (state_after false 0 (scenario_OS peer_A [datagram peer_A [111; 107]] true)
       [EvOpenConnection 0x22 (Some "10.0.0.1") 50000]).

(** The peer does not answer: connect fails on every descriptor. *)
Definition unreachable_OS : OS :=
  {| os_getaddrinfo := fun _ _ _ _ => Some [peer_A];
     os_getnameinfo_host := fun _ => Some "host";
     os_getnameinfo_serv := fun _ => Some "port";
     os_inet_addr := fun _ => sin_addr peer_A;
     os_inet_ntoa := fun _ => "host";
     os_socket := fun _ _ _ => 5;
     os_call := fun call _ => match call with SYS_connect => false | _ => true end;
     os_inbox := ∅;
     os_backlog := ∅;
     os_send_ok := fun _ => true;
     os_wire := [] |}.

(** * Proofs *)

(** * Reasoning about monadic code *)

Lemma preserves_elim {S A} (I : S -> Prop) (c : M S A) s a s' :
  preserves I c -> I s -> c s = Done a s' -> I s'.
Proof. intros H HI Hc. specialize (H s HI). now rewrite Hc in H. Qed.

Lemma preserves_intro {S A} (I : S -> Prop) (c : M S A) :
  (forall s a s', I s -> c s = Done a s' -> I s') -> preserves I c.
Proof. intros H s HI. destruct (c s) eqn:E; eauto. Qed.

Lemma hoare_bind {S A B} (P : S -> Prop) (Q : A -> S -> Prop) (R : B -> S -> Prop)
    (c : M S A) (k : A -> M S B) :
  hoare P c Q -> (forall a, hoare (Q a) (k a) R) -> hoare P (bind c k) R.
Proof.
  intros Hc Hk s HP. unfold bind. specialize (Hc s HP).
  destruct (c s) as [a s'| |]; [apply (Hk a s' Hc)|exact I|exact I].
Qed.

Lemma hoare_weaken {S A} (P P' : S -> Prop) (Q Q' : A -> S -> Prop) (c : M S A) :
  hoare P' c Q' -> (forall s, P s -> P' s) -> (forall a s, Q' a s -> Q a s) -> hoare P c Q.
Proof.
  intros H HP HQ s Hs. specialize (H s (HP s Hs)). destruct (c s); auto.
Qed.

Lemma preserves_bind {S A B} (I : S -> Prop) (c : M S A) (k : A -> M S B) :
  preserves I c -> (forall a, preserves I (k a)) -> preserves I (bind c k).
Proof. intros Hc Hk. eapply hoare_bind; [exact Hc|exact Hk]. Qed.

Lemma preserves_ret {S A} (I : S -> Prop) (a : A) : preserves I (ret a).
Proof. intros s HI. exact HI. Qed.

Lemma preserves_get {S} (I : S -> Prop) : preserves I get.
Proof. intros s HI. exact HI. Qed.

Lemma preserves_gets {S A} (I : S -> Prop) (f : S -> A) : preserves I (gets f).
Proof. intros s HI. exact HI. Qed.

Lemma preserves_crash {S A} (I : S -> Prop) : preserves I (@crash S A).
Proof. intros s HI. exact Logic.I. Qed.

Lemma preserves_hang {S A} (I : S -> Prop) : preserves I (@hang S A).
Proof. intros s HI. exact Logic.I. Qed.

Lemma preserves_must {S A} (I : S -> Prop) (o : option A) : preserves I (must o).
Proof. destruct o; [apply preserves_ret|apply preserves_crash]. Qed.

Lemma preserves_blocking {S A} (I : S -> Prop) (o : option A) : preserves I (blocking o).
Proof. destruct o; [apply preserves_ret|apply preserves_hang]. Qed.

Lemma preserves_modify {S} (I : S -> Prop) (f : S -> S) :
  (forall s, I s -> I (f s)) -> preserves I (modify f).
Proof. intros H s HI. apply H, HI. Qed.

(** The value found by [must] or [blocking] is known in the rest. *)
Lemma preserves_bind_must {S A B} (I : S -> Prop) (o : option A) (k : A -> M S B) :
  (forall a, o = Some a -> preserves I (k a)) -> preserves I (bind (must o) k).
Proof.
  intros H. destruct o as [a|]; intros s HI; unfold bind; simpl; [|exact Logic.I].
  apply (H a eq_refl s HI).
Qed.

Lemma preserves_bind_blocking {S A B} (I : S -> Prop) (o : option A) (k : A -> M S B) :
  (forall a, o = Some a -> preserves I (k a)) -> preserves I (bind (blocking o) k).
Proof.
  intros H. destruct o as [a|]; intros s HI; unfold bind; simpl; [|exact Logic.I].
  apply (H a eq_refl s HI).
Qed.

(** The state read by [get] satisfies the invariant. *)
Lemma preserves_bind_get {S B} (I : S -> Prop) (k : S -> M S B) :
  (forall s0, I s0 -> preserves I (k s0)) -> preserves I (bind get k).
Proof. intros H s HI. unfold bind, get. apply (H s HI s HI). Qed.

Lemma preserves_for_each {S A} (I : S -> Prop) (l : list A) (body : A -> M S unit) :
  (forall a, preserves I (body a)) -> preserves I (for_each l body).
Proof.
  intros H. induction l as [|a l IH]; simpl.
  - apply preserves_ret.
  - apply preserves_bind; [apply H|intros _; exact IH].
Qed.

Lemma preserves_in_world {A} (I : State -> Prop) (J : World -> Prop) (c : M World A) :
  preserves J c ->
  (forall s, I s -> J (world s)) ->
  (forall s w, I s -> J w -> I (set_world w s)) ->
  preserves I (in_world c).
Proof.
  intros Hc HJ Hset s HI. unfold in_world.
  specialize (Hc (world s) (HJ s HI)).
  destruct (c (world s)); auto.
Qed.

(** * The message length bound and the wire *)

Lemma World_ok_ext (w w' : World) :
  heap w' = heap w -> os_wire (os w') = os_wire (os w) -> World_ok w -> World_ok w'.
Proof.
  intros Hh Ho [H1 H2]. split.
  - intros p c. rewrite Hh. apply H1.
  - unfold wire_bounded. rewrite Ho. exact H2.
Qed.

Create HintDb pres.

Ltac pres_modify :=
  match goal with |- preserves _ (modify _) => apply preserves_modify end;
  intros ? ?; repeat case_match;
  try assumption;
  (eapply World_ok_ext; [| |eassumption]; reflexivity).

Ltac pres_branch :=
  match goal with
  | |- preserves _ (match ?x with _ => _ end) => destruct x eqn:?
  | |- preserves _ (if ?x then _ else _) => destruct x eqn:?
  end.

Lemma preserves_malloc c : length_bounded c -> preserves World_ok (malloc c).
Proof.
  intros Hc. apply preserves_intro. intros w a w' [H1 H2] E.
  unfold malloc, bind, get, modify, ret in E. simpl in E. inversion E; subst; clear E.
  split; [|exact H2]. intros p c'. simpl.
  destruct (decide (next_address w = p)) as [->|Hne].
  - rewrite lookup_insert_eq. intros [= <-]. exact Hc.
  - rewrite lookup_insert_ne by exact Hne. apply H1.
Qed.

Lemma preserves_deref p : preserves World_ok (deref p).
Proof. unfold deref. apply preserves_bind; [apply preserves_get|intros; apply preserves_must]. Qed.

Lemma preserves_bind_deref {B} p (k : IPConnectionData -> M World B) :
  (forall c, length_bounded c -> preserves World_ok (k c)) ->
  preserves World_ok (bind (deref p) k).
Proof.
  intros H w Hw. unfold deref, bind, get, must, ret, crash.
  destruct (heap w !! p) as [c|] eqn:E; [|exact I].
  apply (H c (proj1 Hw p c E) w Hw).
Qed.

Lemma preserves_update p f :
  (forall c, length_bounded c -> length_bounded (f c)) -> preserves World_ok (update p f).
Proof.
  intros Hf. unfold update. apply preserves_bind_deref. intros c Hc.
  apply preserves_modify. intros w [H1 H2]. split; [|exact H2].
  intros q c'. simpl. destruct (decide (p = q)) as [->|Hne].
  - rewrite lookup_insert_eq. intros [= <-]. auto.
  - rewrite lookup_insert_ne by exact Hne. apply H1.
Qed.

Lemma preserves_free p : preserves World_ok (free p).
Proof.
  unfold free. apply preserves_bind; [apply preserves_deref|intros _].
  apply preserves_modify. intros w [H1 H2]. split; [|exact H2].
  intros q c'. simpl. intros E. apply lookup_delete_Some in E as [_ E]. eauto.
Qed.

Lemma preserves_sys {A} (f : OS -> A * OS) :
  (forall o, wire_bounded o -> wire_bounded (f o).2) -> preserves World_ok (sys f).
Proof.
  intros Hf. apply preserves_intro. intros w a w' [H1 H2] E.
  unfold sys, bind, get, modify, ret in E. simpl in E.
  specialize (Hf (os w) H2).
  destruct (f (os w)) as [a' o'] eqn:Ef. simpl in *. inversion E; subst; clear E.
  split; [exact H1|exact Hf].
Qed.

Lemma preserves_close socketFD : preserves World_ok (close socketFD).
Proof. unfold close. pres_modify. Qed.

Lemma preserves_call_ok c socketFD : preserves World_ok (call_ok c socketFD).
Proof. apply preserves_gets. Qed.

Lemma preserves_socket_fd s : preserves World_ok (socket_fd s).
Proof.
  destruct s; simpl; [|apply preserves_ret].
  apply preserves_bind; [apply preserves_get|intros; apply preserves_must].
Qed.

Lemma wire_recv_dgram socketFD len peek o :
  wire_bounded o -> wire_bounded (os_recv_dgram socketFD len peek o).2.
Proof.
  unfold os_recv_dgram. intros H. repeat case_match; simpl; exact H.
Qed.

Lemma wire_recv_stream socketFD len o :
  wire_bounded o -> wire_bounded (os_recv_stream socketFD len o).2.
Proof.
  unfold os_recv_stream. intros H. repeat case_match; simpl; exact H.
Qed.

Lemma wire_accept socketFD o : wire_bounded o -> wire_bounded (os_accept socketFD o).2.
Proof.
  unfold os_accept. intros H. repeat case_match; simpl; exact H.
Qed.

Lemma wire_send socketFD dest message len o :
  len <= IP_MAX_MESSAGE_LENGTH -> wire_bounded o ->
  wire_bounded (os_send socketFD dest message len o).2.
Proof.
  unfold os_send, wire_bounded. intros Hl H. case_match; simpl; [|exact H].
  apply Forall_app. split; [exact H|]. constructor; [exact Hl|constructor].
Qed.

#[export] Hint Resolve preserves_ret preserves_crash preserves_hang preserves_get
  preserves_gets preserves_must preserves_blocking preserves_deref preserves_free
  preserves_close preserves_call_ok preserves_socket_fd : pres.

Ltac pres :=
  repeat first
    [ match goal with |- forall _, _ => intro end
    | solve [auto with pres]
    | match goal with
      | |- preserves _ (bind (deref _) _) => apply preserves_bind_deref
      | |- preserves _ (bind _ _) => apply preserves_bind
      end
    | pres_branch ].

Section WorldInvariant.
Variable IP_NETWORK_LEGACY : bool.

Lemma preserves_IP_GetAddress connection :
  preserves World_ok (IP_GetAddress IP_NETWORK_LEGACY connection).
Proof. unfold IP_GetAddress. pres. Qed.

Lemma preserves_IP_IsServer connection : preserves World_ok (IP_IsServer connection).
Proof. unfold IP_IsServer. pres. Qed.
Hint Resolve preserves_IP_IsServer preserves_IP_GetAddress : pres.

Lemma preserves_IP_GetClientsNumber connection :
  preserves World_ok (IP_GetClientsNumber connection).
Proof. unfold IP_GetClientsNumber. pres. Qed.

Lemma preserves_AddConnection socketFD address transportProtocol networkRole :
  preserves World_ok
    (AddConnection IP_NETWORK_LEGACY socketFD address transportProtocol networkRole).
Proof.
  unfold AddConnection. pres; try pres_modify.
  all: apply preserves_malloc; case_match;
    unfold length_bounded, IP_MAX_MESSAGE_LENGTH; simpl; lia.
Qed.
Hint Resolve preserves_AddConnection : pres.

Lemma preserves_AddClient server client : preserves World_ok (AddClient server client).
Proof.
  unfold AddClient. pres.
  all: apply preserves_update; intros c' Hc'; exact Hc'.
Qed.
Hint Resolve preserves_AddClient : pres.

Lemma preserves_configure c socketFD k :
  preserves World_ok k -> preserves World_ok (configure c socketFD k).
Proof. intros Hk. unfold configure. pres. Qed.
Hint Resolve preserves_configure : pres.

Lemma preserves_SetSocketConfig socketFD : preserves World_ok (SetSocketConfig socketFD).
Proof. unfold SetSocketConfig. auto with pres. Qed.

Lemma preserves_BindServerSocket socketFD address :
  preserves World_ok (BindServerSocket socketFD address).
Proof. unfold BindServerSocket. pres. Qed.
Hint Resolve preserves_SetSocketConfig preserves_BindServerSocket : pres.

Lemma preserves_BindTCPServerSocket socketFD address :
  preserves World_ok (BindTCPServerSocket socketFD address).
Proof. unfold BindTCPServerSocket. pres. Qed.

Lemma preserves_BindUDPServerSocket socketFD address :
  preserves World_ok (BindUDPServerSocket IP_NETWORK_LEGACY socketFD address).
Proof. unfold BindUDPServerSocket. pres. Qed.

Lemma preserves_ConnectTCPClientSocket socketFD address :
  preserves World_ok (ConnectTCPClientSocket socketFD address).
Proof. unfold ConnectTCPClientSocket. pres. Qed.

Lemma preserves_ConnectUDPClientSocket socketFD address :
  preserves World_ok (ConnectUDPClientSocket IP_NETWORK_LEGACY socketFD address).
Proof. unfold ConnectUDPClientSocket. apply preserves_configure. pres. Qed.
Hint Resolve preserves_BindTCPServerSocket preserves_BindUDPServerSocket
  preserves_ConnectTCPClientSocket preserves_ConnectUDPClientSocket : pres.

Lemma preserves_IP_OpenConnection connectionType host port :
  preserves World_ok (IP_OpenConnection IP_NETWORK_LEGACY connectionType host port).
Proof. unfold IP_OpenConnection. pres. Qed.

Lemma preserves_IP_SetMessageLength connection messageLength_ :
  0 <= messageLength_ ->
  preserves World_ok (IP_SetMessageLength connection messageLength_).
Proof.
  intros Hl. unfold IP_SetMessageLength. pres.
  apply preserves_update. intros c _. unfold length_bounded, IP_MAX_MESSAGE_LENGTH. simpl.
  case_match; [lia|]. rewrite Z.mod_small; lia.
Qed.

Lemma preserves_RemoveSocket socketFD :
  preserves World_ok (RemoveSocket IP_NETWORK_LEGACY socketFD).
Proof. unfold RemoveSocket. pres; pres_modify. Qed.
Hint Resolve preserves_RemoveSocket : pres.

Lemma preserves_set_buffer p v : preserves World_ok (update p (set_buffer v)).
Proof. apply preserves_update. intros c Hc. exact Hc. Qed.
Hint Resolve preserves_set_buffer : pres.

Lemma preserves_ReceiveTCPMessage connection :
  preserves World_ok (ReceiveTCPMessage IP_NETWORK_LEGACY connection).
Proof.
  unfold ReceiveTCPMessage. pres.
  apply preserves_sys. intros o. apply wire_recv_stream.
Qed.

Lemma preserves_ReceiveUDPMessage connection :
  preserves World_ok (ReceiveUDPMessage IP_NETWORK_LEGACY connection).
Proof.
  unfold ReceiveUDPMessage. pres.
  all: apply preserves_sys; intros o; apply wire_recv_dgram.
Qed.

Lemma preserves_SendTCPMessage connection message :
  preserves World_ok (SendTCPMessage connection message).
Proof.
  unfold SendTCPMessage. pres.
  apply preserves_sys. intros o. apply wire_send.
  match goal with H : length_bounded _ |- _ => apply H end.
Qed.

Lemma preserves_SendUDPMessage connection message :
  preserves World_ok (SendUDPMessage connection message).
Proof.
  unfold SendUDPMessage. pres.
  apply preserves_sys. intros o. apply wire_send.
  match goal with H : length_bounded _ |- _ => apply H end.
Qed.
Hint Resolve preserves_ReceiveTCPMessage preserves_ReceiveUDPMessage
  preserves_SendTCPMessage preserves_SendUDPMessage : pres.

Lemma preserves_SendMessageAll_loop send fuel connection message clientsNumber :
  (forall client, preserves World_ok (send client message)) ->
  forall clientIndex,
    preserves World_ok
      (SendMessageAll_loop send fuel connection message clientsNumber clientIndex).
Proof.
  intros Hsend. induction fuel as [|fuel IH]; intros clientIndex; simpl; pres.
Qed.

Lemma preserves_IP_SendMessage fuel :
  forall connection message,
    preserves World_ok (IP_SendMessage fuel connection message).
Proof.
  induction fuel as [|fuel IH]; intros connection message; simpl; pres.
  apply preserves_SendMessageAll_loop. intros client. apply IH.
Qed.
Hint Resolve preserves_IP_SendMessage : pres.

Lemma preserves_AcceptTCPClient server :
  preserves World_ok (AcceptTCPClient IP_NETWORK_LEGACY server).
Proof.
  unfold AcceptTCPClient. pres.
  apply preserves_sys. intros o. apply wire_accept.
Qed.

Lemma preserves_AcceptUDPClient_known n server clientAddress :
  forall clientIndex,
    preserves World_ok
      (AcceptUDPClient_known IP_NETWORK_LEGACY n server clientAddress clientIndex).
Proof. induction n as [|n IH]; intros clientIndex; simpl; pres. Qed.
Hint Resolve preserves_AcceptUDPClient_known : pres.

Lemma preserves_AcceptUDPClient server :
  preserves World_ok (AcceptUDPClient IP_NETWORK_LEGACY server).
Proof.
  unfold AcceptUDPClient. pres.
  apply preserves_sys. intros o. apply wire_recv_dgram.
Qed.
Hint Resolve preserves_AcceptTCPClient preserves_AcceptUDPClient : pres.

Lemma preserves_IP_ReceiveMessage connection :
  preserves World_ok (IP_ReceiveMessage IP_NETWORK_LEGACY connection).
Proof. unfold IP_ReceiveMessage. pres. Qed.

Lemma preserves_IP_AcceptClient connection :
  preserves World_ok (IP_AcceptClient IP_NETWORK_LEGACY connection).
Proof. unfold IP_AcceptClient. pres. Qed.

Lemma preserves_IP_WaitEvent milliseconds :
  preserves World_ok (IP_WaitEvent IP_NETWORK_LEGACY milliseconds).
Proof. unfold IP_WaitEvent. pres; pres_modify. Qed.

Lemma preserves_IP_IsDataAvailable connection :
  preserves World_ok (IP_IsDataAvailable IP_NETWORK_LEGACY connection).
Proof. unfold IP_IsDataAvailable. pres. Qed.

Lemma preserves_CloseTCPServer server :
  preserves World_ok (CloseTCPServer IP_NETWORK_LEGACY server).
Proof. unfold CloseTCPServer. pres. Qed.

Lemma preserves_CloseUDPServer server :
  preserves World_ok (CloseUDPServer IP_NETWORK_LEGACY server).
Proof. unfold CloseUDPServer. pres. Qed.
Hint Resolve preserves_CloseTCPServer preserves_CloseUDPServer : pres.

Lemma preserves_RemoveClient_loop n server client :
  forall clientIndex, preserves World_ok (RemoveClient_loop n server client clientIndex).
Proof.
  induction n as [|n IH]; intros clientIndex; simpl; pres.
  apply preserves_update. intros c' Hc'. exact Hc'.
Qed.
Hint Resolve preserves_RemoveClient_loop : pres.

Lemma preserves_RemoveClient server client :
  preserves World_ok (RemoveClient server client).
Proof. unfold RemoveClient. pres. Qed.
Hint Resolve preserves_RemoveClient : pres.

Lemma preserves_CloseTCPClient client :
  preserves World_ok (CloseTCPClient IP_NETWORK_LEGACY client).
Proof. unfold CloseTCPClient. pres. Qed.

Lemma preserves_CloseUDPClient client :
  preserves World_ok (CloseUDPClient IP_NETWORK_LEGACY client).
Proof. unfold CloseUDPClient. pres. Qed.
Hint Resolve preserves_CloseTCPClient preserves_CloseUDPClient : pres.

Lemma preserves_IP_CloseConnection connection :
  preserves World_ok (IP_CloseConnection IP_NETWORK_LEGACY connection).
Proof. unfold IP_CloseConnection. pres. Qed.
End WorldInvariant.

(** Executing a computation that is known to return. *)
Lemma bind_Done {S A B} (c : M S A) (k : A -> M S B) s b s'' :
  bind c k s = Done b s'' -> exists a s', c s = Done a s' /\ k a s' = Done b s''.
Proof. unfold bind. destruct (c s) as [a s'| |]; [eauto|discriminate|discriminate]. Qed.

Lemma in_world_Done {A} (c : M World A) s a s' :
  in_world c s = Done a s' -> exists w, c (world s) = Done a w /\ s' = set_world w s.
Proof.
  unfold in_world. destruct (c (world s)) as [a' w| |]; [|discriminate|discriminate].
  intros [= <- <-]. eauto.
Qed.

Ltac minv H :=
  lazymatch type of H with
  | bind _ _ _ = Done _ _ =>
      let a := fresh "a" in
      let s := fresh "s" in
      let H1 := fresh "E" in
      let H2 := fresh "E" in
      apply bind_Done in H as (a & s & H1 & H2); minv H1; minv H2
  | ret _ _ = Done _ _ => unfold ret in H; inversion H; subst; clear H
  | get _ = Done _ _ => unfold get in H; inversion H; subst; clear H
  | gets _ _ = Done _ _ => unfold gets in H; inversion H; subst; clear H
  | modify _ _ = Done _ _ => unfold modify in H; inversion H; subst; clear H
  | crash _ = Done _ _ => discriminate H
  | hang _ = Done _ _ => discriminate H
  | must ?o _ = Done _ _ =>
      let E := fresh "E" in
      destruct o eqn:E; simpl in H; [unfold ret in H; inversion H; subst; clear H|discriminate H]
  | blocking ?o _ = Done _ _ =>
      let E := fresh "E" in
      destruct o eqn:E; simpl in H; [unfold ret in H; inversion H; subst; clear H|discriminate H]
  | in_world _ _ = Done _ _ =>
      let w := fresh "w" in
      let H1 := fresh "E" in
      apply in_world_Done in H as (w & H1 & ->)
  | (match ?x with _ => _ end) _ = Done _ _ =>
      let E := fresh "E" in destruct x eqn:E; minv H
  | (if ?x then _ else _) _ = Done _ _ =>
      let E := fresh "E" in destruct x eqn:E; minv H
  | (let '(_, _) := ?x in _) _ = Done _ _ =>
      let E := fresh "E" in destruct x eqn:E; minv H
  | _ => idtac
  end.

(** * The invariant of the facade *)

Lemma queue_bounded_Create itemSize : queue_bounded (TSQ_Create QUEUE_MAX_ITEMS itemSize).
Proof. split; [reflexivity|]. unfold TSQ_GetItemsCount, QUEUE_MAX_ITEMS. simpl. lia. Qed.

Lemma queue_bounded_Enqueue q item mode q' :
  queue_bounded q -> TSQ_Enqueue q item mode = Some q' -> queue_bounded q'.
Proof.
  unfold queue_bounded, TSQ_Enqueue, TSQ_GetItemsCount, QUEUE_MAX_ITEMS.
  intros [Hm Hc] E. repeat case_match; simplify_eq; simpl; split; try assumption.
  - rewrite length_app. simpl. lia.
  - rewrite length_app, length_drop. simpl. lia.
Qed.

Lemma queue_bounded_Dequeue q mode item q' :
  queue_bounded q -> TSQ_Dequeue q mode = Some (item, q') -> queue_bounded q'.
Proof.
  unfold queue_bounded, TSQ_Dequeue, TSQ_GetItemsCount, QUEUE_MAX_ITEMS.
  destruct q as [maxLength itemSize items]. simpl.
  intros [Hm Hc] E. destruct items as [|first rest], mode; simplify_eq; simpl in *;
    (split; [first [assumption|reflexivity]|lia]).
Qed.

Lemma queue_bounded_Discard q : queue_bounded q -> queue_bounded (TSQ_Discard q).
Proof.
  unfold queue_bounded, TSQ_Discard, TSQ_GetItemsCount, QUEUE_MAX_ITEMS.
  intros [Hm Hc]. simpl. split; [assumption|lia].
Qed.

(** A change that leaves the registry's entries bounded and its existence
    and the workers as they are. *)
Lemma State_ok_registry (s : State) (map' : option (TSMap AsyncIPConnectionData)) :
  State_ok s ->
  (is_Some map' <-> is_Some (globalConnectionsList s)) ->
  (forall m' id c, map' = Some m' -> tsm_items m' !! id = Some c ->
     entry_bounded c) ->
  State_ok (set_globalConnectionsList map' s).
Proof.
  intros (Hw & Hq & Ht) Hsome Hb. split; [exact Hw|]. split.
  - intros m' id c. simpl. apply Hb.
  - unfold workers_follow_registry in *. simpl.
    destruct map' as [m'|], (globalConnectionsList s) as [m|]; try exact Ht.
    + destruct Hsome as [H _]. destruct (H (ex_intro _ _ eq_refl)) as [? [=]].
    + destruct Hsome as [_ H]. destruct (H (ex_intro _ _ eq_refl)) as [? [=]].
Qed.

Lemma State_ok_world (s : State) (w : World) :
  State_ok s -> World_ok w -> State_ok (set_world w s).
Proof. intros (Hw & Hq & Ht) Hw'. split; [exact Hw'|]. split; [exact Hq|exact Ht]. Qed.

Lemma preserves_in_world_ok {A} (c : M World A) :
  preserves World_ok c -> preserves State_ok (in_world c).
Proof.
  intros Hc. eapply preserves_in_world; [exact Hc| |].
  - intros s H. apply H.
  - intros s w. apply State_ok_world.
Qed.

Lemma preserves_bind_AcquireItem {B} id (k : option AsyncIPConnectionData -> M State B) :
  (forall item, (forall c, item = Some c -> entry_bounded c) -> preserves State_ok (k item)) ->
  preserves State_ok (bind (AcquireItem id) k).
Proof.
  intros Hk. apply preserves_intro. intros s b s'' HI E.
  apply bind_Done in E as (item & s' & E1 & E2).
  unfold AcquireItem in E1. minv E1.
  match goal with H : TSM_AcquireItem _ _ = Some _ |- _ => rename H into Ha end.
  unfold TSM_AcquireItem in Ha.
  eapply (preserves_elim State_ok (k item)); [apply Hk| |exact E2].
  - intros c ->. repeat case_match; simplify_eq.
    destruct HI as (_ & Hq & _). eapply Hq; eauto.
  - apply State_ok_registry; [exact HI| |].
    + repeat case_match; simplify_eq; split; intros [? ?]; try discriminate; eauto.
    + intros m' id' c' -> Hl. destruct HI as (_ & Hq & _).
      repeat case_match; simplify_eq; simpl in *; eapply Hq; eauto.
Qed.

Lemma preserves_AcquireItem id : preserves State_ok (AcquireItem id).
Proof.
  intros s HI.
  pose proof (preserves_bind_AcquireItem id (fun item => ret item)
                (fun item _ => preserves_ret State_ok item) s HI) as H.
  unfold bind, ret in H. destruct (AcquireItem id s); exact H.
Qed.

Lemma preserves_ReleaseItem id : preserves State_ok (ReleaseItem id).
Proof.
  unfold ReleaseItem. apply preserves_modify. intros s HI.
  apply State_ok_registry; [exact HI| |].
  - unfold TSM_ReleaseItem. destruct (globalConnectionsList s); split; intros [? ?]; try discriminate; eauto.
  - intros m' id' c' Hm Hl. destruct HI as (_ & Hq & _).
    unfold TSM_ReleaseItem in Hm. destruct (globalConnectionsList s) eqn:E; simplify_eq.
    simpl in Hl. eapply Hq; eauto.
Qed.

Lemma preserves_RemoveItem id : preserves State_ok (RemoveItem id).
Proof.
  unfold RemoveItem. apply preserves_modify. intros s HI.
  apply State_ok_registry; [exact HI| |].
  - unfold TSM_RemoveItem. destruct (globalConnectionsList s); [|split; intros [? ?]; discriminate].
    case_match; split; eauto.
  - intros m' id' c' Hm Hl. destruct HI as (_ & Hq & _).
    unfold TSM_RemoveItem in Hm. destruct (globalConnectionsList s) eqn:E; simplify_eq.
    case_match; simplify_eq; simpl in *.
    + eapply Hq; eauto.
    + apply lookup_delete_Some in Hl as [_ Hl]. eapply Hq; eauto.
Qed.

Lemma preserves_update_item id f :
  (forall c, entry_bounded c -> entry_bounded (f c)) -> preserves State_ok (update_item id f).
Proof.
  intros Hf. apply preserves_intro. intros s a s' HI E. unfold update_item in E. minv E.
  apply State_ok_registry; [exact HI| |].
  - match goal with H : globalConnectionsList _ = Some _ |- _ => rewrite H end.
    split; eauto.
  - intros m' id' c' [= <-] Hl. simpl in Hl. destruct HI as (_ & Hq & _).
    destruct (decide (id = id')) as [->|Hne].
    + rewrite lookup_insert_eq in Hl. simplify_eq. apply Hf. eapply Hq; eauto.
    + rewrite lookup_insert_ne in Hl by exact Hne. eapply Hq; eauto.
Qed.

Lemma preserves_bind_read_item {B} id (k : AsyncIPConnectionData -> M State B) :
  (forall c, entry_bounded c -> preserves State_ok (k c)) ->
  preserves State_ok (bind (read_item id) k).
Proof.
  intros Hk. apply preserves_intro. intros s b s'' HI E.
  apply bind_Done in E as (item & s' & E1 & E2).
  unfold read_item in E1. minv E1.
  eapply (preserves_elim State_ok (k item)); [apply Hk| exact HI |exact E2].
  destruct HI as (_ & Hq & _). eapply Hq; eauto.
Qed.

(** A change to a static that is no part of the invariant. *)
Lemma State_ok_ext (s s' : State) :
  world s' = world s -> globalConnectionsList s' = globalConnectionsList s ->
  globalReadThread s' = globalReadThread s -> globalWriteThread s' = globalWriteThread s ->
  isNetworkRunning s' = isNetworkRunning s ->
  State_ok s -> State_ok s'.
Proof.
  intros Hw Hg Hr Hwt Hf (H1 & H2 & H3). split; [rewrite Hw; exact H1|]. split.
  - intros m id c. rewrite Hg. apply H2.
  - unfold workers_follow_registry in *. rewrite Hg, Hr, Hwt, Hf. exact H3.
Qed.

Ltac state_modify :=
  match goal with |- preserves _ (modify _) => apply preserves_modify end;
  intros ? ?; repeat case_match; try assumption;
  (eapply State_ok_ext; [| | | | |eassumption]; reflexivity).

#[export] Hint Resolve preserves_AcquireItem preserves_ReleaseItem preserves_RemoveItem : pres.

Ltac spres :=
  repeat first
    [ match goal with |- forall _, _ => intro end
    | solve [auto with pres]
    | match goal with
      | |- preserves _ (bind (AcquireItem _) _) => apply preserves_bind_AcquireItem
      | |- preserves _ (bind (read_item _) _) => apply preserves_bind_read_item
      | |- preserves _ (bind (blocking _) _) => apply preserves_bind_blocking
      | |- preserves _ (bind (must _) _) => apply preserves_bind_must
      | |- preserves _ (bind _ _) => apply preserves_bind
      | |- preserves _ (in_world _) => apply preserves_in_world_ok
      end
    | pres_branch ].

Section FacadeInvariant.
Variable IP_NETWORK_LEGACY : bool.
Variable TSM_FIRST_ID : Z.

Lemma preserves_AsyncIP_GetActivesNumber : preserves State_ok AsyncIP_GetActivesNumber.
Proof.
  unfold AsyncIP_GetActivesNumber. spres.
  apply preserves_for_each. spres. state_modify.
Qed.

Lemma preserves_AsyncIP_GetClientsNumber serverID :
  preserves State_ok (AsyncIP_GetClientsNumber serverID).
Proof. unfold AsyncIP_GetClientsNumber. spres. apply preserves_IP_GetClientsNumber. Qed.

Lemma preserves_AsyncIP_GetAddress connectionID :
  preserves State_ok (AsyncIP_GetAddress IP_NETWORK_LEGACY connectionID).
Proof. unfold AsyncIP_GetAddress. spres. apply preserves_IP_GetAddress. Qed.

Lemma preserves_AddAsyncConnection baseConnection :
  preserves State_ok (AddAsyncConnection TSM_FIRST_ID baseConnection).
Proof.
  apply preserves_intro. intros s a s' HI E. unfold AddAsyncConnection in E.
  apply bind_Done in E as (s0 & s1 & E0 & E). minv E0.
  apply bind_Done in E as ([] & s2 & E1 & E).
  assert (State_ok s2 /\ is_Some (globalConnectionsList s2)) as [HI2 Hsome].
  { destruct (globalConnectionsList s1) as [m|] eqn:Em; minv E1.
    - split; [exact HI|]. rewrite Em. eauto.
    - split; [|simpl; eauto].
      destruct HI as (Hw & Hq & Ht). split; [exact Hw|]. split.
      + intros m id c. simpl. intros [= <-]. simpl. rewrite lookup_empty. discriminate.
      + unfold workers_follow_registry. simpl. auto. }
  clear E1 HI.
  apply bind_Done in E as (isServer & s3 & E1 & E).
  apply in_world_Done in E1 as (w & E1 & ->).
  assert (World_ok w) as Hw.
  { eapply (preserves_elim World_ok); [apply preserves_IP_IsServer|apply HI2|exact E1]. }
  apply bind_Done in E as (s4 & s5 & E2 & E). minv E2.
  apply bind_Done in E as (map & s6 & E2 & E). minv E2.
  simpl in E. minv E.
  match goal with H : globalConnectionsList _ = Some _ |- _ => rename H into Hm end.
  simpl in Hm.
  apply State_ok_registry; [apply State_ok_world; assumption| |].
  - simpl. rewrite Hm. split; eauto.
  - intros m' id c [= <-]. simpl. intros Hl.
    destruct (decide (tsm_nextID map = id)) as [Heq|Hne]; [subst id|].
    + rewrite lookup_insert_eq in Hl. simplify_eq. split; apply queue_bounded_Create.
    + rewrite lookup_insert_ne in Hl by exact Hne.
      destruct HI2 as (_ & Hq & _). eapply Hq; eauto.
Qed.
Hint Resolve preserves_AddAsyncConnection : pres.

Lemma preserves_AsyncIP_OpenConnection connectionType host port :
  preserves State_ok
    (AsyncIP_OpenConnection IP_NETWORK_LEGACY TSM_FIRST_ID connectionType host port).
Proof. unfold AsyncIP_OpenConnection. spres. apply preserves_IP_OpenConnection. Qed.

Lemma preserves_AsyncIP_SetMessageLength connectionID messageLength_ :
  0 <= messageLength_ ->
  preserves State_ok (AsyncIP_SetMessageLength connectionID messageLength_).
Proof.
  intros Hl. unfold AsyncIP_SetMessageLength. spres.
  apply preserves_IP_SetMessageLength. exact Hl.
Qed.

Lemma entry_bounded_set_readQueue q c :
  queue_bounded q -> entry_bounded c -> entry_bounded (set_readQueue q c).
Proof. intros Hq [_ Hw]. split; assumption. Qed.

Lemma entry_bounded_set_writeQueue q c :
  queue_bounded q -> entry_bounded c -> entry_bounded (set_writeQueue q c).
Proof. intros Hq [Hr _]. split; assumption. Qed.

Lemma preserves_enqueue_read connectionID item :
  preserves State_ok (enqueue_read connectionID item).
Proof.
  unfold enqueue_read. spres.
  apply preserves_update_item. intros c' Hc'. apply entry_bounded_set_readQueue; [|exact Hc'].
  eapply queue_bounded_Enqueue; [|eassumption].
  match goal with H : entry_bounded _ |- _ => apply H end.
Qed.
Hint Resolve preserves_enqueue_read : pres.

Lemma preserves_ReadToQueue connectionID :
  preserves State_ok (ReadToQueue IP_NETWORK_LEGACY TSM_FIRST_ID connectionID).
Proof.
  unfold ReadToQueue. spres.
  - apply preserves_IP_IsDataAvailable.
  - apply preserves_IP_IsServer.
  - apply preserves_IP_AcceptClient.
  - apply preserves_IP_GetAddress.
  - apply preserves_IP_ReceiveMessage.
Qed.
Hint Resolve preserves_ReadToQueue : pres.

Lemma preserves_AsyncReadQueues_iteration :
  preserves State_ok (AsyncReadQueues_iteration IP_NETWORK_LEGACY TSM_FIRST_ID).
Proof.
  unfold AsyncReadQueues_iteration. spres.
  - apply preserves_IP_WaitEvent.
  - apply preserves_for_each. auto with pres.
Qed.

Lemma preserves_WriteFromQueue fuel connectionID :
  preserves State_ok (WriteFromQueue fuel connectionID).
Proof.
  unfold WriteFromQueue. spres.
  - apply preserves_update_item. intros c' Hc'.
    apply entry_bounded_set_writeQueue; [|exact Hc'].
    eapply queue_bounded_Dequeue; [|eassumption].
    match goal with H : forall c, Some _ = Some c -> entry_bounded c |- _ =>
      apply (H _ eq_refl) end.
  - apply preserves_IP_SendMessage.
Qed.
Hint Resolve preserves_WriteFromQueue : pres.

Lemma preserves_AsyncWriteQueues_iteration fuel :
  preserves State_ok (AsyncWriteQueues_iteration fuel).
Proof.
  unfold AsyncWriteQueues_iteration. spres. apply preserves_for_each. auto with pres.
Qed.

Lemma preserves_AsyncIP_ReadMessage clientID :
  preserves State_ok (AsyncIP_ReadMessage clientID).
Proof.
  unfold AsyncIP_ReadMessage. spres.
  - apply preserves_IP_IsServer.
  - apply preserves_update_item. intros c' Hc'.
    apply entry_bounded_set_readQueue; [|exact Hc'].
    eapply queue_bounded_Dequeue; [|eassumption].
    match goal with H : forall c, Some _ = Some c -> entry_bounded c |- _ =>
      apply (H _ eq_refl) end.
  - state_modify.
Qed.

Lemma preserves_AsyncIP_WriteMessage connectionID message :
  preserves State_ok (AsyncIP_WriteMessage connectionID message).
Proof.
  unfold AsyncIP_WriteMessage. spres.
  apply preserves_update_item. intros c' Hc'.
  apply entry_bounded_set_writeQueue; [|exact Hc'].
  eapply queue_bounded_Enqueue; [|eassumption].
  match goal with H : forall c, Some _ = Some c -> entry_bounded c |- _ =>
    apply (H _ eq_refl) end.
Qed.

Lemma preserves_AsyncIP_GetClient serverID :
  preserves State_ok (AsyncIP_GetClient serverID).
Proof.
  unfold AsyncIP_GetClient. spres.
  - apply preserves_IP_IsServer.
  - apply preserves_update_item. intros c' Hc'.
    apply entry_bounded_set_readQueue; [|exact Hc'].
    eapply queue_bounded_Dequeue; [|eassumption].
    match goal with H : forall c, Some _ = Some c -> entry_bounded c |- _ =>
      apply (H _ eq_refl) end.
Qed.

(** The end of [AsyncIP_CloseConnection]: the workers are stopped with the
    registry. *)
Lemma teardown_ok (s s' : State) :
  World_ok (world s) -> queues_bounded s ->
  (is_Some (globalConnectionsList s) ->
   globalReadThread s = THREAD_RUNNING /\ globalWriteThread s = THREAD_RUNNING) ->
  (globalConnectionsList s = None -> workers_follow_registry s) ->
  (do s <- get;
   if TSM_GetItemsCount (globalConnectionsList s) =? 0 then
     exec modify (set_isNetworkRunning false);
     exec modify (fun s =>
            set_globalReadThread
              (Thread_WaitExit (globalReadThread s) (isNetworkRunning s)) s);
     exec modify (fun s =>
            set_globalWriteThread
              (Thread_WaitExit (globalWriteThread s) (isNetworkRunning s)) s);
     modify (set_globalConnectionsList None)
   else ret tt) s = Done tt s' ->
  (is_Some (globalConnectionsList s) -> isNetworkRunning s = true) ->
  State_ok s'.
Proof.
  intros Hw Hq Hrun Hnone E Hflag. minv E.
  - match type of Hw with World_ok (world ?s0) => rename s0 into t end.
    split; [exact Hw|]. split.
    + intros m id c. simpl. discriminate.
    + unfold workers_follow_registry. simpl.
      destruct (globalConnectionsList t) as [m|] eqn:Em.
      * destruct (Hrun (ex_intro _ _ eq_refl)) as [-> ->]. simpl. auto.
      * specialize (Hnone eq_refl). unfold workers_follow_registry in Hnone.
        rewrite Em in Hnone. destruct Hnone as (Hr & Hwt & _).
        unfold Thread_WaitExit.
        destruct (globalReadThread t), (globalWriteThread t); auto.
  - split; [exact Hw|]. split; [exact Hq|].
    unfold workers_follow_registry.
    destruct (globalConnectionsList s') as [m|] eqn:Em.
    + destruct (Hrun (ex_intro _ _ eq_refl)) as [-> ->].
      rewrite (Hflag (ex_intro _ _ eq_refl)). auto.
    + specialize (Hnone eq_refl). unfold workers_follow_registry in Hnone.
      rewrite Em in Hnone. exact Hnone.
Qed.

Lemma preserves_AsyncIP_CloseConnection connectionID :
  preserves State_ok (AsyncIP_CloseConnection IP_NETWORK_LEGACY connectionID).
Proof.
  unfold AsyncIP_CloseConnection. apply preserves_bind_AcquireItem. intros item _.
  destruct item as [c|]; [|apply preserves_ret].
  apply preserves_bind;
    [apply preserves_in_world_ok, preserves_IP_CloseConnection|intros _].
  apply preserves_bind;
    [apply preserves_update_item; intros c' Hc'; exact Hc'|intros _].
  apply preserves_bind; [|intros _].
  { apply preserves_update_item. intros c' [Hr Hwq]. split; [|exact Hwq].
    apply queue_bounded_Discard, Hr. }
  apply preserves_bind; [|intros _].
  { apply preserves_update_item. intros c' [Hr Hwq]. split; [exact Hr|].
    apply queue_bounded_Discard, Hwq. }
  apply preserves_bind; [apply preserves_ReleaseItem|intros _].
  apply preserves_bind; [apply preserves_RemoveItem|intros _].
  apply preserves_intro. intros s [] s' (Hw & Hq & Ht) E.
  unfold workers_follow_registry in Ht.
  eapply teardown_ok; [exact Hw|exact Hq| | |exact E|].
  - intros [m Hm]. rewrite Hm in Ht. tauto.
  - intros Hm. unfold workers_follow_registry. rewrite Hm in *. exact Ht.
  - intros [m Hm]. rewrite Hm in Ht. tauto.
Qed.

Lemma preserves_worker handle body :
  preserves State_ok body -> preserves State_ok (worker handle body).
Proof. intros H. unfold worker. spres. Qed.

Lemma size_wrap_nonneg n : 0 <= size_wrap n.
Proof. unfold size_wrap, SIZE_MODULUS. apply Z.mod_pos_bound. lia. Qed.

Lemma preserves_step e : preserves State_ok (step IP_NETWORK_LEGACY TSM_FIRST_ID e).
Proof.
  destruct e; simpl.
  - apply preserves_bind; [apply preserves_AsyncIP_OpenConnection|spres].
  - apply preserves_AsyncIP_CloseConnection.
  - apply preserves_bind; [apply preserves_AsyncIP_GetAddress|spres].
  - apply preserves_bind; [apply preserves_AsyncIP_GetActivesNumber|spres].
  - apply preserves_bind; [apply preserves_AsyncIP_GetClientsNumber|spres].
  - apply preserves_bind; [apply preserves_AsyncIP_SetMessageLength, size_wrap_nonneg|spres].
  - apply preserves_bind; [apply preserves_AsyncIP_ReadMessage|spres].
  - apply preserves_bind; [apply preserves_AsyncIP_WriteMessage|spres].
  - apply preserves_bind; [apply preserves_AsyncIP_GetClient|spres].
  - apply preserves_worker, preserves_ReadToQueue.
  - apply preserves_worker, preserves_AsyncReadQueues_iteration.
  - apply preserves_worker, preserves_WriteFromQueue.
  - apply preserves_worker, preserves_AsyncWriteQueues_iteration.
  - apply preserves_modify. intros s (Hw & Hq & Ht).
    split; [|split; [exact Hq|exact Ht]].
    destruct Hw as [Hh Hwire]. split; [exact Hh|exact Hwire].
Qed.

Lemma State_ok_initial o : State_ok (initial_State o).
Proof.
  split; [split|split].
  - intros p c. simpl. rewrite lookup_empty. discriminate.
  - constructor.
  - intros m id c. simpl. discriminate.
  - unfold workers_follow_registry. simpl. auto.
Qed.

Lemma run_State_ok trace s s' :
  State_ok s -> run IP_NETWORK_LEGACY TSM_FIRST_ID trace s = Done tt s' -> State_ok s'.
Proof.
  intros HI E. eapply (preserves_elim State_ok); [|exact HI|exact E].
  apply preserves_for_each. apply preserves_step.
Qed.
End FacadeInvariant.

(** * A registry that exists holds a connection *)

Lemma registry_nonempty_ext (s s' : State) :
  globalConnectionsList s' = globalConnectionsList s ->
  registry_nonempty s -> registry_nonempty s'.
Proof. intros Hg H m. rewrite Hg. apply H. Qed.

Lemma registry_nonempty_set (s : State) (map' : option (TSMap AsyncIPConnectionData)) :
  registry_nonempty s ->
  (forall m', map' = Some m' ->
     exists m, globalConnectionsList s = Some m /\ dom (tsm_items m') = dom (tsm_items m)) ->
  registry_nonempty (set_globalConnectionsList map' s).
Proof.
  intros H Hd m'. simpl. intros Hm'. destruct (Hd m' Hm') as (m & Hm & Hdom).
  intros Hempty. apply (H m Hm). apply dom_empty_iff_L. rewrite <- Hdom.
  apply dom_empty_iff_L. exact Hempty.
Qed.

Ltac nonempty_modify :=
  match goal with |- preserves _ (modify _) => apply preserves_modify end;
  intros ? ?; repeat case_match; try assumption;
  (eapply registry_nonempty_ext; [|eassumption]; reflexivity).

Lemma nonempty_AcquireItem id : preserves registry_nonempty (AcquireItem id).
Proof.
  apply preserves_intro. intros s a s' HI E. unfold AcquireItem in E. minv E.
  match goal with H : TSM_AcquireItem _ _ = Some _ |- _ => rename H into Ha end.
  unfold TSM_AcquireItem in Ha.
  apply registry_nonempty_set; [exact HI|]. intros m' ->.
  repeat case_match; simplify_eq; eauto.
Qed.

Lemma nonempty_ReleaseItem id : preserves registry_nonempty (ReleaseItem id).
Proof.
  unfold ReleaseItem. apply preserves_modify. intros s HI.
  apply registry_nonempty_set; [exact HI|]. intros m' Hm'.
  unfold TSM_ReleaseItem in Hm'. destruct (globalConnectionsList s) eqn:E; simplify_eq.
  eauto.
Qed.

Lemma nonempty_update_item id f : preserves registry_nonempty (update_item id f).
Proof.
  apply preserves_intro. intros s a s' HI E. unfold update_item in E. minv E.
  apply registry_nonempty_set; [exact HI|]. intros m' [= <-]. simpl.
  eexists; split; [eassumption|].
  rewrite dom_insert_L.
  match goal with H : tsm_items _ !! id = Some _ |- _ =>
    apply (elem_of_dom_2 (D := gset Z)) in H end.
  set_solver.
Qed.

Lemma nonempty_read_item id : preserves registry_nonempty (read_item id).
Proof. unfold read_item. pres. Qed.

Lemma nonempty_in_world {A} (c : M World A) : preserves registry_nonempty (in_world c).
Proof.
  apply preserves_intro. intros s a s' HI E. apply in_world_Done in E as (w & _ & ->).
  exact HI.
Qed.

#[export] Hint Resolve nonempty_AcquireItem nonempty_ReleaseItem nonempty_update_item
  nonempty_read_item nonempty_in_world : pres.

Section RegistryNonempty.
Variable IP_NETWORK_LEGACY : bool.
Variable TSM_FIRST_ID : Z.

Lemma nonempty_AsyncIP_GetActivesNumber : preserves registry_nonempty AsyncIP_GetActivesNumber.
Proof.
  unfold AsyncIP_GetActivesNumber. pres.
  apply preserves_for_each. pres. nonempty_modify.
Qed.

Lemma nonempty_AsyncIP_GetClientsNumber serverID :
  preserves registry_nonempty (AsyncIP_GetClientsNumber serverID).
Proof. unfold AsyncIP_GetClientsNumber. pres. Qed.

Lemma nonempty_AsyncIP_GetAddress connectionID :
  preserves registry_nonempty (AsyncIP_GetAddress IP_NETWORK_LEGACY connectionID).
Proof. unfold AsyncIP_GetAddress. pres. Qed.

Lemma nonempty_AddAsyncConnection baseConnection :
  preserves registry_nonempty (AddAsyncConnection TSM_FIRST_ID baseConnection).
Proof.
  apply preserves_intro. intros s a s' HI E. unfold AddAsyncConnection in E.
  apply bind_Done in E as (s0 & s1 & E0 & E). minv E0.
  apply bind_Done in E as ([] & s2 & _ & E).
  apply bind_Done in E as (isServer & s3 & E1 & E).
  apply in_world_Done in E1 as (w & _ & ->).
  apply bind_Done in E as (s4 & s5 & E2 & E). minv E2.
  apply bind_Done in E as (map & s6 & E2 & E). minv E2.
  simpl in E. minv E.
  intros m'. simpl. intros [= <-]. simpl. apply insert_non_empty.
Qed.
Hint Resolve nonempty_AddAsyncConnection : pres.

Lemma nonempty_AsyncIP_OpenConnection connectionType host port :
  preserves registry_nonempty
    (AsyncIP_OpenConnection IP_NETWORK_LEGACY TSM_FIRST_ID connectionType host port).
Proof. unfold AsyncIP_OpenConnection. pres. Qed.

Lemma nonempty_AsyncIP_SetMessageLength connectionID messageLength_ :
  preserves registry_nonempty (AsyncIP_SetMessageLength connectionID messageLength_).
Proof. unfold AsyncIP_SetMessageLength. pres. Qed.

Lemma nonempty_enqueue_read connectionID item :
  preserves registry_nonempty (enqueue_read connectionID item).
Proof. unfold enqueue_read. pres. Qed.
Hint Resolve nonempty_enqueue_read : pres.

Lemma nonempty_ReadToQueue connectionID :
  preserves registry_nonempty (ReadToQueue IP_NETWORK_LEGACY TSM_FIRST_ID connectionID).
Proof. unfold ReadToQueue. pres. Qed.
Hint Resolve nonempty_ReadToQueue : pres.

Lemma nonempty_AsyncReadQueues_iteration :
  preserves registry_nonempty (AsyncReadQueues_iteration IP_NETWORK_LEGACY TSM_FIRST_ID).
Proof.
  unfold AsyncReadQueues_iteration. pres. apply preserves_for_each. auto with pres.
Qed.

Lemma nonempty_AsyncIP_ReadMessage clientID :
  preserves registry_nonempty (AsyncIP_ReadMessage clientID).
Proof. unfold AsyncIP_ReadMessage. pres. nonempty_modify. Qed.

Lemma nonempty_AsyncIP_WriteMessage connectionID message :
  preserves registry_nonempty (AsyncIP_WriteMessage connectionID message).
Proof. unfold AsyncIP_WriteMessage. pres. Qed.

Lemma nonempty_AsyncIP_GetClient serverID :
  preserves registry_nonempty (AsyncIP_GetClient serverID).
Proof. unfold AsyncIP_GetClient. pres. Qed.

(** The end of [AsyncIP_CloseConnection] leaves no empty registry behind,
    whatever was removed before it. *)
Lemma nonempty_AsyncIP_CloseConnection connectionID :
  preserves registry_nonempty (AsyncIP_CloseConnection IP_NETWORK_LEGACY connectionID).
Proof.
  apply preserves_intro. intros s [] s' HI E. unfold AsyncIP_CloseConnection in E.
  apply bind_Done in E as (item & s1 & E1 & E).
  assert (registry_nonempty s1) as HI1
    by (eapply (preserves_elim registry_nonempty); [apply nonempty_AcquireItem| |]; eassumption).
  destruct item as [c|]; [|minv E; exact HI1].
  do 6 (apply bind_Done in E as ([] & ? & _ & E)).
  minv E.
  - intros m. simpl. discriminate.
  - intros m Hm Hempty.
    match goal with H : (TSM_GetItemsCount _ =? 0) = false |- _ =>
      rewrite Hm in H; unfold TSM_GetItemsCount in H; rewrite Hempty in H;
      rewrite map_size_empty in H; discriminate H end.
Qed.
End RegistryNonempty.

Lemma nonempty_step IP_NETWORK_LEGACY TSM_FIRST_ID e :
  writer_event e = false ->
  preserves registry_nonempty (step IP_NETWORK_LEGACY TSM_FIRST_ID e).
Proof.
  intros He. destruct e; simpl; try discriminate He.
  - apply preserves_bind; [apply nonempty_AsyncIP_OpenConnection|pres].
  - apply nonempty_AsyncIP_CloseConnection.
  - apply preserves_bind; [apply nonempty_AsyncIP_GetAddress|pres].
  - apply preserves_bind; [apply nonempty_AsyncIP_GetActivesNumber|pres].
  - apply preserves_bind; [apply nonempty_AsyncIP_GetClientsNumber|pres].
  - apply preserves_bind; [apply nonempty_AsyncIP_SetMessageLength|pres].
  - apply preserves_bind; [apply nonempty_AsyncIP_ReadMessage|pres].
  - apply preserves_bind; [apply nonempty_AsyncIP_WriteMessage|pres].
  - apply preserves_bind; [apply nonempty_AsyncIP_GetClient|pres].
  - unfold worker. pres. apply nonempty_ReadToQueue.
  - unfold worker. pres. apply nonempty_AsyncReadQueues_iteration.
  - nonempty_modify.
Qed.

Lemma registry_nonempty_count (s : State) :
  0 < TSM_GetItemsCount (globalConnectionsList s) -> registry_nonempty s.
Proof.
  intros H m Hm Hempty. rewrite Hm in H. simpl in H. rewrite Hempty in H.
  rewrite map_size_empty in H. lia.
Qed.

Lemma idle_worker_step IP_NETWORK_LEGACY TSM_FIRST_ID e s :
  writer_event e = true ->
  globalWriteThread s <> THREAD_RUNNING ->
  step IP_NETWORK_LEGACY TSM_FIRST_ID e s = Done tt s.
Proof.
  intros He Hw. destruct e; try discriminate He; simpl; unfold worker, bind, get;
    rewrite bool_decide_eq_false_2 by exact Hw; reflexivity.
Qed.

Lemma writer_step_keeps_registry IP_NETWORK_LEGACY TSM_FIRST_ID e s s' :
  State_ok s -> registry_nonempty s ->
  writer_event e = true ->
  step IP_NETWORK_LEGACY TSM_FIRST_ID e s = Done tt s' ->
  TSM_GetItemsCount (globalConnectionsList s) <= TSM_GetItemsCount (globalConnectionsList s') ->
  registry_nonempty s'.
Proof.
  intros (_ & _ & Ht) Hne He E Hcount. unfold workers_follow_registry in Ht.
  destruct (globalConnectionsList s) as [m|] eqn:Em.
  - apply registry_nonempty_count. simpl in Hcount.
    assert (size (tsm_items m) <> 0%nat) as Hsize.
    { intros H0. apply map_size_empty_iff in H0. exact (Hne m Em H0). }
    lia.
  - destruct Ht as (_ & Hw & _).
    rewrite (idle_worker_step _ _ e s He Hw) in E. inversion E; subst s'.
    intros m Hm. rewrite Em in Hm. discriminate.
Qed.

Lemma run_no_eviction IP_NETWORK_LEGACY TSM_FIRST_ID trace :
  forall s s',
    State_ok s -> registry_nonempty s ->
    run IP_NETWORK_LEGACY TSM_FIRST_ID trace s = Done tt s' ->
    no_eviction IP_NETWORK_LEGACY TSM_FIRST_ID trace s ->
    registry_nonempty s'.
Proof.
  induction trace as [|e trace IH]; intros s s' Hok Hne E Hno.
  - inversion E; subst s'. exact Hne.
  - simpl in Hno. change (run IP_NETWORK_LEGACY TSM_FIRST_ID (e :: trace) s)
      with (bind (step IP_NETWORK_LEGACY TSM_FIRST_ID e)
              (fun _ => run IP_NETWORK_LEGACY TSM_FIRST_ID trace) s) in E.
    unfold bind in E.
    destruct (step IP_NETWORK_LEGACY TSM_FIRST_ID e s) as [[] s1| |] eqn:Es; try discriminate E.
    destruct Hno as [Hcount Hno].
    assert (State_ok s1) as Hok1
      by exact (preserves_elim State_ok _ _ _ _ (preserves_step _ _ e) Hok Es).
    apply (IH s1 s' Hok1); [|exact E|exact Hno].
    destruct (writer_event e) eqn:He.
    + exact (writer_step_keeps_registry _ _ e s s1 Hok Hne He Es (Hcount eq_refl)).
    + exact (preserves_elim registry_nonempty _ _ _ _ (nonempty_step _ _ e He) Hne Es).
Qed.

(** * Sending *)

Lemma bind_eq {S A B} (c : M S A) (k : A -> M S B) s a s' :
  c s = Done a s' -> bind c k s = k a s'.
Proof. intros H. unfold bind. now rewrite H. Qed.

Lemma deref_eq p c w : heap w !! p = Some c -> deref p w = Done c w.
Proof. intros H. unfold deref, bind, get, must, ret. now rewrite H. Qed.

Lemma IP_SendMessage_too_long fuel connection c message w :
  heap w !! connection = Some c ->
  strlen message + 1 > messageLength c ->
  IP_SendMessage fuel connection message w = Done 0 w.
Proof.
  intros Hc Hlen.
  assert ((strlen message + 1 >? messageLength c) = true) as E by (apply Z.gtb_lt; lia).
  destruct fuel; simpl; rewrite (bind_eq _ _ _ _ _ (deref_eq _ _ _ Hc)), E; reflexivity.
Qed.

(** Whatever [SendMessageAll] returns is 0. *)
Lemma SendMessageAll_loop_returns_0 send fuel connection message clientsNumber :
  forall clientIndex w r w',
    SendMessageAll_loop send fuel connection message clientsNumber clientIndex w = Done r w' ->
    r = 0.
Proof.
  induction fuel as [|fuel IH]; intros clientIndex w r w' E; simpl in E.
  - destruct (clientIndex <? clientsNumber); [discriminate E|]. now inversion E.
  - destruct (clientIndex <? clientsNumber); [|now inversion E].
    apply bind_Done in E as (c & w1 & _ & E).
    apply bind_Done in E as (cell & w2 & _ & E).
    destruct cell as [client|].
    + apply bind_Done in E as (r1 & w3 & _ & E). eapply IH, E.
    + eapply IH, E.
Qed.

Lemma SendMessageAll_returns_0 fuel connection message w r w' :
  SendMessageAll fuel connection message w = Done r w' -> r = 0.
Proof.
  unfold SendMessageAll. intros E. apply bind_Done in E as (c & w1 & _ & E).
  eapply SendMessageAll_loop_returns_0, E.
Qed.

Lemma IP_SendMessage_server_returns_0 fuel connection c message w r w' :
  heap w !! connection = Some c ->
  ref_SendMessage c = fn_SendMessageAll ->
  IP_SendMessage fuel connection message w = Done r w' ->
  r = 0.
Proof.
  intros Hc Hm E.
  destruct fuel; simpl in E; rewrite (bind_eq _ _ _ _ _ (deref_eq _ _ _ Hc)), Hm in E;
    destruct (strlen message + 1 >? messageLength c);
    first [now inversion E|discriminate E|eapply SendMessageAll_loop_returns_0, E].
Qed.

Lemma socket_fd_same s w w' a :
  same_structures w w' -> socket_fd s w = Done a w -> socket_fd s w' = Done a w'.
Proof.
  intros [_ Hp]. destruct s as [i|f]; simpl; [|intros [= <-]; reflexivity].
  unfold bind, get, must, ret. rewrite Hp.
  destruct (fd <$> polledSocketsList w !! i); [|discriminate]. intros [= <-]. reflexivity.
Qed.

Lemma sendable_same w w' client :
  same_structures w w' -> sendable w client -> sendable w' client.
Proof.
  intros Hs (c & f & Hc & Hf & Hm). exists c, f. split; [|split; [|exact Hm]].
  - destruct Hs as [-> _]. exact Hc.
  - eapply socket_fd_same; eassumption.
Qed.

Lemma client_send_returns fuel w client message :
  sendable w client ->
  exists r w', IP_SendMessage fuel client message w = Done r w' /\ same_structures w w'.
Proof.
  intros (c & f & Hc & Hf & Hm).
  assert (forall dest, exists r w',
            (do sent <- sys (os_send f dest message (messageLength c));
             if sent then ret 0 else ret (-1)) w = Done r w' /\ same_structures w w') as Hsend.
  { intros dest. unfold sys, bind, get, modify, ret, os_send.
    destruct (os_send_ok (os w) f); simpl; eexists _, _; (split; [reflexivity|]);
      split; reflexivity. }
  assert (IP_SendMessage fuel client message w =
          if strlen message + 1 >? messageLength c then Done 0 w
          else match ref_SendMessage c with
               | fn_SendTCPMessage => SendTCPMessage client message w
               | fn_SendUDPMessage => SendUDPMessage client message w
               | fn_SendMessageAll => IP_SendMessage fuel client message w
               end) as ->.
  { destruct fuel; simpl; rewrite (bind_eq _ _ _ _ _ (deref_eq _ _ _ Hc));
      destruct (strlen message + 1 >? messageLength c); try reflexivity;
      destruct (ref_SendMessage c); try reflexivity; contradiction. }
  destruct (strlen message + 1 >? messageLength c).
  { exists 0, w. split; [reflexivity|split; reflexivity]. }
  destruct (ref_SendMessage c); [| |contradiction].
  - unfold SendTCPMessage.
    rewrite (bind_eq _ _ _ _ _ (deref_eq _ _ _ Hc)), (bind_eq _ _ _ _ _ Hf). apply Hsend.
  - unfold SendUDPMessage.
    rewrite (bind_eq _ _ _ _ _ (deref_eq _ _ _ Hc)), (bind_eq _ _ _ _ _ Hf). apply Hsend.
Qed.

(** With no vacated cell the loop of [SendMessageAll] ends, with 0, whether
    or not the single sends succeed. *)
Lemma SendMessageAll_loop_ends fuel0 connection s message :
  forall (n : nat) (fuel : nat) clientIndex w,
    heap w !! connection = Some s ->
    clients_sendable w s ->
    0 <= clientIndex ->
    Z.to_nat (ref_clientsCount s - clientIndex) = n ->
    (n <= fuel)%nat ->
    exists w',
      SendMessageAll_loop (IP_SendMessage fuel0) fuel connection message
        (ref_clientsCount s) clientIndex w = Done 0 w'
      /\ same_structures w w'.
Proof.
  induction n as [|n IH]; intros fuel clientIndex w Hs Hc Hi Hn Hfuel.
  - exists w. split; [|split; reflexivity].
    assert ((clientIndex <? ref_clientsCount s) = false) as E by (apply Z.ltb_ge; lia).
    destruct fuel; simpl; rewrite E; reflexivity.
  - destruct fuel as [|fuel]; [lia|]. simpl.
    assert ((clientIndex <? ref_clientsCount s) = true) as E by (apply Z.ltb_lt; lia).
    rewrite E. rewrite (bind_eq _ _ _ _ _ (deref_eq _ _ _ Hs)).
    destruct Hc as [Hcount Hcells].
    destruct (Hcells (Z.to_nat clientIndex)) as (client & Hcell & Hsendable); [lia|].
    rewrite Hcell. unfold must at 1. unfold bind at 1, ret at 1.
    destruct (client_send_returns fuel0 w client message Hsendable) as (r & w1 & Er & Hsame).
    rewrite (bind_eq _ _ _ _ _ Er).
    destruct (IH fuel (clientIndex + 1) w1) as (w' & E' & Hsame'); try lia.
    + destruct Hsame as [-> _]. exact Hs.
    + split; [exact Hcount|]. intros i Hi'.
      destruct (Hcells i Hi') as (cl & Hcl & Hsd). exists cl. split; [exact Hcl|].
      eapply sendable_same; eassumption.
    + exists w'. split; [exact E'|].
      destruct Hsame as [H1 H2], Hsame' as [H3 H4]. split; congruence.
Qed.

(** * The writer and the registry *)

Lemma registered_lookup s id :
  (registered s id) <->
  exists map c, globalConnectionsList s = Some map /\ tsm_items map !! id = Some c.
Proof.
  unfold registered, TSM_GetItem. destruct (globalConnectionsList s) as [m|].
  - rewrite bool_decide_eq_true. split.
    + intros [c Hc]. eauto.
    + intros (m' & c & [= <-] & Hc). eauto.
  - split; [discriminate|]. intros (m' & c & [=] & _).
Qed.

Lemma AcquireItem_found id s s' item map c :
  globalConnectionsList s = Some map ->
  tsm_items map !! id = Some c ->
  AcquireItem id s = Done item s' ->
  item = Some c
  /\ (id ∉ tsm_held map)
  /\ s' = set_globalConnectionsList
            (Some {| tsm_items := tsm_items map; tsm_nextID := tsm_nextID map;
                     tsm_held := {[ id ]} ∪ tsm_held map |}) s.
Proof.
  intros Hm Hc E. unfold AcquireItem in E. minv E.
  match goal with H : TSM_AcquireItem _ _ = Some _ |- _ => rename H into Ha end.
  rewrite Hm in Ha. unfold TSM_AcquireItem in Ha. rewrite Hc in Ha.
  case_bool_decide; [discriminate Ha|]. inversion Ha; subst. auto.
Qed.

Lemma AcquireItem_free id s map c :
  globalConnectionsList s = Some map ->
  tsm_items map !! id = Some c ->
  id ∉ tsm_held map ->
  AcquireItem id s =
  Done (Some c)
    (set_globalConnectionsList
       (Some {| tsm_items := tsm_items map; tsm_nextID := tsm_nextID map;
                tsm_held := {[ id ]} ∪ tsm_held map |}) s).
Proof.
  intros Hm Hc Hh. unfold AcquireItem, bind, get, blocking, modify, ret.
  rewrite Hm. unfold TSM_AcquireItem. rewrite Hc.
  rewrite bool_decide_eq_false_2 by exact Hh. reflexivity.
Qed.

Lemma set_globalConnectionsList_id s :
  set_globalConnectionsList (globalConnectionsList s) s = s.
Proof. destruct s; reflexivity. Qed.

Lemma AcquireItem_unknown id s :
  (forall map, globalConnectionsList s = Some map -> tsm_items map !! id = None) ->
  AcquireItem id s = Done None s.
Proof.
  intros H. unfold AcquireItem, bind, get, blocking, modify, ret, TSM_AcquireItem.
  destruct (globalConnectionsList s) as [m|] eqn:Em.
  - rewrite (H m eq_refl). simpl. rewrite <- Em, set_globalConnectionsList_id. reflexivity.
  - simpl. rewrite <- Em, set_globalConnectionsList_id. reflexivity.
Qed.

Lemma update_item_held id f s held map c :
  globalConnectionsList s = Some map ->
  tsm_items map !! id = Some c ->
  update_item id f
    (set_globalConnectionsList
       (Some {| tsm_items := tsm_items map; tsm_nextID := tsm_nextID map;
                tsm_held := held |}) s) =
  Done tt
    (set_globalConnectionsList
       (Some {| tsm_items := <[id := f c]> (tsm_items map); tsm_nextID := tsm_nextID map;
                tsm_held := held |}) s).
Proof.
  intros Hm Hc. unfold update_item, bind, get, must, modify, ret. simpl. rewrite Hc.
  reflexivity.
Qed.

(** The writer's step on a connection with something to write, as far as
    the send: the message dequeued and the state the send starts from. *)
Lemma WriteFromQueue_sends fuel id s s' map c item rest :
  globalConnectionsList s = Some map ->
  tsm_items map !! id = Some c ->
  tsq_items (writeQueue c) = item :: rest ->
  WriteFromQueue fuel id s = Done tt s' ->
  exists base sent w,
    baseConnection c = Some base
    /\ IP_SendMessage fuel base (slot_bytes item) (world s) = Done sent w
    /\ world s' = w
    /\ (sent <> -1 -> registered s' id)
    /\ (sent = -1 -> ~ registered s' id).
Proof.
  intros Hm Hc Hq E. unfold WriteFromQueue in E.
  apply bind_Done in E as (it & s1 & E1 & E).
  destruct (AcquireItem_found _ _ _ _ _ _ Hm Hc E1) as (-> & Hheld & ->).
  unfold TSQ_GetItemsCount in E. rewrite Hq in E. simpl in E.
  unfold TSQ_Dequeue in E. rewrite Hq in E. simpl in E.
  unfold bind at 1 in E. simpl in E.
  rewrite (bind_eq _ _ _ _ _ (update_item_held _ _ _ _ _ _ Hm Hc)) in E.
  apply bind_Done in E as (base & s2 & E2 & E).
  destruct (baseConnection c) as [b|] eqn:Eb; [|discriminate E2].
  unfold must, ret in E2. inversion E2; subst; clear E2.
  apply bind_Done in E as (sent & s3 & E3 & E).
  apply in_world_Done in E3 as (w & E3 & ->). simpl in E3.
  exists base, sent, w. split; [reflexivity|]. split; [exact E3|].
  destruct (sent =? -1) eqn:Es.
  - apply Z.eqb_eq in Es. unfold ReleaseItem, RemoveItem in E. minv E. simpl.
    split; [reflexivity|].
    split; [intros H; contradiction|]. intros _.
    unfold registered, TSM_GetItem. simpl.
    rewrite bool_decide_eq_false_2 by set_solver. simpl.
    rewrite bool_decide_eq_true. rewrite lookup_delete_eq. intros [? [=]].
  - apply Z.eqb_neq in Es. unfold ReleaseItem in E. minv E. simpl.
    split; [reflexivity|]. split; [|intros H; contradiction]. intros _.
    unfold registered, TSM_GetItem. simpl. rewrite bool_decide_eq_true.
    rewrite lookup_insert_eq. eauto.
Qed.

(** With nothing to write the writer leaves the connection registered. *)
Lemma WriteFromQueue_idle fuel id s s' map c :
  globalConnectionsList s = Some map ->
  tsm_items map !! id = Some c ->
  tsq_items (writeQueue c) = [] ->
  WriteFromQueue fuel id s = Done tt s' ->
  registered s' id /\ world s' = world s.
Proof.
  intros Hm Hc Hq E. unfold WriteFromQueue in E.
  apply bind_Done in E as (it & s1 & E1 & E).
  destruct (AcquireItem_found _ _ _ _ _ _ Hm Hc E1) as (-> & Hheld & ->).
  unfold TSQ_GetItemsCount in E. rewrite Hq in E. simpl in E.
  unfold ReleaseItem in E. minv E. simpl. split; [|reflexivity].
  unfold registered, TSM_GetItem. simpl. rewrite bool_decide_eq_true. eauto.
Qed.

(** * Reading *)

Lemma IP_IsServer_eq connection w :
  (forall p, connection = Some p -> is_Some (heap w !! p)) ->
  IP_IsServer connection w = Done (is_server w connection) w.
Proof.
  intros H. destruct connection as [p|]; simpl; [|reflexivity].
  destruct (H p eq_refl) as [c Hc]. rewrite (bind_eq _ _ _ _ _ (deref_eq _ _ _ Hc)).
  rewrite Hc. reflexivity.
Qed.

Lemma bind_assoc {S A B C} (c : M S A) (k1 : A -> M S B) (k2 : B -> M S C) s :
  bind (bind c k1) k2 s = bind c (fun a => bind (k1 a) k2) s.
Proof. unfold bind. destruct (c s); reflexivity. Qed.

Lemma bind_ret {S A B} (a : A) (k : A -> M S B) s : bind (ret a) k s = k a s.
Proof. reflexivity. Qed.

Lemma bind_get {S B} (k : S -> M S B) s : bind get k s = k s s.
Proof. reflexivity. Qed.

Lemma bind_modify {S B} (f : S -> S) (k : unit -> M S B) s : bind (modify f) k s = k tt (f s).
Proof. reflexivity. Qed.

Lemma in_world_IP_IsServer connection s :
  (forall p, connection = Some p -> is_Some (heap (world s) !! p)) ->
  in_world (IP_IsServer connection) s = Done (is_server (world s) connection) s.
Proof.
  intros H. unfold in_world. rewrite (IP_IsServer_eq _ _ H). f_equal. destruct s; reflexivity.
Qed.

Lemma in_world_eq {A} (c : M World A) s a w :
  c (world s) = Done a w -> in_world c s = Done a (set_world w s).
Proof. intros H. unfold in_world. now rewrite H. Qed.

Lemma set_world_id s : set_world (world s) s = s.
Proof. destruct s; reflexivity. Qed.

Lemma held_restored (id : Z) (held : gset Z) : id ∉ held -> ({[ id ]} ∪ held) ∖ {[ id ]} = held.
Proof. intros H. set_solver. Qed.

Lemma AsyncIP_ReadMessage_result clientID s :
  entry_usable s clientID = true ->
  exists s',
    AsyncIP_ReadMessage clientID s =
    Done (match oldest_message s clientID with
          | Some item => Some (write_buffer (slot_bytes item) (messageData s))
          | None => None
          end) s'
    /\ world s' = world s
    /\ messageData s' = match oldest_message s clientID with
                        | Some item => write_buffer (slot_bytes item) (messageData s)
                        | None => messageData s
                        end
    /\ forall map c,
         globalConnectionsList s = Some map -> tsm_items map !! clientID = Some c ->
         exists map' c',
           globalConnectionsList s' = Some map'
           /\ tsm_items map' !! clientID = Some c'
           /\ tsq_items (readQueue c') =
              match oldest_message s clientID with
              | Some _ => drop 1 (tsq_items (readQueue c))
              | None => tsq_items (readQueue c)
              end.
Proof.
  intros Hu. unfold AsyncIP_ReadMessage, oldest_message.
  destruct (globalConnectionsList s) as [map|] eqn:Em.
  2:{ rewrite (bind_eq _ _ _ _ _ (AcquireItem_unknown clientID s
                 ltac:(intros m; rewrite Em; discriminate))).
      unfold bind, ret, ReleaseItem, modify. rewrite Em. simpl.
      eexists. split; [reflexivity|]. split; [reflexivity|]. split; [reflexivity|].
      intros m c [=]. }
  destruct (tsm_items map !! clientID) as [c|] eqn:Ec.
  2:{ rewrite (bind_eq _ _ _ _ _ (AcquireItem_unknown clientID s
                 ltac:(intros m; rewrite Em; intros [= <-]; exact Ec))).
      unfold bind, ret, ReleaseItem, modify. rewrite Em. simpl.
      eexists. split; [reflexivity|]. split; [reflexivity|]. split; [reflexivity|].
      intros m c [= <-]. rewrite Ec. discriminate. }
  assert ((clientID ∉ tsm_held map)
          /\ forall p, baseConnection c = Some p -> is_Some (heap (world s) !! p))
    as [Hheld Hlive].
  { unfold entry_usable in Hu. rewrite Em, Ec in Hu.
    apply andb_prop in Hu as [H1 H2]. apply bool_decide_eq_true in H1.
    split; [exact H1|]. intros p Hp. rewrite Hp in H2.
    apply bool_decide_eq_true in H2. exact H2. }
  rewrite (bind_eq _ _ _ _ _ (AcquireItem_free _ _ _ _ Em Ec Hheld)).
  cbv iota. rewrite bind_assoc.
  match goal with |- context [bind (in_world _) _ ?s1] =>
    rewrite (bind_eq _ _ _ _ _ (in_world_IP_IsServer (baseConnection c) s1 Hlive))
  end.
  simpl. destruct (is_server (world s) (baseConnection c)) eqn:Es; simpl.
  { rewrite bind_ret. unfold ReleaseItem. rewrite bind_modify. simpl.
    eexists. split; [reflexivity|]. split; [reflexivity|]. split; [reflexivity|].
    intros m c0 [= <-]. rewrite Ec. intros [= <-]. simpl. eauto. }
  unfold TSQ_GetItemsCount, TSQ_Dequeue.
  destruct (tsq_items (readQueue c)) as [|item rest] eqn:Eq; simpl.
  { rewrite bind_ret. unfold ReleaseItem. rewrite bind_modify. simpl.
    eexists. split; [reflexivity|]. split; [reflexivity|]. split; [reflexivity|].
    intros m c0 [= <-]. rewrite Ec. intros [= <-]. simpl. eauto. }
  rewrite !bind_assoc, bind_ret. cbv iota beta. rewrite !bind_assoc.
  rewrite (bind_eq _ _ _ _ _ (update_item_held _ _ _ _ _ _ Em Ec)).
  rewrite !bind_assoc, bind_modify, !bind_assoc, bind_get, bind_ret.
  unfold ReleaseItem. rewrite bind_modify. simpl.
  eexists. split; [reflexivity|]. split; [reflexivity|]. split; [reflexivity|].
  intros m c0 [= <-]. rewrite Ec. intros [= <-]. simpl.
  eexists _, _. split; [reflexivity|]. simpl. rewrite lookup_insert_eq.
  split; [reflexivity|]. simpl. rewrite Eq. reflexivity.
Qed.

(** * The reader and a full read queue *)

Lemma ReadToQueue_skips_full IP_NETWORK_LEGACY TSM_FIRST_ID id s map c :
  globalConnectionsList s = Some map ->
  tsm_items map !! id = Some c ->
  id ∉ tsm_held map ->
  TSQ_GetItemsCount (readQueue c) >= QUEUE_MAX_ITEMS ->
  ReadToQueue IP_NETWORK_LEGACY TSM_FIRST_ID id s = Done tt s.
Proof.
  intros Hm Hc Hheld Hfull. unfold ReadToQueue.
  rewrite (bind_eq _ _ _ _ _ (AcquireItem_free _ _ _ _ Hm Hc Hheld)).
  assert ((TSQ_GetItemsCount (readQueue c) >=? QUEUE_MAX_ITEMS) = true) as ->
    by (apply Z.geb_le; lia).
  unfold ReleaseItem, modify. simpl. rewrite held_restored by exact Hheld.
  f_equal. destruct s; simpl in *. rewrite Hm. destruct map; reflexivity.
Qed.

(** * Creating connections *)

(** The structure [AddConnection] builds. *)
Lemma AddConnection_result IP_NETWORK_LEGACY socketFD address transportProtocol networkRole
    w connection w' :
  AddConnection IP_NETWORK_LEGACY socketFD address transportProtocol networkRole w
  = Done connection w' ->
  exists c,
    heap w' !! connection = Some c
    /\ messageLength c = IP_MAX_MESSAGE_LENGTH
    /\ addressData c = address
    /\ server c = None
    /\ ref_SendMessage c =
       (if networkRole =? IP_SERVER then
          if (transportProtocol =? IP_UDP) && IS_IP_MULTICAST_ADDRESS IP_NETWORK_LEGACY address
          then fn_SendUDPMessage else fn_SendMessageAll
        else if transportProtocol =? IP_TCP then fn_SendTCPMessage else fn_SendUDPMessage)
    /\ (forall p, p <> connection -> heap w' !! p = heap w !! p).
Proof.
  intros E. unfold AddConnection in E.
  apply bind_Done in E as (w0 & w1 & E0 & E). minv E0.
  apply bind_Done in E as (sock & w2 & E1 & E).
  assert (heap w2 = heap w1) as Hheap.
  { destruct IP_NETWORK_LEGACY; minv E1; try reflexivity.
    all: repeat case_match; reflexivity. }
  unfold malloc in E. minv E. simpl. rewrite lookup_insert_eq.
  eexists. split; [reflexivity|].
  destruct (networkRole =? IP_SERVER); simpl; repeat split; try reflexivity.
  all: intros p Hp; rewrite lookup_insert_ne by congruence; rewrite Hheap; reflexivity.
Qed.

Lemma configure_ok c socketFD k w :
  os_call (os w) c socketFD = true -> configure c socketFD k w = k w.
Proof. intros H. unfold configure, call_ok, bind, gets. rewrite H. reflexivity. Qed.

Section OpenConnection.
Variable IP_NETWORK_LEGACY : bool.

Lemma IP_OpenConnection_low_port connectionType host port w :
  port < 49152 ->
  IP_OpenConnection IP_NETWORK_LEGACY connectionType host port w = Done None w.
Proof.
  intros H. unfold IP_OpenConnection.
  assert ((port <? 49152) = true) as -> by (apply Z.ltb_lt; exact H). reflexivity.
Qed.

(** The address a server opened with a NULL host is bound to: in the legacy
    build INADDR_ANY, in the poll build what the resolver returns for a
    passive IPv6 socket. *)
Lemma LoadAddressInfo_any_server o port :
  LoadAddressInfo IP_NETWORK_LEGACY o None port IP_SERVER =
  if IP_NETWORK_LEGACY then
    Some {| sa_family := AF_INET; sin_port := htons (strtoul port mod 65536);
            sin_addr := INADDR_ANY; sin6_addr := [] |}
  else
    match os_getaddrinfo o None port AI_PASSIVE AF_INET6 with
    | None => None
    | Some hostsInfoList =>
        head (filter (fun ai_addr => is_Some (GetAddressString false o ai_addr)) hostsInfoList)
    end.
Proof. unfold LoadAddressInfo. destruct IP_NETWORK_LEGACY; reflexivity. Qed.

(** A server type with a NULL host passes the argument checks: once the
    socket is created and configured the connection is built. *)
Lemma IP_OpenConnection_any_server connectionType port w address :
  connectionType = Z.lor IP_TCP IP_SERVER \/ connectionType = Z.lor IP_UDP IP_SERVER ->
  49152 <= port ->
  LoadAddressInfo IP_NETWORK_LEGACY (os w) None (pretty port) IP_SERVER = Some address ->
  CreateSocket (os w) (Z.land connectionType 0xF0) address <> INVALID_SOCKET ->
  (forall c, os_call (os w) c (CreateSocket (os w) (Z.land connectionType 0xF0) address) = true) ->
  IP_OpenConnection IP_NETWORK_LEGACY connectionType None port w =
  (do connection <-
     AddConnection IP_NETWORK_LEGACY
       (CreateSocket (os w) (Z.land connectionType 0xF0) address) address
       (Z.land connectionType 0xF0) IP_SERVER;
   ret (Some connection)) w.
Proof.
  intros Ht Hp Ha Hs Hc. unfold IP_OpenConnection.
  assert ((port <? 49152) = false) as -> by (apply Z.ltb_ge; exact Hp).
  rewrite bind_get.
  assert (Z.land connectionType 15 = IP_SERVER) as Hrole by (destruct Ht; subst; reflexivity).
  rewrite Hrole, Ha.
  set (socketFD := CreateSocket (os w) (Z.land connectionType 240) address) in *.
  assert ((socketFD =? INVALID_SOCKET) = false) as -> by (apply Z.eqb_neq; exact Hs).
  unfold SetSocketConfig at 1. unfold bind at 1.
  rewrite !configure_ok by apply Hc. unfold ret at 1. cbv iota. simpl negb. cbv iota.
  assert (forall k : bool -> M World (option Z),
            bind (if connectionType =? Z.lor IP_TCP IP_SERVER
                  then BindTCPServerSocket socketFD address
                  else if connectionType =? Z.lor IP_UDP IP_SERVER
                  then BindUDPServerSocket IP_NETWORK_LEGACY socketFD address
                  else if connectionType =? Z.lor IP_TCP IP_CLIENT
                  then ConnectTCPClientSocket socketFD address
                  else if connectionType =? Z.lor IP_UDP IP_CLIENT
                  then ConnectUDPClientSocket IP_NETWORK_LEGACY socketFD address
                  else ret false) k w = k true w) as Hbound.
  { intros k.
    assert (BindServerSocket socketFD address w = Done true w) as Hb.
    { unfold BindServerSocket. destruct (sa_family address =? AF_INET6);
        rewrite !configure_ok by apply Hc; reflexivity. }
    destruct Ht as [-> | ->]; simpl.
    - unfold BindTCPServerSocket. rewrite bind_assoc, (bind_eq _ _ _ _ _ Hb). simpl.
      unfold bind at 1. rewrite configure_ok by apply Hc. reflexivity.
    - unfold BindUDPServerSocket. rewrite bind_assoc, (bind_eq _ _ _ _ _ Hb). simpl.
      destruct IP_NETWORK_LEGACY; [|destruct (sa_family address =? AF_INET6)];
        unfold bind at 1; rewrite !configure_ok by apply Hc; reflexivity. }
  simpl negb. cbv iota. etrans; [apply Hbound|]. simpl negb. cbv iota. reflexivity.
Qed.
End OpenConnection.

(** In the poll build a NULL host is refused for every role but the
    server's. *)
Lemma IP_OpenConnection_null_host_not_server connectionType port w :
  Z.land connectionType 0x0F <> IP_SERVER ->
  IP_OpenConnection false connectionType None port w = Done None w.
Proof.
  intros Hrole. unfold IP_OpenConnection. destruct (port <? 49152); [reflexivity|].
  rewrite bind_get. unfold LoadAddressInfo.
  assert ((Z.land connectionType 15 =? IP_SERVER) = false) as -> by (apply Z.eqb_neq; exact Hrole).
  reflexivity.
Qed.

Lemma AsyncIP_OpenConnection_refused IP_NETWORK_LEGACY TSM_FIRST_ID connectionType host port s :
  IP_OpenConnection IP_NETWORK_LEGACY connectionType host port (world s) = Done None (world s) ->
  AsyncIP_OpenConnection IP_NETWORK_LEGACY TSM_FIRST_ID connectionType host port s
  = Done IP_CONNECTION_INVALID_ID s.
Proof.
  intros H. unfold AsyncIP_OpenConnection.
  rewrite (bind_eq _ _ _ _ _ (in_world_eq _ _ _ _ H)). rewrite set_world_id. reflexivity.
Qed.

(** * Setting the message length *)

Lemma IP_SetMessageLength_result connection c messageLength_ w :
  heap w !! connection = Some c ->
  0 <= messageLength_ < SIZE_MODULUS ->
  exists w',
    IP_SetMessageLength (Some connection) messageLength_ w
    = Done (Z.min messageLength_ IP_MAX_MESSAGE_LENGTH) w'
    /\ heap w' = <[connection :=
                    set_messageLength (Z.min messageLength_ IP_MAX_MESSAGE_LENGTH) c]> (heap w).
Proof.
  intros Hc Hl. unfold IP_SetMessageLength, update.
  rewrite !bind_assoc, (bind_eq _ _ _ _ _ (deref_eq _ _ _ Hc)), bind_modify.
  assert ((if messageLength_ >? IP_MAX_MESSAGE_LENGTH then IP_MAX_MESSAGE_LENGTH
           else messageLength_ mod 65536) = Z.min messageLength_ IP_MAX_MESSAGE_LENGTH) as ->.
  { unfold IP_MAX_MESSAGE_LENGTH. destruct (messageLength_ >? 512) eqn:E.
    - apply Z.gtb_lt in E. lia.
    - assert (messageLength_ <= 512) by (rewrite Z.gtb_ltb in E; apply Z.ltb_ge in E; lia).
      rewrite Z.mod_small by lia. lia. }
  unfold deref. rewrite bind_assoc, bind_get. simpl. rewrite lookup_insert_eq.
  simpl. eexists. split; reflexivity.
Qed.

Lemma in_world_same {A} (c : M World A) s a :
  c (world s) = Done a (world s) -> in_world c s = Done a s.
Proof. intros H. rewrite (in_world_eq _ _ _ _ H). now rewrite set_world_id. Qed.

(** The writer's step on a message that is too long for the connection:
    the message is taken off the queue and dropped. *)
Lemma WriteFromQueue_too_long fuel id s map e base c item rest :
  globalConnectionsList s = Some map ->
  tsm_items map !! id = Some e ->
  id ∉ tsm_held map ->
  baseConnection e = Some base ->
  heap (world s) !! base = Some c ->
  tsq_items (writeQueue e) = item :: rest ->
  strlen (slot_bytes item) + 1 > messageLength c ->
  exists s',
    WriteFromQueue fuel id s = Done tt s'
    /\ registered s' id
    /\ world s' = world s.
Proof.
  intros Hm He Hheld Hb Hc Hq Hlen. unfold WriteFromQueue.
  rewrite (bind_eq _ _ _ _ _ (AcquireItem_free _ _ _ _ Hm He Hheld)).
  unfold TSQ_GetItemsCount, TSQ_Dequeue. rewrite Hq. simpl.
  rewrite bind_ret. cbv iota beta.
  rewrite (bind_eq _ _ _ _ _ (update_item_held _ _ _ _ _ _ Hm He)).
  rewrite Hb. unfold must. rewrite bind_ret.
  match goal with |- context [bind (in_world _) _ ?s1] =>
    rewrite (bind_eq _ _ _ _ _
               (in_world_same (IP_SendMessage fuel base (slot_bytes item)) s1 0
                  (IP_SendMessage_too_long fuel base c (slot_bytes item) (world s) Hc Hlen)))
  end.
  simpl. unfold ReleaseItem, modify. simpl.
  eexists. split; [reflexivity|]. split; [|reflexivity].
  unfold registered, TSM_GetItem. simpl. rewrite bool_decide_eq_true.
  rewrite lookup_insert_eq. eauto.
Qed.

(** * Scenarios *)

Lemma run_initial_ok IP_NETWORK_LEGACY TSM_FIRST_ID o trace s :
  run IP_NETWORK_LEGACY TSM_FIRST_ID trace (initial_State o) = Done tt s -> State_ok s.
Proof. apply run_State_ok, State_ok_initial. Qed.

(** * C1: workers and registry *)


(** A send that succeeds removes nothing. *)
Lemma successful_send_evicts_nothing :
  no_eviction false 0 successful_send_trace (initial_State client_OS).
Proof. vm_compute. repeat split; intros _; discriminate. Qed.



(** * C2: queue bounds *)

(** C2: in every state the facade can reach, the read queue and the write
    queue of every registered connection have capacity QUEUE_MAX_ITEMS and
    hold at most that many items; and the reader's step on a connection
    whose read queue holds QUEUE_MAX_ITEMS items or more skips it, changing
    nothing. *)
Theorem C2_queues_hold_at_most_QUEUE_MAX_ITEMS IP_NETWORK_LEGACY TSM_FIRST_ID o trace s
    map id c :
  run IP_NETWORK_LEGACY TSM_FIRST_ID trace (initial_State o) = Done tt s ->
  globalConnectionsList s = Some map ->
  tsm_items map !! id = Some c ->
  (tsq_maxLength (readQueue c) = QUEUE_MAX_ITEMS
   /\ TSQ_GetItemsCount (readQueue c) <= QUEUE_MAX_ITEMS)
  /\ (tsq_maxLength (writeQueue c) = QUEUE_MAX_ITEMS
      /\ TSQ_GetItemsCount (writeQueue c) <= QUEUE_MAX_ITEMS)
  /\ (id ∉ tsm_held map ->
      TSQ_GetItemsCount (readQueue c) >= QUEUE_MAX_ITEMS ->
      ReadToQueue IP_NETWORK_LEGACY TSM_FIRST_ID id s = Done tt s).
Proof.
  intros Hrun Hm Hc. pose proof (run_initial_ok _ _ _ _ _ Hrun) as (_ & Hq & _).
  destruct (Hq map id c Hm Hc) as [Hr Hw].
  split; [exact Hr|]. split; [exact Hw|].
  intros Hheld Hfull. eapply ReadToQueue_skips_full; eassumption.
Qed.

(** Both queues of a busy client are full: of twelve messages written ten
    are queued, of eleven datagrams ten are queued and one is left on the
    socket. *)
Lemma busy_queues_are_full :
  TSQ_GetItemsCount (readQueue (entry_of (state_after false 0 busy_OS busy_trace) 0)) = 10
  /\ TSQ_GetItemsCount (writeQueue (entry_of (state_after false 0 busy_OS busy_trace) 0)) = 10
  /\ tsm_held (registry_of (state_after false 0 busy_OS busy_trace)) = ∅
  /\ os_inbox (os (world (state_after false 0 busy_OS busy_trace))) !! 5
     = Some [datagram peer_A [97]].
Proof. repeat split; vm_compute; reflexivity. Qed.

(** The queues of the busy client. *)
Lemma C2_queues_hold_at_most_QUEUE_MAX_ITEMS_witness :
  (tsq_maxLength (readQueue (entry_of (state_after false 0 busy_OS busy_trace) 0))
   = QUEUE_MAX_ITEMS
   /\ TSQ_GetItemsCount (readQueue (entry_of (state_after false 0 busy_OS busy_trace) 0))
      <= QUEUE_MAX_ITEMS)
  /\ (tsq_maxLength (writeQueue (entry_of (state_after false 0 busy_OS busy_trace) 0))
      = QUEUE_MAX_ITEMS
      /\ TSQ_GetItemsCount (writeQueue (entry_of (state_after false 0 busy_OS busy_trace) 0))
         <= QUEUE_MAX_ITEMS)
  /\ (0 ∉ tsm_held (registry_of (state_after false 0 busy_OS busy_trace)) ->
      TSQ_GetItemsCount (readQueue (entry_of (state_after false 0 busy_OS busy_trace) 0))
      >= QUEUE_MAX_ITEMS ->
      ReadToQueue false 0 0 (state_after false 0 busy_OS busy_trace)
      = Done tt (state_after false 0 busy_OS busy_trace)).
Proof.
  apply (C2_queues_hold_at_most_QUEUE_MAX_ITEMS false 0 busy_OS busy_trace
           (state_after false 0 busy_OS busy_trace)
           (registry_of (state_after false 0 busy_OS busy_trace)) 0
           (entry_of (state_after false 0 busy_OS busy_trace) 0)).
  - vm_compute. reflexivity.
  - vm_compute. reflexivity.
  - vm_compute. reflexivity.
Defined.

(** * C5: a message longer than the bound *)

(** C5: in every state the facade can reach, and for every live connection
    and every message whose length plus one exceeds the connection's message
    length, IP_SendMessage returns 0 (not -1) and leaves the world, the wire
    with it, as it was; the writer's step on a connection whose oldest queued
    message is that long takes it off the queue and leaves the connection
    registered and the wire as it was; and nothing that was transmitted is
    longer than IP_MAX_MESSAGE_LENGTH. *)
Theorem C5_over_length_message_is_dropped IP_NETWORK_LEGACY TSM_FIRST_ID o trace s
    connection c message fuel :
  run IP_NETWORK_LEGACY TSM_FIRST_ID trace (initial_State o) = Done tt s ->
  heap (world s) !! connection = Some c ->
  strlen message + 1 > messageLength c ->
  IP_SendMessage fuel connection message (world s) = Done 0 (world s)
  /\ (forall id map e item rest,
        globalConnectionsList s = Some map ->
        tsm_items map !! id = Some e ->
        id ∉ tsm_held map ->
        baseConnection e = Some connection ->
        tsq_items (writeQueue e) = item :: rest ->
        slot_bytes item = message ->
        exists s',
          WriteFromQueue fuel id s = Done tt s'
          /\ registered s' id
          /\ os_wire (os (world s')) = os_wire (os (world s)))
  /\ Forall (fun sent => ws_length sent <= IP_MAX_MESSAGE_LENGTH) (os_wire (os (world s))).
Proof.
  intros Hrun Hc Hlen. split; [|split].
  - apply (IP_SendMessage_too_long fuel connection c message (world s) Hc Hlen).
  - intros id map e item rest Hm He Hheld Hb Hq Hitem. subst message.
    destruct (WriteFromQueue_too_long fuel id s map e connection c item rest
                Hm He Hheld Hb Hc Hq Hlen) as (s' & E & Hreg & Hw).
    exists s'. split; [exact E|]. split; [exact Hreg|]. rewrite Hw. reflexivity.
  - pose proof (run_initial_ok _ _ _ _ _ Hrun) as ((_ & Hwire) & _). exact Hwire.
Qed.

(** The writer's step on the connection limited to four bytes: the five
    byte message leaves the queue, nothing is transmitted, and the
    connection stays registered. *)
Lemma writer_drops_the_long_message :
  exists s',
    TSQ_GetItemsCount (writeQueue (entry_of (state_after false 0 client_OS short_length_trace) 0))
    = 1
    /\ step false 0 (EvWriteFromQueue 0 0) (state_after false 0 client_OS short_length_trace)
       = Done tt s'
    /\ TSQ_GetItemsCount (writeQueue (entry_of s' 0)) = 0
    /\ os_wire (os (world s')) = []
    /\ registered s' 0.
Proof.
  eexists. split; [vm_compute; reflexivity|]. split; [vm_compute; reflexivity|].
  split; [vm_compute; reflexivity|]. split; vm_compute; reflexivity.
Qed.

(** A five byte message on a connection limited to four bytes. *)
Lemma C5_over_length_message_is_dropped_witness :
  IP_SendMessage 0 1 [104; 101; 108; 108; 111]
    (world (state_after false 0 client_OS short_length_trace))
  = Done 0 (world (state_after false 0 client_OS short_length_trace))
  /\ (forall id map e item rest,
        globalConnectionsList (state_after false 0 client_OS short_length_trace) = Some map ->
        tsm_items map !! id = Some e ->
        id ∉ tsm_held map ->
        baseConnection e = Some 1 ->
        tsq_items (writeQueue e) = item :: rest ->
        slot_bytes item = [104; 101; 108; 108; 111] ->
        exists s',
          WriteFromQueue 0 id (state_after false 0 client_OS short_length_trace) = Done tt s'
          /\ registered s' id
          /\ os_wire (os (world s'))
             = os_wire (os (world (state_after false 0 client_OS short_length_trace))))
  /\ Forall (fun sent => ws_length sent <= IP_MAX_MESSAGE_LENGTH)
       (os_wire (os (world (state_after false 0 client_OS short_length_trace)))).
Proof.
  apply (C5_over_length_message_is_dropped false 0 client_OS short_length_trace
           (state_after false 0 client_OS short_length_trace) 1
           (structure_of (world (state_after false 0 client_OS short_length_trace)) 1)).
  - vm_compute. reflexivity.
  - vm_compute. reflexivity.
  - vm_compute. reflexivity.
Defined.

(** * C8: the message length *)

(** C8 (as amended): in every state the facade can reach the message length
    of every connection lies in 0 .. IP_MAX_MESSAGE_LENGTH; a connection is
    created with IP_MAX_MESSAGE_LENGTH; and IP_SetMessageLength with a
    requested length L sets the bound to min(L, IP_MAX_MESSAGE_LENGTH) and
    returns it. *)
Theorem C8_message_length_bound IP_NETWORK_LEGACY TSM_FIRST_ID o trace s
    connection c messageLength_ :
  run IP_NETWORK_LEGACY TSM_FIRST_ID trace (initial_State o) = Done tt s ->
  heap (world s) !! connection = Some c ->
  0 <= messageLength_ < SIZE_MODULUS ->
  0 <= messageLength c <= IP_MAX_MESSAGE_LENGTH
  /\ (exists w' c',
        IP_SetMessageLength (Some connection) messageLength_ (world s)
        = Done (Z.min messageLength_ IP_MAX_MESSAGE_LENGTH) w'
        /\ heap w' !! connection = Some c'
        /\ messageLength c' = Z.min messageLength_ IP_MAX_MESSAGE_LENGTH)
  /\ (forall socketFD address transportProtocol networkRole w created w',
        AddConnection IP_NETWORK_LEGACY socketFD address transportProtocol networkRole w
        = Done created w' ->
        exists c', heap w' !! created = Some c'
                   /\ messageLength c' = IP_MAX_MESSAGE_LENGTH).
Proof.
  intros Hrun Hc Hl. split; [|split].
  - pose proof (run_initial_ok _ _ _ _ _ Hrun) as ((Hheap & _) & _).
    apply (Hheap connection c Hc).
  - destruct (IP_SetMessageLength_result connection c messageLength_ (world s) Hc Hl)
      as (w' & E & Hheap).
    exists w', (set_messageLength (Z.min messageLength_ IP_MAX_MESSAGE_LENGTH) c).
    split; [exact E|]. rewrite Hheap, lookup_insert_eq. split; reflexivity.
  - intros socketFD address transportProtocol networkRole w created w' E.
    destruct (AddConnection_result _ _ _ _ _ _ _ _ E) as (c' & Hc' & Hlen & _).
    exists c'. split; assumption.
Qed.

(** A request for 600 bytes on a new connection is cut to 512. *)
Lemma C8_message_length_bound_witness :
  0 <= messageLength (structure_of (world (state_after false 0 client_OS open_client_trace)) 1)
  <= IP_MAX_MESSAGE_LENGTH
  /\ (exists w' c',
        IP_SetMessageLength (Some 1) 600 (world (state_after false 0 client_OS open_client_trace))
        = Done (Z.min 600 IP_MAX_MESSAGE_LENGTH) w'
        /\ heap w' !! 1 = Some c'
        /\ messageLength c' = Z.min 600 IP_MAX_MESSAGE_LENGTH)
  /\ (forall socketFD address transportProtocol networkRole w created w',
        AddConnection false socketFD address transportProtocol networkRole w
        = Done created w' ->
        exists c', heap w' !! created = Some c'
                   /\ messageLength c' = IP_MAX_MESSAGE_LENGTH).
Proof.
  apply (C8_message_length_bound false 0 client_OS open_client_trace
           (state_after false 0 client_OS open_client_trace) 1
           (structure_of (world (state_after false 0 client_OS open_client_trace)) 1) 600).
  - vm_compute. reflexivity.
  - vm_compute. reflexivity.
  - vm_compute. split; [discriminate|reflexivity].
Defined.

(** C8, as stated, fails at its lower end: a requested length of 0 is taken
    as it is, and the connection's bound is then 0, below 1. *)
Lemma C8_counterexample :
  exists s c,
    run false 0
      [EvOpenConnection 0x12 (Some "10.0.0.1") 50000; EvSetMessageLength 0 0]
      (initial_State client_OS) = Done tt s
    /\ heap (world s) !! 1 = Some c
    /\ messageLength c = 0
    /\ AsyncIP_SetMessageLength 0 0
         (state_after false 0 client_OS [EvOpenConnection 0x12 (Some "10.0.0.1") 50000])
       = Done 0 s.
Proof.
  eexists _, _. split; [vm_compute; reflexivity|].
  split; [vm_compute; reflexivity|]. split; [reflexivity|]. vm_compute. reflexivity.
Qed.

(** * C9: reading a message *)


(** A client whose read queue holds one datagram: ReadMessage hands it
    out. *)
Lemma received_message_is_read :
  exists message s',
    AsyncIP_ReadMessage 0 received_state = Done (Some message) s'
    /\ take 2 message = [111; 107]
    /\ TSQ_GetItemsCount (readQueue (entry_of received_state 0)) = 1
    /\ TSQ_GetItemsCount (readQueue (entry_of s' 0)) = 0.
Proof.
  eexists _, _. split; [vm_compute; reflexivity|].
  split; [reflexivity|]. split; vm_compute; reflexivity.
Qed.


(** * C10: sending to every client *)

(** C10 (as amended): on a connection whose send method is SendMessageAll,
    whatever SendMessageAll returns is 0 and IP_SendMessage never returns -1;
    when none of the first clientsCount cells of the client list is vacated
    and each holds a live client, SendMessageAll does return, with 0, whether
    or not the sends to the clients succeed; the writer's step never removes
    such a connection from the registry; and AddConnection gives this send
    method to every server but a UDP server on a multicast address, which
    gets SendUDPMessage. *)
Theorem C10_broadcast_send_is_never_fatal IP_NETWORK_LEGACY s id map e connection c message :
  globalConnectionsList s = Some map ->
  tsm_items map !! id = Some e ->
  baseConnection e = Some connection ->
  heap (world s) !! connection = Some c ->
  ref_SendMessage c = fn_SendMessageAll ->
  (forall fuel r w', SendMessageAll fuel connection message (world s) = Done r w' -> r = 0)
  /\ (forall fuel r w', IP_SendMessage fuel connection message (world s) = Done r w' -> r <> -1)
  /\ (clients_sendable (world s) c ->
      exists w',
        SendMessageAll (Z.to_nat (ref_clientsCount c)) connection message (world s)
        = Done 0 w')
  /\ (forall fuel s', WriteFromQueue fuel id s = Done tt s' -> registered s' id)
  /\ (forall socketFD address transportProtocol w created w',
        AddConnection IP_NETWORK_LEGACY socketFD address transportProtocol IP_SERVER w
        = Done created w' ->
        exists c',
          heap w' !! created = Some c'
          /\ ref_SendMessage c' =
             if (transportProtocol =? IP_UDP) && IS_IP_MULTICAST_ADDRESS IP_NETWORK_LEGACY address
             then fn_SendUDPMessage else fn_SendMessageAll).
Proof.
  intros Hm He Hb Hc Hsend. split; [|split; [|split; [|split]]].
  - intros fuel r w'. apply SendMessageAll_returns_0.
  - intros fuel r w' E.
    rewrite (IP_SendMessage_server_returns_0 fuel connection c message (world s) r w' Hc Hsend E).
    discriminate.
  - intros Hclients. unfold SendMessageAll.
    rewrite (bind_eq _ _ _ _ _ (deref_eq _ _ _ Hc)).
    destruct (SendMessageAll_loop_ends (Z.to_nat (ref_clientsCount c)) connection c message
                (Z.to_nat (ref_clientsCount c)) (Z.to_nat (ref_clientsCount c)) 0 (world s))
      as (w' & E & _); [exact Hc|exact Hclients|lia|f_equal; lia|lia|].
    exists w'. exact E.
  - intros fuel s' E.
    destruct (tsq_items (writeQueue e)) as [|item rest] eqn:Eq.
    + apply (WriteFromQueue_idle fuel id s s' map e Hm He Eq E).
    + destruct (WriteFromQueue_sends fuel id s s' map e item rest Hm He Eq E)
        as (base & sent & w & Hbase & Esend & _ & Hkeep & _).
      apply Hkeep. rewrite Hb in Hbase. inversion Hbase; subst base.
      rewrite (IP_SendMessage_server_returns_0 fuel connection c (slot_bytes item)
                 (world s) sent w Hc Hsend Esend).
      discriminate.
  - intros socketFD address transportProtocol w created w' E.
    destruct (AddConnection_result _ _ _ _ _ _ _ _ E) as (c' & Hc' & _ & _ & _ & Hmethod & _).
    exists c'. split; [exact Hc'|]. rewrite Hmethod. reflexivity.
Qed.

(** The send to the one client of the server fails, the broadcast returns 0
    and the writer's step leaves the server registered. *)
Lemma broadcast_outlives_a_failed_send :
  exists w w' s',
    clients_sendable (world served_state) (structure_of (world served_state) 1)
    /\ ref_clientsCount (structure_of (world served_state) 1) = 1
    /\ IP_SendMessage 0 2 [120] (world served_state) = Done (-1) w
    /\ SendMessageAll 1 1 [120] (world served_state) = Done 0 w'
    /\ step false 0 (EvWriteFromQueue 2 0) served_state = Done tt s'
    /\ registered s' 0.
Proof.
  eexists _, _, _. split.
  { split; [vm_compute; discriminate|]. intros i Hi.
    assert (i = 0%nat) as -> by (vm_compute in Hi; lia).
    exists 2. split; [vm_compute; reflexivity|].
    eexists _, 5. split; [vm_compute; reflexivity|].
    split; [vm_compute; reflexivity|]. vm_compute. discriminate. }
  split; [vm_compute; reflexivity|]. split; [vm_compute; reflexivity|].
  split; [vm_compute; reflexivity|]. split; vm_compute; reflexivity.
Qed.

Lemma C10_broadcast_send_is_never_fatal_witness :
  (forall fuel r w',
     SendMessageAll fuel 1 [120] (world served_state) = Done r w' -> r = 0)
  /\ (forall fuel r w',
        IP_SendMessage fuel 1 [120] (world served_state) = Done r w' -> r <> -1)
  /\ (clients_sendable (world served_state) (structure_of (world served_state) 1) ->
      exists w',
        SendMessageAll
          (Z.to_nat (ref_clientsCount (structure_of (world served_state) 1)))
          1 [120] (world served_state)
        = Done 0 w')
  /\ (forall fuel s', WriteFromQueue fuel 0 served_state = Done tt s' -> registered s' 0)
  /\ (forall socketFD address transportProtocol w created w',
        AddConnection false socketFD address transportProtocol IP_SERVER w
        = Done created w' ->
        exists c',
          heap w' !! created = Some c'
          /\ ref_SendMessage c' =
             if (transportProtocol =? IP_UDP) && IS_IP_MULTICAST_ADDRESS false address
             then fn_SendUDPMessage else fn_SendMessageAll).
Proof.
  apply (C10_broadcast_send_is_never_fatal false served_state 0
           (registry_of served_state) (entry_of served_state 0) 1
           (structure_of (world served_state) 1) [120]).
  - vm_compute. reflexivity.
  - vm_compute. reflexivity.
  - vm_compute. reflexivity.
  - vm_compute. reflexivity.
  - vm_compute. reflexivity.
Defined.

(** C10, as stated, fails for a UDP server on a multicast address: its send
    method is SendUDPMessage, IP_SendMessage returns -1 when the sendto
    fails, and the writer's step removes the server from the registry. *)
Lemma C10_counterexample :
  exists s s' c w,
    run false 0
      [EvOpenConnection 0x21 (Some "224.0.0.1") 50000; EvWriteMessage 0 [120]]
      (initial_State multicast_OS) = Done tt s
    /\ heap (world s) !! 1 = Some c
    /\ IP_IsServer (Some 1) (world s) = Done true (world s)
    /\ ref_SendMessage c = fn_SendUDPMessage
    /\ IP_SendMessage 0 1 [120] (world s) = Done (-1) w
    /\ registered s 0
    /\ step false 0 (EvWriteFromQueue 0 0) s = Done tt s'
    /\ TSM_GetItem (globalConnectionsList s') 0 = false.
Proof.
  eexists _, _, _, _. split; [vm_compute; reflexivity|].
  split; [vm_compute; reflexivity|]. split; [vm_compute; reflexivity|].
  split; [reflexivity|]. split; [vm_compute; reflexivity|].
  split; [vm_compute; reflexivity|]. split; [vm_compute; reflexivity|].
  vm_compute. reflexivity.
Qed.

(** * The checks of Open *)

(** The checks of Open that hold.  In both builds, for every type byte and
    host, opening with a port below 49152 fails: IP_OpenConnection returns
    NULL and the facade IP_CONNECTION_INVALID_ID, nothing being changed.  In
    the poll build (IP_NETWORK_LEGACY not defined) opening with a NULL host
    fails in the same way for every type whose role bits are not IP_SERVER.
    For the two server types a NULL host passes the checks in both builds:
    the address is INADDR_ANY (legacy build) or the resolver's answer for a
    passive IPv6 socket (poll build), and once the socket is created and
    configured the connection is built on it. *)
Theorem OpenConnection_checks_port_and_host IP_NETWORK_LEGACY TSM_FIRST_ID connectionType host port s :
  (port < 49152 ->
   IP_OpenConnection IP_NETWORK_LEGACY connectionType host port (world s)
   = Done None (world s)
   /\ AsyncIP_OpenConnection IP_NETWORK_LEGACY TSM_FIRST_ID connectionType host port s
      = Done IP_CONNECTION_INVALID_ID s)
  /\ (IP_NETWORK_LEGACY = false ->
      Z.land connectionType 0x0F <> IP_SERVER ->
      IP_OpenConnection IP_NETWORK_LEGACY connectionType None port (world s)
      = Done None (world s)
      /\ AsyncIP_OpenConnection IP_NETWORK_LEGACY TSM_FIRST_ID connectionType None port s
         = Done IP_CONNECTION_INVALID_ID s)
  /\ (connectionType = Z.lor IP_TCP IP_SERVER \/ connectionType = Z.lor IP_UDP IP_SERVER ->
      49152 <= port ->
      LoadAddressInfo IP_NETWORK_LEGACY (os (world s)) None (pretty port) IP_SERVER
      = (if IP_NETWORK_LEGACY then
           Some {| sa_family := AF_INET; sin_port := htons (strtoul (pretty port) mod 65536);
                   sin_addr := INADDR_ANY; sin6_addr := [] |}
         else
           match os_getaddrinfo (os (world s)) None (pretty port) AI_PASSIVE AF_INET6 with
           | None => None
           | Some hostsInfoList =>
               head (filter (fun ai_addr =>
                               is_Some (GetAddressString false (os (world s)) ai_addr))
                       hostsInfoList)
           end)
      /\ forall address,
           LoadAddressInfo IP_NETWORK_LEGACY (os (world s)) None (pretty port) IP_SERVER
           = Some address ->
           CreateSocket (os (world s)) (Z.land connectionType 0xF0) address <> INVALID_SOCKET ->
           (forall c, os_call (os (world s)) c
                        (CreateSocket (os (world s)) (Z.land connectionType 0xF0) address)
                      = true) ->
           IP_OpenConnection IP_NETWORK_LEGACY connectionType None port (world s) =
           (do connection <-
              AddConnection IP_NETWORK_LEGACY
                (CreateSocket (os (world s)) (Z.land connectionType 0xF0) address) address
                (Z.land connectionType 0xF0) IP_SERVER;
            ret (Some connection)) (world s)).
Proof.
  split; [|split].
  - intros Hport.
    pose proof (IP_OpenConnection_low_port IP_NETWORK_LEGACY connectionType host port
                  (world s) Hport) as H.
    split; [exact H|]. apply AsyncIP_OpenConnection_refused, H.
  - intros -> Hrole.
    pose proof (IP_OpenConnection_null_host_not_server connectionType port (world s) Hrole)
      as H.
    split; [exact H|]. apply AsyncIP_OpenConnection_refused, H.
  - intros Htype Hport. split; [apply LoadAddressInfo_any_server|].
    intros address Ha Hs Hc. apply IP_OpenConnection_any_server; assumption.
Qed.

(** In the poll build a TCP client with a NULL host is refused. *)
Lemma OpenConnection_checks_port_and_host_witness :
  IP_OpenConnection false 0x12 None 50000 (world (initial_State client_OS))
  = Done None (world (initial_State client_OS))
  /\ AsyncIP_OpenConnection false 0 0x12 None 50000 (initial_State client_OS)
     = Done IP_CONNECTION_INVALID_ID (initial_State client_OS).
Proof.
  apply (OpenConnection_checks_port_and_host false 0 0x12 None 50000 (initial_State client_OS)).
  - reflexivity.
  - vm_compute. discriminate.
Defined.

(** * C6: opening a connection *)

(** C6 (the code at its failing input): in the legacy build
    (IP_NETWORK_LEGACY defined) LoadAddressInfo takes a NULL host as
    INADDR_ANY without looking at the role, which the other branch of its
    #ifdef does: a UDP client with a NULL host is opened on INADDR_ANY and
    the facade registers it under identifier 0, where the poll build
    returns NULL. *)
Theorem C6_legacy_build_opens_client_without_host :
  exists w s,
    IP_OpenConnection true 0x22 None 50000 (initial_World client_OS) = Done (Some 1) w
    /\ addressData (structure_of w 1)
       = {| sa_family := AF_INET; sin_port := htons 50000; sin_addr := INADDR_ANY;
            sin6_addr := [] |}
    /\ AsyncIP_OpenConnection true 0 0x22 None 50000 (initial_State client_OS) = Done 0 s
    /\ IP_CONNECTION_INVALID_ID = 18446744073709551615
    /\ registered s 0
    /\ IP_OpenConnection false 0x22 None 50000 (initial_World client_OS)
       = Done None (initial_World client_OS).
Proof.
  eexists _, _. split; [vm_compute; reflexivity|]. split; [vm_compute; reflexivity|].
  split; [vm_compute; reflexivity|]. split; [reflexivity|].
  split; [vm_compute; reflexivity|]. reflexivity.
Qed.

(** * C3: the peer of a UDP client *)


(** * C4: the pseudo-clients of a UDP server *)


(** * C7: the number of active connections *)


(** * The client list and the poll list *)

Lemma vacate_first_client_result :
  exists w,
    vacate_first_client (initial_World three_peers_OS) = Done (1, 2, 3) w
    /\ clientsList (structure_of w 1) = [None; Some 3]
    /\ ref_clientsCount (structure_of w 1) = 1
    /\ os_inbox (os w) !! 5 = Some [datagram peer_D [99]].
Proof.
  eexists. split; [vm_compute; reflexivity|].
  split; [vm_compute; reflexivity|]. split; vm_compute; reflexivity.
Qed.

Lemma SendMessageAll_loop_spins send fuel connection c message clientsNumber w :
  heap w !! connection = Some c ->
  clientsList c !! 0%nat = Some None ->
  0 < clientsNumber ->
  SendMessageAll_loop send fuel connection message clientsNumber 0 w = Hang.
Proof.
  intros Hc Hcell Hn. induction fuel as [|fuel IH]; simpl.
  - assert ((0 <? clientsNumber) = true) as -> by (apply Z.ltb_lt; lia). reflexivity.
  - assert ((0 <? clientsNumber) = true) as -> by (apply Z.ltb_lt; lia).
    rewrite (bind_eq _ _ _ _ _ (deref_eq _ _ _ Hc)).
    change (Z.to_nat 0) with 0%nat. rewrite Hcell. simpl.
    unfold bind at 1. unfold ret at 1. exact IH.
Qed.

(** The broadcast send does not return once the first cell of the client
    list is vacated while clients remain: the loop of SendMessageAll tests
    the cell and advances only when it holds a client, so with whatever
    number of iterations it is given it has not returned. *)
Theorem IP_SendMessage_spins_on_vacated_cell fuel connection c message w :
  heap w !! connection = Some c ->
  ref_SendMessage c = fn_SendMessageAll ->
  strlen message + 1 <= messageLength c ->
  0 < ref_clientsCount c ->
  clientsList c !! 0%nat = Some None ->
  IP_SendMessage fuel connection message w = Hang
  /\ SendMessageAll fuel connection message w = Hang.
Proof.
  intros Hc Hsend Hlen Hn Hcell. split.
  - destruct fuel as [|fuel]; simpl;
      rewrite (bind_eq _ _ _ _ _ (deref_eq _ _ _ Hc));
      (assert ((strlen message + 1 >? messageLength c) = false) as ->
         by (rewrite Z.gtb_ltb; apply Z.ltb_ge; lia));
      rewrite Hsend; [reflexivity|].
    eapply SendMessageAll_loop_spins; eassumption.
  - unfold SendMessageAll. rewrite (bind_eq _ _ _ _ _ (deref_eq _ _ _ Hc)).
    eapply SendMessageAll_loop_spins; eassumption.
Qed.

Lemma IP_SendMessage_spins_on_vacated_cell_witness :
  IP_SendMessage 1000 1 [120] (world_after vacate_first_client three_peers_OS) = Hang
  /\ SendMessageAll 1000 1 [120] (world_after vacate_first_client three_peers_OS) = Hang.
Proof.
  apply (IP_SendMessage_spins_on_vacated_cell 1000 1
           (structure_of (world_after vacate_first_client three_peers_OS) 1) [120]).
  - vm_compute. reflexivity.
  - vm_compute. reflexivity.
  - vm_compute. discriminate.
  - vm_compute. reflexivity.
  - vm_compute. reflexivity.
Defined.

Lemma sys_eq {A} (f : OS -> A * OS) w a o :
  f (os w) = (a, o) -> sys f w = Done a (set_os o w).
Proof. intros H. unfold sys, bind, get, modify, ret. rewrite H. reflexivity. Qed.

(** AcceptUDPClient reads the address of every one of the first clientsCount
    cells of the client list without testing the cell: with a datagram
    pending and the first cell vacated while clients remain, it reads
    through a NULL pointer. *)
Theorem AcceptUDPClient_reads_vacated_cell IP_NETWORK_LEGACY server s socketFD p rest w :
  heap w !! server = Some s ->
  socket_fd (socket s) w = Done socketFD w ->
  os_inbox (os w) !! socketFD = Some (p :: rest) ->
  0 < ref_clientsCount s ->
  clientsList s !! 0%nat = Some None ->
  AcceptUDPClient IP_NETWORK_LEGACY server w = Crash.
Proof.
  intros Hs Hfd Hin Hn Hcell. unfold AcceptUDPClient.
  rewrite (bind_eq _ _ _ _ _ (deref_eq _ _ _ Hs)).
  rewrite (bind_eq _ _ _ _ _ Hfd).
  assert (os_recv_dgram socketFD IP_MAX_MESSAGE_LENGTH true (os w)
          = (Some (take (Z.to_nat IP_MAX_MESSAGE_LENGTH) (pkt_data p), pkt_source p), os w))
    as Hpeek by (unfold os_recv_dgram; rewrite Hin; reflexivity).
  rewrite (bind_eq _ _ _ _ _ (sys_eq _ _ _ _ Hpeek)).
  destruct (Z.to_nat (ref_clientsCount s)) as [|n] eqn:En; [lia|].
  simpl AcceptUDPClient_known.
  assert (heap (set_os (os w) w) !! server = Some s) as Hs' by (destruct w; exact Hs).
  unfold bind at 1. rewrite (bind_eq _ _ _ _ _ (deref_eq _ _ _ Hs')).
  change (Z.to_nat 0) with 0%nat. rewrite Hcell. reflexivity.
Qed.

Lemma AcceptUDPClient_reads_vacated_cell_witness :
  AcceptUDPClient false 1 (world_after vacate_first_client three_peers_OS) = Crash.
Proof.
  apply (AcceptUDPClient_reads_vacated_cell false 1
           (structure_of (world_after vacate_first_client three_peers_OS) 1) 5
           (datagram peer_D [99]) []).
  - vm_compute. reflexivity.
  - vm_compute. reflexivity.
  - vm_compute. reflexivity.
  - vm_compute. reflexivity.
  - vm_compute. reflexivity.
Defined.

(** In the poll build a connection refers to its descriptor by a pointer
    into polledSocketsList, and RemoveSocket sorts that array: after the
    connection opened first is closed, the slot the second connection points
    to holds the sentinel 0xFFFF instead of its descriptor 4, its datagram
    is still pending on descriptor 4, and IP_ReceiveMessage on it returns
    NULL. *)
Lemma closing_the_earlier_connection :
  exists w w',
    close_the_earlier (initial_World two_sockets_OS) = Done (1, 2, 4) w
    /\ socket (structure_of w 2) = PollSlot 1
    /\ fd <$> take 2 (polledSocketsList w) = [4; 0xFFFF]
    /\ polledSocketsNumber w = 1
    /\ socket_fd (socket (structure_of w 2)) w = Done 0xFFFF w
    /\ os_inbox (os w) !! 4 = Some [datagram peer_A [97]]
    /\ IP_ReceiveMessage false 2 w = Done None w'.
Proof.
  eexists _, _. split; [vm_compute; reflexivity|].
  split; [vm_compute; reflexivity|]. split; [vm_compute; reflexivity|].
  split; [vm_compute; reflexivity|]. split; [vm_compute; reflexivity|].
  split; [vm_compute; reflexivity|]. vm_compute. reflexivity.
Qed.

(** * Scenarios *)

Ltac poll_list_evaluated :=
  split; [vm_compute; reflexivity|];
  split; [vm_compute; split; discriminate|];
  split; vm_compute; repeat (constructor || discriminate || reflexivity).

Ltac evaluated := vm_compute; first [reflexivity | discriminate | split; discriminate
                                     | split; [discriminate|reflexivity] | lia].
Ltac decided := refine (bool_decide_unpack _ _); vm_compute; exact I.

Lemma two_clients_polled :
  poll_list_ok two_clients_world /\ polled_sockets two_clients_world = [watched 3; watched 4].
Proof. split; [poll_list_evaluated|vm_compute; reflexivity]. Qed.

Lemma two_served_clients_sendable :
  clients_sendable two_served_world (structure_of two_served_world 1)
  /\ clientsList (structure_of two_served_world 1) = [Some 2; Some 3].
Proof.
  split; [|vm_compute; reflexivity].
  split; [vm_compute; discriminate|]. intros i Hi.
  assert (i = 0 \/ i = 1)%nat as [-> | ->] by (vm_compute in Hi; lia).
  - exists 2. split; [vm_compute; reflexivity|].
    eexists _, 5. split; [vm_compute; reflexivity|].
    split; [vm_compute; reflexivity|]. vm_compute. discriminate.
  - exists 3. split; [vm_compute; reflexivity|].
    eexists _, 5. split; [vm_compute; reflexivity|].
    split; [vm_compute; reflexivity|]. vm_compute. discriminate.
Qed.

Lemma stray_world_held_up :
  held_up_by false stray_world 1 (datagram peer_C [98]) [datagram peer_A [97]].
Proof.
  eexists _, _, 5. split; [vm_compute; reflexivity|]. split; [vm_compute; reflexivity|].
  split; [vm_compute; reflexivity|]. split; [vm_compute; reflexivity|].
  split; vm_compute; reflexivity.
Qed.

Lemma one_client_state_registry :
  globalConnectionsList one_client_state = Some (registry_of one_client_state).
Proof. vm_compute. reflexivity. Qed.

(** * The poll list *)

Lemma CompareSockets_small (p q : SocketPoller) :
  0 <= fd p <= 0xFFFF -> 0 <= fd q <= 0xFFFF -> CompareSockets p q = fd p - fd q.
Proof.
  intros Hp Hq. unfold CompareSockets, int_wrap.
  replace (fd p - fd q + 2 ^ 31) with (fd p - fd q + 2 ^ 31 + 0 * 2 ^ 32) by lia.
  rewrite Z.mod_small by lia. lia.
Qed.

Lemma qsort_insert_first (p : SocketPoller) (l : list SocketPoller) :
  0 <= fd p <= 0xFFFF ->
  Forall (fun q => 0 <= fd q <= 0xFFFF /\ fd p <= fd q) l ->
  qsort_insert p l = p :: l.
Proof.
  intros Hp Hl. destruct l as [|q l]; [reflexivity|]. simpl.
  apply Forall_cons in Hl as [[Hq Hpq] _].
  rewrite (CompareSockets_small p q Hp Hq).
  destruct (fd p - fd q <=? 0) eqn:E; [reflexivity|]. apply Z.leb_gt in E. lia.
Qed.

Lemma qsort_insert_last (p : SocketPoller) (l : list SocketPoller) :
  0 <= fd p <= 0xFFFF ->
  Forall (fun q => 0 <= fd q <= 0xFFFF /\ fd q < fd p) l ->
  qsort_insert p l = l ++ [p].
Proof.
  intros Hp Hl. induction l as [|q l IH]; [reflexivity|]. simpl.
  apply Forall_cons in Hl as [[Hq Hpq] Hl].
  rewrite (CompareSockets_small p q Hp Hq).
  destruct (fd p - fd q <=? 0) eqn:E; [apply Z.leb_le in E; lia|].
  rewrite (IH Hl). reflexivity.
Qed.

(** Sorting leaves a sorted prefix in place. *)
Lemma qsort_sorted_prefix (pre rest : list SocketPoller) :
  StronglySorted poller_lt (pre ++ rest) ->
  Forall (fun q => 0 <= fd q <= 0xFFFF) (pre ++ rest) ->
  foldr qsort_insert rest pre = pre ++ rest.
Proof.
  induction pre as [|a pre IH]; intros Hs Hr; [reflexivity|]. simpl in *.
  apply StronglySorted_inv in Hs as [Hs Ha].
  apply Forall_cons in Hr as [Hra Hr].
  rewrite (IH Hs Hr). apply qsort_insert_first; [exact Hra|].
  apply Forall_forall. intros q Hq. split.
  - exact (proj1 (Forall_forall _ _) Hr q Hq).
  - pose proof (proj1 (Forall_forall _ _) Ha q Hq) as H. unfold poller_lt in H. lia.
Qed.

Lemma qsort_sorted (l : list SocketPoller) :
  StronglySorted poller_lt l ->
  Forall (fun q => 0 <= fd q <= 0xFFFF) l ->
  foldr qsort_insert [] l = l.
Proof.
  intros Hs Hr. rewrite <- (app_nil_r l) at 2. apply qsort_sorted_prefix; rewrite app_nil_r; assumption.
Qed.

(** Sorting after a slot was marked with the sentinel: the marked slot goes
    to the end and every later slot moves down by one. *)
Lemma qsort_sentinel (pre post : list SocketPoller) (p marked : SocketPoller) :
  StronglySorted poller_lt (pre ++ p :: post) ->
  Forall (fun q => below_sentinel (fd q)) (pre ++ p :: post) ->
  fd marked = 0xFFFF ->
  foldr qsort_insert [] (pre ++ marked :: post) = pre ++ post ++ [marked].
Proof.
  intros Hs Hr Hm. unfold below_sentinel in Hr.
  apply StronglySorted_app in Hs as (Hcross & Hpre & Hpost).
  apply StronglySorted_inv in Hpost as [Hpost Hp].
  apply Forall_app in Hr as [Hrpre Hrpost]. apply Forall_cons in Hrpost as [Hrp Hrpost].
  rewrite foldr_app. simpl.
  rewrite qsort_sorted; [|exact Hpost|eapply Forall_impl; [exact Hrpost|simpl; intros; lia]].
  rewrite qsort_insert_last;
    [|lia|eapply Forall_impl; [exact Hrpost|simpl; intros; lia]].
  apply qsort_sorted_prefix.
  - apply StronglySorted_app_2; [|exact Hpre|].
    + intros x1 x2 H1 H2. apply elem_of_app in H2 as [H2|H2].
      * apply Hcross; [exact H1|]. apply elem_of_cons. right. exact H2.
      * apply list_elem_of_singleton in H2. subst x2. unfold poller_lt.
        pose proof (proj1 (Forall_forall _ _) Hrpre x1 H1). simpl in *. lia.
    + apply StronglySorted_app_2; [|exact Hpost|repeat constructor].
      intros x1 x2 H1 H2. apply list_elem_of_singleton in H2. subst x2. unfold poller_lt.
      pose proof (proj1 (Forall_forall _ _) Hrpost x1 H1). simpl in *. lia.
  - apply Forall_app. split; [eapply Forall_impl; [exact Hrpre|simpl; intros; lia]|].
    apply Forall_app. split; [eapply Forall_impl; [exact Hrpost|simpl; intros; lia]|].
    repeat constructor; lia.
Qed.

(** Sorting after a new descriptor was written behind a sorted list: it
    goes to its place, between the smaller and the larger ones. *)
Lemma qsort_new (l : list SocketPoller) (x : SocketPoller) :
  StronglySorted poller_lt l ->
  Forall (fun q => below_sentinel (fd q)) l ->
  below_sentinel (fd x) ->
  fd x ∉ fd <$> l ->
  exists smaller larger,
    l = smaller ++ larger
    /\ Forall (fun q => fd q < fd x) smaller
    /\ Forall (fun q => fd x < fd q) larger
    /\ foldr qsort_insert [] (l ++ [x]) = smaller ++ x :: larger.
Proof.
  unfold below_sentinel. intros Hs Hr Hx Hnew. induction l as [|a l IH].
  - exists [], []. repeat split; constructor.
  - apply StronglySorted_inv in Hs as [Hs Ha]. apply Forall_cons in Hr as [Hra Hr].
    rewrite fmap_cons in Hnew. apply not_elem_of_cons in Hnew as [Hne Hnew].
    destruct (IH Hs Hr Hnew) as (smaller & larger & -> & Hsm & Hla & E).
    simpl. rewrite E. apply Forall_app in Ha as [Ha1 Ha2].
    apply Forall_app in Hr as [Hr1 Hr2].
    destruct (Z_lt_le_dec (fd a) (fd x)) as [Hlt|Hge].
    + exists (a :: smaller), larger. split; [reflexivity|].
      split; [constructor; assumption|]. split; [exact Hla|].
      apply qsort_insert_first; [lia|]. apply Forall_app. split.
      * apply Forall_forall. intros q Hq.
        pose proof (proj1 (Forall_forall _ _) Ha1 q Hq) as H1.
        pose proof (proj1 (Forall_forall _ _) Hr1 q Hq) as H2.
        unfold poller_lt in H1. simpl in H2. lia.
      * constructor; [lia|]. apply Forall_forall. intros q Hq.
        pose proof (proj1 (Forall_forall _ _) Ha2 q Hq) as H1.
        pose proof (proj1 (Forall_forall _ _) Hr2 q Hq) as H2.
        unfold poller_lt in H1. simpl in H2. lia.
    + assert (fd x < fd a) as Hlt by lia.
      assert (smaller = []) as ->.
      { destruct smaller as [|q smaller]; [reflexivity|].
        apply Forall_cons in Hsm as [Hq _]. apply Forall_cons in Ha1 as [Hq' _].
        unfold poller_lt in Hq'. lia. }
      exists [], (a :: larger). split; [reflexivity|]. split; [constructor|].
      split; [constructor; assumption|]. simpl.
      rewrite (CompareSockets_small a x) by lia.
      destruct (fd a - fd x <=? 0) eqn:Ec; [apply Z.leb_le in Ec; lia|].
      f_equal. apply qsort_insert_first; [lia|].
      apply Forall_forall. intros q Hq.
      pose proof (proj1 (Forall_forall _ _) Ha2 q Hq) as H1.
      pose proof (proj1 (Forall_forall _ _) Hr2 q Hq) as H2.
      unfold poller_lt in H1. simpl in H2. lia.
Qed.

Lemma sorted_lookup_lt (l : list SocketPoller) (i j : nat) (p q : SocketPoller) :
  StronglySorted poller_lt l -> l !! i = Some p -> l !! j = Some q -> (i < j)%nat ->
  fd p < fd q.
Proof.
  intros Hs Hi Hj Hlt. rewrite <- (take_drop j l) in Hs.
  apply (StronglySorted_app_1_elem_of _ _ _ p q Hs).
  - apply list_elem_of_lookup. exists i. rewrite lookup_take_lt by exact Hlt. exact Hi.
  - apply list_elem_of_lookup. exists 0%nat. rewrite lookup_drop. rewrite Nat.add_0_r. exact Hj.
Qed.

Lemma sorted_lookup_inj (l : list SocketPoller) (i j : nat) (p q : SocketPoller) :
  StronglySorted poller_lt l -> l !! i = Some p -> l !! j = Some q -> fd p = fd q -> i = j.
Proof.
  intros Hs Hi Hj Heq. destruct (lt_eq_lt_dec i j) as [[H|H]|H]; [|exact H|].
  - pose proof (sorted_lookup_lt l i j p q Hs Hi Hj H). lia.
  - pose proof (sorted_lookup_lt l j i q p Hs Hj Hi H). lia.
Qed.

(** [bsearch] over a sorted prefix: the slot it returns holds the key, and
    when it returns none no slot of the range does. *)
Lemma bsearch_loop_spec (key : SocketPoller) (base : list SocketPoller) (n : nat) :
  StronglySorted poller_lt (take n base) ->
  Forall (fun p => below_sentinel (fd p)) (take n base) ->
  0 <= fd key <= 0xFFFF ->
  (n <= length base)%nat ->
  forall fuel l u,
    (u <= n)%nat -> (u - l < fuel)%nat ->
    match bsearch_loop fuel key base l u with
    | Some i => (l <= i < u)%nat /\ fd <$> base !! i = Some (fd key)
    | None => forall i p, (l <= i < u)%nat -> base !! i = Some p -> fd p <> fd key
    end.
Proof.
  intros Hs Hr Hk Hn. induction fuel as [|fuel IH]; intros l u Hu Hfuel; [lia|].
  cbn [bsearch_loop]. destruct (decide (l < u)%nat) as [Hlu|Hlu]; [|intros i p Hi; lia].
  set (idx := ((l + u) / 2)%nat).
  assert (l <= idx < u)%nat as Hidx.
  { unfold idx. split.
    - apply Nat.div_le_lower_bound; lia.
    - apply Nat.Div0.div_lt_upper_bound; lia. }
  destruct (base !! idx) as [p|] eqn:Ep;
    [|apply lookup_ge_None in Ep; lia].
  assert (take n base !! idx = Some p) as Ep' by (rewrite lookup_take_lt by lia; exact Ep).
  assert (below_sentinel (fd p)) as Hp
    by exact (proj1 (Forall_forall _ _) Hr p (list_elem_of_lookup_2 _ _ _ Ep')).
  unfold below_sentinel in Hp.
  rewrite (CompareSockets_small key p) by lia.
  destruct (fd key - fd p <? 0) eqn:E1.
  - apply Z.ltb_lt in E1. specialize (IH l idx ltac:(lia) ltac:(lia)).
    destruct (bsearch_loop fuel key base l idx) as [i|].
    + destruct IH as [Hi Hfd]. split; [lia|exact Hfd].
    + intros i q Hi Hq. destruct (decide (i < idx)%nat) as [Hlt|Hge]; [apply (IH i q); [lia|exact Hq]|].
      destruct (decide (i = idx)) as [->|Hne]; [rewrite Ep in Hq; inversion Hq; subst q; lia|].
      assert (take n base !! i = Some q) as Hq' by (rewrite lookup_take_lt by lia; exact Hq).
      pose proof (sorted_lookup_lt _ idx i p q Hs Ep' Hq' ltac:(lia)). lia.
  - apply Z.ltb_ge in E1. destruct (0 <? fd key - fd p) eqn:E2.
    + apply Z.ltb_lt in E2. specialize (IH (S idx) u ltac:(lia) ltac:(lia)).
      destruct (bsearch_loop fuel key base (S idx) u) as [i|].
      * destruct IH as [Hi Hfd]. split; [lia|exact Hfd].
      * intros i q Hi Hq. destruct (decide (idx < i)%nat) as [Hlt|Hge]; [apply (IH i q); [lia|exact Hq]|].
        destruct (decide (i = idx)) as [->|Hne]; [rewrite Ep in Hq; inversion Hq; subst q; lia|].
        assert (take n base !! i = Some q) as Hq' by (rewrite lookup_take_lt by lia; exact Hq).
        pose proof (sorted_lookup_lt _ i idx q p Hs Hq' Ep' ltac:(lia)). lia.
    + apply Z.ltb_ge in E2. split; [lia|]. rewrite Ep. simpl. f_equal. lia.
Qed.

Lemma bsearch_found (key : SocketPoller) (base : list SocketPoller) (n i : nat) (p : SocketPoller) :
  StronglySorted poller_lt (take n base) ->
  Forall (fun p => below_sentinel (fd p)) (take n base) ->
  (n <= length base)%nat ->
  take n base !! i = Some p -> fd p = fd key ->
  bsearch key base n = Some i.
Proof.
  intros Hs Hr Hn Hi Hfd.
  assert (i < n)%nat as Hin.
  { apply lookup_lt_Some in Hi. rewrite length_take in Hi. lia. }
  assert (base !! i = Some p) as Hi' by (rewrite lookup_take_lt in Hi by lia; exact Hi).
  assert (0 <= fd key <= 0xFFFF) as Hk.
  { pose proof (proj1 (Forall_forall _ _) Hr p (list_elem_of_lookup_2 _ _ _ Hi)) as H.
    unfold below_sentinel in H. lia. }
  pose proof (bsearch_loop_spec key base n Hs Hr Hk Hn (S n) 0%nat n ltac:(lia) ltac:(lia)) as H.
  unfold bsearch. destruct (bsearch_loop (S n) key base 0 n) as [j|].
  - destruct H as [Hj Hfdj]. destruct (base !! j) as [q|] eqn:Eq; [|discriminate].
    simpl in Hfdj. inversion Hfdj as [Hq].
    assert (take n base !! j = Some q) as Eq' by (rewrite lookup_take_lt by lia; exact Eq).
    f_equal. apply (sorted_lookup_inj _ j i q p Hs Eq' Hi). lia.
  - exfalso. apply (H i p ltac:(lia) Hi' Hfd).
Qed.

Lemma bsearch_absent (key : SocketPoller) (base : list SocketPoller) (n : nat) :
  StronglySorted poller_lt (take n base) ->
  Forall (fun p => below_sentinel (fd p)) (take n base) ->
  0 <= fd key <= 0xFFFF ->
  (n <= length base)%nat ->
  fd key ∉ fd <$> take n base ->
  bsearch key base n = None.
Proof.
  intros Hs Hr Hk Hn Hnot.
  pose proof (bsearch_loop_spec key base n Hs Hr Hk Hn (S n) 0%nat n ltac:(lia) ltac:(lia)) as H.
  unfold bsearch. destruct (bsearch_loop (S n) key base 0 n) as [j|]; [|reflexivity].
  destruct H as [Hj Hfdj]. exfalso. apply Hnot.
  destruct (base !! j) as [q|] eqn:Eq; [|discriminate]. simpl in Hfdj. inversion Hfdj as [Hq].
  apply list_elem_of_fmap. exists q. split; [congruence|].
  apply list_elem_of_lookup. exists j. rewrite lookup_take_lt by lia. exact Eq.
Qed.

Lemma foldr_max_below (a : Z) (l : list Z) :
  Forall (fun b => b < a) l -> foldr Z.max a l = a.
Proof. induction 1 as [|b l Hb _ IH]; simpl; [reflexivity|]. rewrite IH. lia. Qed.

Lemma foldr_max_last (a : Z) (l : list SocketPoller) (q : SocketPoller) :
  StronglySorted poller_lt (l ++ [q]) ->
  foldr Z.max a (fd <$> (l ++ [q])) = Z.max a (fd q).
Proof.
  induction l as [|b l IH]; intros Hs; [simpl; lia|].
  change ((b :: l) ++ [q]) with (b :: (l ++ [q])) in *. rewrite fmap_cons. cbn [foldr].
  apply StronglySorted_inv in Hs as [Hs Hb]. rewrite (IH Hs).
  apply Forall_app in Hb as [_ Hq]. apply Forall_cons in Hq as [Hq _].
  unfold poller_lt in Hq. lia.
Qed.

(** The slot behind a sorted list after the new descriptor was sorted in
    holds the largest descriptor. *)
Lemma last_slot_is_largest (smaller larger : list SocketPoller) (x : SocketPoller) :
  StronglySorted poller_lt (smaller ++ larger) ->
  Forall (fun q => fd q < fd x) smaller ->
  Forall (fun q => fd x < fd q) larger ->
  fd <$> (smaller ++ x :: larger) !! length (smaller ++ larger)
  = Some (foldr Z.max (fd x) (fd <$> (smaller ++ larger))).
Proof.
  intros Hs Hsm Hla. destruct (decide (larger = [])) as [->|Hne].
  - rewrite app_nil_r. rewrite list_lookup_middle by reflexivity. simpl. f_equal.
    symmetry. apply foldr_max_below. apply Forall_fmap. exact Hsm.
  - destruct (exists_last Hne) as (larger' & q & ->).
    rewrite (app_assoc smaller larger' [q]).
    rewrite foldr_max_last by (rewrite <- app_assoc; exact Hs).
    replace (smaller ++ x :: larger' ++ [q]) with ((smaller ++ x :: larger') ++ [q])
      by (rewrite <- app_assoc; reflexivity).
    rewrite list_lookup_middle
      by (rewrite ?length_app; simpl; rewrite ?length_app; simpl; lia).
    simpl. f_equal. apply Forall_app in Hla as [_ Hq]. apply Forall_cons in Hq as [Hq _]. lia.
Qed.

Lemma sorted_insert_middle (smaller larger : list SocketPoller) (x : SocketPoller) :
  StronglySorted poller_lt (smaller ++ larger) ->
  Forall (fun q => fd q < fd x) smaller ->
  Forall (fun q => fd x < fd q) larger ->
  StronglySorted poller_lt (smaller ++ x :: larger).
Proof.
  intros Hs Hsm Hla. apply StronglySorted_app in Hs as (Hcross & H1 & H2).
  apply StronglySorted_app_2; [|exact H1|constructor; [exact H2|exact Hla]].
  intros x1 x2 Hx1 Hx2. apply elem_of_cons in Hx2 as [->|Hx2].
  - exact (proj1 (Forall_forall _ _) Hsm x1 Hx1).
  - apply Hcross; assumption.
Qed.

Lemma POLL_LIST_SIZE_eq : Z.of_nat POLL_LIST_SIZE = 1024.
Proof. reflexivity. Qed.

Lemma size_wrap_small n : 0 <= n <= 1025 -> size_wrap n = n.
Proof. intros H. unfold size_wrap, SIZE_MODULUS. apply Z.mod_small. lia. Qed.

Lemma set_poll_heap_irrelevant (w : World) (h : gmap Z IPConnectionData) (a : Z) :
  polled_sockets (set_next_address a (set_heap h w)) = polled_sockets w.
Proof. reflexivity. Qed.

(** AddConnection in the poll build keeps the poll list sorted.  A
    descriptor that is already watched shares its slot with the connection
    that has it; a new descriptor is sorted in, and the new connection
    points to the slot behind the old list, which after the sort holds the
    largest descriptor. *)
Theorem AddConnection_poll_slot socketFD address transportProtocol networkRole w connection w' :
  poll_list_ok w ->
  below_sentinel socketFD ->
  AddConnection false socketFD address transportProtocol networkRole w = Done connection w' ->
  poll_list_ok w'
  /\ (if bool_decide (socketFD ∈ polled_fds w) then polled_fds w' = polled_fds w
      else polled_fds w' ≡ₚ socketFD :: polled_fds w)
  /\ exists c,
       heap w' !! connection = Some c
       /\ socket_fd (socket c) w'
          = Done (if bool_decide (socketFD ∈ polled_fds w) then socketFD
                  else foldr Z.max socketFD (polled_fds w)) w'.
Proof.
  intros (Hlen & Hn & Hs & Hr) Hfd E. pose proof POLL_LIST_SIZE_eq as Hsize.
  unfold AddConnection in E.
  apply bind_Done in E as (w0 & w1 & E0 & E). minv E0.
  apply bind_Done in E as (sock & w2 & E1 & E).
  assert (Z.to_nat (polledSocketsNumber w1) <= length (polledSocketsList w1))%nat as Hnl
    by (rewrite Hlen; clear - Hn Hsize; lia).
  set (n := Z.to_nat (polledSocketsNumber w1)) in *.
  set (key := {| fd := socketFD; events := 0; revents := 0 |}) in *.
  unfold polled_sockets in Hs, Hr. fold n in Hs, Hr.
  destruct (decide (socketFD ∈ fd <$> take n (polledSocketsList w1))) as [Hin|Hnot].
  - rewrite !bool_decide_eq_true_2 by exact Hin.
    apply list_elem_of_fmap in Hin as (p & Hp & Hin).
    apply list_elem_of_lookup in Hin as (i & Hi).
    assert (polledSocketsList w1 !! i = Some p) as Hi'.
    { apply lookup_lt_Some in Hi as Hlt. rewrite length_take in Hlt.
      rewrite lookup_take_lt in Hi by lia. exact Hi. }
    rewrite (bsearch_found key _ n i p Hs Hr Hnl Hi (eq_sym Hp)) in E1. minv E1.
    unfold malloc in E. minv E.
    split; [exact (conj Hlen (conj Hn (conj Hs Hr)))|]. split; [reflexivity|]. simpl.
    rewrite lookup_insert_eq. eexists. split; [reflexivity|].
    destruct (networkRole =? IP_SERVER); simpl; unfold bind, get, must; simpl;
      rewrite Hi'; reflexivity.
  - rewrite !bool_decide_eq_false_2 by exact Hnot.
    unfold below_sentinel in Hfd.
    rewrite (bsearch_absent key _ n Hs Hr ltac:(simpl; lia) Hnl Hnot) in E1.
    apply bind_Done in E1 as (slot & w3 & Eslot & E1). minv Eslot.
    rename E0 into Eslot. minv E1.
    set (poller := {| fd := socketFD; events := Z.lor POLLRDNORM POLLRDBAND;
                      revents := revents slot |}) in *.
    apply lookup_lt_Some in Eslot as Hlt. fold n in Eslot, Hlt.
    destruct (qsort_new (take n (polledSocketsList w3)) poller Hs Hr ltac:(simpl; exact Hfd)
                ltac:(exact Hnot)) as (smaller & larger & Hsplit & Hsm & Hla & Hsort).
    assert (qsort (<[n := poller]> (polledSocketsList w3)) (S n)
            = (smaller ++ poller :: larger) ++ drop (S n) (polledSocketsList w3)) as Hq.
    { unfold qsort. rewrite drop_insert_lt by lia.
      rewrite (take_S_r _ n poller) by (apply list_lookup_insert_eq; lia).
      rewrite take_insert_ge by lia. rewrite Hsort. reflexivity. }
    assert (length (smaller ++ larger) = n) as Hsl
      by (rewrite <- Hsplit, length_take; lia).
    assert (length (smaller ++ poller :: larger) = S n) as Hsl'
      by (rewrite length_app in *; simpl; lia).
    assert (size_wrap (polledSocketsNumber w3 + 1) = polledSocketsNumber w3 + 1) as Hwrap
      by (apply size_wrap_small; lia).
    assert (Z.to_nat (polledSocketsNumber w3 + 1) = S n) as Hn' by (unfold n; lia).
    unfold malloc in E. minv E.
    match goal with |- context [poll_list_ok ?x] => set (wf := x) end.
    assert (polledSocketsList wf
            = (smaller ++ poller :: larger) ++ drop (S n) (polledSocketsList w3)) as Hlist
      by (simpl; exact Hq).
    assert (polledSocketsNumber wf = polledSocketsNumber w3 + 1) as Hnum
      by (simpl; exact Hwrap).
    assert (polled_sockets wf = smaller ++ poller :: larger) as Hpolled.
    { unfold polled_sockets. rewrite Hlist, Hnum, Hn'.
      apply take_app_length'. symmetry. exact Hsl'. }
    assert (exists c, heap wf !! next_address w3 = Some c /\ socket c = PollSlot n) as (c & Hc & Hsock).
    { simpl. rewrite lookup_insert_eq. eexists. split; [reflexivity|].
      destruct (networkRole =? IP_SERVER); reflexivity. }
    clearbody wf. unfold polled_fds. rewrite Hpolled.
    change (polled_sockets w3) with (take n (polledSocketsList w3)).
    split; [|split].
    + split; [|split; [|split]].
      * rewrite Hlist, length_app, Hsl', length_drop. lia.
      * lia.
      * rewrite Hpolled. rewrite Hsplit in Hs. apply sorted_insert_middle; assumption.
      * rewrite Hpolled. rewrite Hsplit in Hr. apply Forall_app in Hr as [Hr1 Hr2].
        apply Forall_app. split; [exact Hr1|]. constructor; [exact Hfd|exact Hr2].
    + rewrite Hsplit. rewrite !fmap_app, fmap_cons. simpl.
      symmetry. apply Permutation_middle.
    + exists c. split; [exact Hc|]. rewrite Hsock.
      pose proof (last_slot_is_largest smaller larger poller
                    ltac:(rewrite <- Hsplit; exact Hs) Hsm Hla) as Hlast.
      rewrite Hsl in Hlast. rewrite <- Hsplit in Hlast. simpl in Hlast.
      unfold socket_fd, bind, get, must.
      rewrite Hlist, lookup_app_l by lia. rewrite Hlast. reflexivity.
Qed.

(** Descriptor 3 is added while descriptor 4 is watched: the new connection's slot holds 4. *)
Lemma AddConnection_poll_slot_witness :
  poll_list_ok (world_then (AddConnection false 3 peer_A IP_TCP IP_CLIENT) later_client_world)
  /\ (if bool_decide (3 ∈ polled_fds later_client_world) then polled_fds (world_then (AddConnection false 3 peer_A IP_TCP IP_CLIENT) later_client_world) = polled_fds later_client_world
      else polled_fds (world_then (AddConnection false 3 peer_A IP_TCP IP_CLIENT) later_client_world) ≡ₚ 3 :: polled_fds later_client_world)
  /\ exists c,
       heap (world_then (AddConnection false 3 peer_A IP_TCP IP_CLIENT) later_client_world) !! 2 = Some c
       /\ socket_fd (socket c) (world_then (AddConnection false 3 peer_A IP_TCP IP_CLIENT) later_client_world)
          = Done (if bool_decide (3 ∈ polled_fds later_client_world) then 3
                  else foldr Z.max 3 (polled_fds later_client_world)) (world_then (AddConnection false 3 peer_A IP_TCP IP_CLIENT) later_client_world).
Proof.
  apply (AddConnection_poll_slot
           3 peer_A IP_TCP IP_CLIENT later_client_world 2 (world_then (AddConnection false 3 peer_A IP_TCP IP_CLIENT) later_client_world)).
  - poll_list_evaluated.
  - evaluated.
  - evaluated.
Defined.

Lemma RemoveSocket_shifts socketFD w pre p post :
  poll_list_ok w ->
  polled_sockets w = pre ++ p :: post ->
  fd p = socketFD ->
  exists w',
    RemoveSocket false socketFD w = Done tt w'
    /\ poll_list_ok w'
    /\ polled_sockets w' = pre ++ post
    /\ heap w' = heap w
    /\ os w' = os_close socketFD (os w)
    /\ polledSocketsList w'
       = (pre ++ post ++ [{| fd := 0xFFFF; events := events p; revents := revents p |}])
         ++ drop (Z.to_nat (polledSocketsNumber w)) (polledSocketsList w).
Proof.
  intros (Hlen & Hn & Hs & Hr) Hsplit Hp. pose proof POLL_LIST_SIZE_eq as Hsize.
  unfold polled_sockets in Hs, Hr, Hsplit.
  set (n := Z.to_nat (polledSocketsNumber w)) in *.
  set (key := {| fd := socketFD; events := 0; revents := 0 |}).
  set (marked := {| fd := 0xFFFF; events := events p; revents := revents p |}).
  assert (n <= length (polledSocketsList w))%nat as Hnl by (rewrite Hlen; unfold n; lia).
  assert (length (pre ++ p :: post) = n) as Hsl by (rewrite <- Hsplit, length_take; lia).
  assert (length pre < n)%nat as Hi by (rewrite length_app in Hsl; simpl in Hsl; lia).
  assert (take n (polledSocketsList w) !! length pre = Some p) as Hpi
    by (rewrite Hsplit; apply list_lookup_middle; reflexivity).
  assert (polledSocketsList w !! length pre = Some p) as Hpi'
    by (rewrite lookup_take_lt in Hpi by lia; exact Hpi).
  assert (bsearch key (polledSocketsList w) n = Some (length pre)) as Hb
    by (apply (bsearch_found key _ n (length pre) p Hs Hr Hnl Hpi); exact Hp).
  assert (qsort (<[length pre := marked]> (polledSocketsList w)) n
          = (pre ++ post ++ [marked]) ++ drop n (polledSocketsList w)) as Hq.
  { unfold qsort. rewrite drop_insert_lt by lia. rewrite take_insert_lt by lia.
    rewrite Hsplit. rewrite insert_app_r_alt by lia. rewrite Nat.sub_diag. simpl.
    rewrite (qsort_sentinel pre post p marked); [reflexivity| | |reflexivity].
    - rewrite <- Hsplit. exact Hs.
    - rewrite <- Hsplit. exact Hr. }
  assert (size_wrap (polledSocketsNumber w - 1) = polledSocketsNumber w - 1) as Hwrap
    by (apply size_wrap_small; unfold n in Hi; lia).
  assert (Z.to_nat (polledSocketsNumber w - 1) = length (pre ++ post)) as Hn'.
  { rewrite length_app in *. simpl in Hsl. unfold n in Hsl. lia. }
  eexists. split.
  { unfold RemoveSocket. unfold bind at 1. unfold bind at 1. unfold get at 1.
    fold n. fold key. rewrite Hb. unfold bind at 1. rewrite Hpi'. simpl must. unfold ret at 1.
    unfold modify at 1. unfold close, modify. reflexivity. }
  match goal with |- context [poll_list_ok ?x] => set (wf := x) end.
  assert (polledSocketsList wf = (pre ++ post ++ [marked]) ++ drop n (polledSocketsList w))
    as Hlist by (simpl; exact Hq).
  assert (polledSocketsNumber wf = polledSocketsNumber w - 1) as Hnum by (simpl; exact Hwrap).
  assert (polled_sockets wf = pre ++ post) as Hpolled.
  { unfold polled_sockets. rewrite Hlist, Hnum, Hn'.
    rewrite (app_assoc pre post [marked]), <- app_assoc. apply take_app_length. }
  assert (heap wf = heap w) as Hheap by reflexivity.
  assert (os wf = os_close socketFD (os w)) as Hos by reflexivity.
  clearbody wf.
  assert (StronglySorted poller_lt (pre ++ post) /\
          Forall (fun q => below_sentinel (fd q)) (pre ++ post)) as [Hs' Hr'].
  { rewrite Hsplit in Hs, Hr. apply StronglySorted_app in Hs as (Hcross & H1 & H2).
    apply StronglySorted_inv in H2 as [H2 _].
    apply Forall_app in Hr as [Hr1 Hr2]. apply Forall_cons in Hr2 as [_ Hr2]. split.
    - apply StronglySorted_app_2; [|exact H1|exact H2].
      intros x1 x2 Hx1 Hx2. apply Hcross; [exact Hx1|]. apply elem_of_cons. right. exact Hx2.
    - apply Forall_app. split; assumption. }
  split; [|split; [exact Hpolled|split; [exact Hheap|split; [exact Hos|]]]].
  - split; [|split; [|split]].
    + rewrite Hlist, !length_app, length_drop. simpl.
      rewrite length_app in Hsl. simpl in Hsl. lia.
    + unfold n in Hi. lia.
    + rewrite Hpolled. exact Hs'.
    + rewrite Hpolled. exact Hr'.
  - exact Hlist.
Qed.

(** RemoveSocket in the poll build marks the slot of the descriptor with
    the sentinel 0xFFFF and sorts: the poll list stays sorted and loses the
    descriptor, and every slot behind the removed one now holds what the
    next slot held, the last of them the sentinel.  A connection that
    points to such a slot reads a larger descriptor than its own. *)
Theorem RemoveSocket_moves_later_slots socketFD w pre p post :
  poll_list_ok w ->
  polled_sockets w = pre ++ p :: post ->
  fd p = socketFD ->
  exists w',
    RemoveSocket false socketFD w = Done tt w'
    /\ poll_list_ok w'
    /\ polled_sockets w' = pre ++ post
    /\ heap w' = heap w
    /\ os w' = os_close socketFD (os w)
    /\ forall j q, post !! j = Some q ->
         socket_fd (PollSlot (length pre + S j)) w = Done (fd q) w
         /\ exists larger,
              socket_fd (PollSlot (length pre + S j)) w' = Done larger w'
              /\ fd q < larger.
Proof.
  intros Hok Hsplit Hp.
  destruct (RemoveSocket_shifts socketFD w pre p post Hok Hsplit Hp)
    as (w' & E & Hok' & Hpolled & Hheap & Hos & Hlist).
  exists w'. split; [exact E|]. split; [exact Hok'|]. split; [exact Hpolled|].
  split; [exact Hheap|]. split; [exact Hos|].
  destruct Hok as (Hlen & Hn & Hs & Hr). pose proof POLL_LIST_SIZE_eq as Hsize.
  unfold polled_sockets in Hs, Hr, Hsplit.
  set (n := Z.to_nat (polledSocketsNumber w)) in *.
  set (marked := {| fd := 0xFFFF; events := events p; revents := revents p |}) in *.
  assert (n <= length (polledSocketsList w))%nat as Hnl by (rewrite Hlen; unfold n; lia).
  assert (length (pre ++ p :: post) = n) as Hsl by (rewrite <- Hsplit, length_take; lia).
  intros j q Hj. apply lookup_lt_Some in Hj as Hjlt.
  assert (length pre + S j < n)%nat as Hjn
    by (rewrite length_app in Hsl; simpl in Hsl; lia).
  split.
  + unfold socket_fd, bind, get, must.
    assert (polledSocketsList w !! (length pre + S j)%nat = Some q) as ->; [|reflexivity].
    rewrite <- (lookup_take_lt _ n) by lia. rewrite Hsplit.
    rewrite lookup_app_r by lia.
    replace (length pre + S j - length pre)%nat with (S j) by lia. exact Hj.
  + assert (exists q', (post ++ [marked]) !! S j = Some q' /\ fd q < fd q') as (q' & Hq' & Hlt).
    { destruct (decide (S j < length post)%nat) as [Hin|Hout].
      - destruct (lookup_lt_is_Some_2 post (S j) Hin) as [q' Hq'].
        exists q'. split; [rewrite lookup_app_l by lia; exact Hq'|].
        rewrite Hsplit in Hs. apply StronglySorted_app_1_r in Hs.
        apply StronglySorted_inv in Hs as [Hs _].
        exact (sorted_lookup_lt post j (S j) q q' Hs Hj Hq' ltac:(lia)).
      - exists marked. split.
        + rewrite lookup_app_r by lia.
          replace (S j - length post)%nat with 0%nat by lia. reflexivity.
        + rewrite Hsplit in Hr. apply Forall_app in Hr as [_ Hr].
          apply Forall_cons in Hr as [_ Hr].
          pose proof (proj1 (Forall_forall _ _) Hr q (list_elem_of_lookup_2 _ _ _ Hj)) as H.
          unfold below_sentinel in H. simpl. lia. }
    exists (fd q'). split; [|exact Hlt].
    unfold socket_fd, bind, get, must. rewrite Hlist.
    rewrite lookup_app_l by (rewrite !length_app; simpl; rewrite length_app in Hsl; simpl in Hsl; lia).
    rewrite lookup_app_r by lia.
    replace (length pre + S j - length pre)%nat with (S j) by lia.
    rewrite Hq'. reflexivity.
Qed.

(** Descriptor 3 is removed while descriptor 4 is watched behind it. *)
Lemma RemoveSocket_moves_later_slots_witness :
  exists w',
    RemoveSocket false 3 two_clients_world = Done tt w'
    /\ poll_list_ok w'
    /\ polled_sockets w' = (@nil SocketPoller) ++ [watched 4]
    /\ heap w' = heap two_clients_world
    /\ os w' = os_close 3 (os two_clients_world)
    /\ forall j q, [watched 4] !! j = Some q ->
         socket_fd (PollSlot (length (@nil SocketPoller) + S j)) two_clients_world = Done (fd q) two_clients_world
         /\ exists larger,
              socket_fd (PollSlot (length (@nil SocketPoller) + S j)) w' = Done larger w'
              /\ fd q < larger.
Proof.
  apply (RemoveSocket_moves_later_slots
           3 two_clients_world (@nil SocketPoller) (watched 3) [watched 4]).
  - poll_list_evaluated.
  - evaluated.
  - reflexivity.
Defined.



Lemma readable_slots_count (o : OS) (l : list SocketPoller) :
  Forall (fun p => below_sentinel (fd p)) l ->
  length (filter (fun p => revents p ≠ 0) (polled_slot o <$> l))
  = length (filter (fun socketFD => os_readable o socketFD = true) (fd <$> l)).
Proof.
  induction 1 as [|p l Hp _ IH]; [reflexivity|].
  rewrite !fmap_cons. unfold below_sentinel in Hp.
  assert ((0 <=? fd p) = true) as H0 by (apply Z.leb_le; lia).
  assert (revents (polled_slot o p) = if os_readable o (fd p) then POLLRDNORM else 0) as Hrev
    by (unfold polled_slot; cbn [revents fd]; rewrite H0; reflexivity).
  destruct (os_readable o (fd p)) eqn:E.
  - rewrite filter_cons_True by (rewrite Hrev; unfold POLLRDNORM; lia).
    rewrite (filter_cons_True (fun socketFD => os_readable o socketFD = true)) by exact E.
    cbn [length]. rewrite IH. reflexivity.
  - rewrite filter_cons_False by (rewrite Hrev; intros H; apply H; reflexivity).
    rewrite (filter_cons_False (fun socketFD => os_readable o socketFD = true))
      by (rewrite E; discriminate).
    exact IH.
Qed.



(** * The client list of a server *)

Lemma first_vacated_le l n : (first_vacated l n <= n)%nat.
Proof.
  revert l. induction n as [|n IH]; intros l; simpl; [lia|].
  destruct l as [|[c|] l]; simpl; [lia| |lia]. specialize (IH l). lia.
Qed.

Lemma first_vacated_cell l n :
  (n <= length l)%nat ->
  (first_vacated l n < n)%nat -> l !! first_vacated l n = Some None.
Proof.
  revert l. induction n as [|n IH]; intros l Hl Hlt; simpl in *; [lia|].
  destruct l as [|[c|] l]; simpl in *; [lia| |reflexivity].
  apply IH; lia.
Qed.

Lemma first_vacated_before l n i :
  (i < first_vacated l n)%nat -> exists c, l !! i = Some (Some c).
Proof.
  revert l i. induction n as [|n IH]; intros l i Hi; simpl in *; [lia|].
  destruct l as [|[c|] l]; simpl in *; [lia| |lia].
  destruct i as [|i]; [eauto|]. apply (IH l i). lia.
Qed.

(** The scan of AddClient computes [first_vacated]. *)
Lemma AddClient_scan_spec (l : list (option Z)) (clientsNumber : Z) (done : nat) :
  forall n,
    (Z.to_nat clientsNumber <= length l)%nat ->
    0 <= clientsNumber ->
    (done + n = Z.to_nat clientsNumber)%nat ->
    AddClient_scan n l clientsNumber (Z.of_nat done) (Z.of_nat done)
    = let i := (done + first_vacated (drop done l) n)%nat in
      Some (Z.of_nat i, if decide (i < Z.to_nat clientsNumber)%nat
                        then Z.of_nat i + 1 else Z.of_nat i).
Proof.
  intros n. revert done. induction n as [|n IH]; intros done Hl Hc Hn.
  - simpl. rewrite Nat.add_0_r. rewrite decide_False by lia. reflexivity.
  - cbn [AddClient_scan].
    assert ((Z.of_nat done <? clientsNumber) = true) as -> by (apply Z.ltb_lt; lia).
    rewrite Nat2Z.id.
    destruct (l !! done) as [cell|] eqn:Ecell; [|apply lookup_ge_None in Ecell; lia].
    rewrite (drop_S l cell done Ecell). destruct cell as [c|].
    + cbn [first_vacated].
      replace (Z.of_nat done + 1) with (Z.of_nat (S done)) by lia.
      rewrite (IH (S done) Hl Hc ltac:(lia)). cbv zeta.
      replace (S done + first_vacated (drop (S done) l) n)%nat
        with (done + S (first_vacated (drop (S done) l) n))%nat by lia.
      reflexivity.
    + cbn [first_vacated]. cbv zeta. rewrite Nat.add_0_r.
      rewrite decide_True by lia. reflexivity.
Qed.

Lemma update_eq p f c w :
  heap w !! p = Some c -> update p f w = Done tt (set_heap (<[p := f c]> (heap w)) w).
Proof. intros H. unfold update. rewrite (bind_eq _ _ _ _ _ (deref_eq _ _ _ H)). reflexivity. Qed.

Lemma realloc_one_more (l : list (option Z)) (n : nat) (x : option Z) :
  (n <= length l)%nat -> <[n := x]> (realloc l (S n)) = take n l ++ [x].
Proof.
  intros Hn. unfold realloc.
  destruct (decide (n = length l)) as [->|Hne].
  - replace (S (length l) - length l)%nat with 1%nat by lia. simpl.
    rewrite take_ge by (rewrite length_app; simpl; lia).
    rewrite firstn_all. rewrite insert_app_r_alt by lia. rewrite Nat.sub_diag. reflexivity.
  - replace (S n - length l)%nat with 0%nat by lia. simpl. rewrite app_nil_r.
    destruct (lookup_lt_is_Some_2 l n ltac:(lia)) as [y Hy].
    rewrite (take_S_r l n y Hy). rewrite insert_app_r_alt by (rewrite length_take; lia).
    rewrite length_take. replace (n - n `min` length l)%nat with 0%nat by lia. reflexivity.
Qed.

(** AddClient records the server in the client and the client in the
    server's list: in the first vacated cell among the first clientsCount
    cells, or, when none of them is vacated, in a cell behind them, the list
    being cut to clientsCount + 1 cells.  The count grows by one. *)
Theorem AddClient_fills_first_vacated_cell server client s c w :
  server <> client ->
  heap w !! server = Some s ->
  heap w !! client = Some c ->
  0 <= ref_clientsCount s < SIZE_MODULUS - 1 ->
  (Z.to_nat (ref_clientsCount s) <= length (clientsList s))%nat ->
  exists w' s',
    AddClient server client w = Done tt w'
    /\ heap w' !! client = Some (set_server (Some server) c)
    /\ heap w' !! server = Some s'
    /\ ref_clientsCount s' = ref_clientsCount s + 1
    /\ clientsList s'
       = (let n := Z.to_nat (ref_clientsCount s) in
          let i := first_vacated (clientsList s) n in
          if decide (i < n)%nat then <[i := Some client]> (clientsList s)
          else take n (clientsList s) ++ [Some client])
    /\ (forall p, p <> server -> p <> client -> heap w' !! p = heap w !! p)
    /\ os w' = os w
    /\ polledSocketsList w' = polledSocketsList w.
Proof.
  intros Hne Hs Hc Hcount Hlen.
  set (n := Z.to_nat (ref_clientsCount s)) in *.
  set (i := first_vacated (clientsList s) n).
  pose proof (first_vacated_le (clientsList s) n) as Hi. fold i in Hi.
  set (w1 := set_heap (<[client := set_server (Some server) c]> (heap w)) w).
  assert (heap w1 !! server = Some s) as Hs1
    by (simpl; rewrite lookup_insert_ne by congruence; exact Hs).
  assert (AddClient_scan n (clientsList s) (ref_clientsCount s) 0 0
          = Some (Z.of_nat i, if decide (i < n)%nat then Z.of_nat i + 1 else Z.of_nat i)) as Hscan.
  { pose proof (AddClient_scan_spec (clientsList s) (ref_clientsCount s) 0 n Hlen
                  ltac:(lia) ltac:(fold n; lia)) as H.
    simpl in H. exact H. }
  set (list' := if decide (i < n)%nat then <[i := Some client]> (clientsList s)
                else take n (clientsList s) ++ [Some client]).
  exists (set_heap (<[server := set_clientsCount (ref_clientsCount s + 1)
                                (set_clientsList list' s)]> (heap w1)) w1).
  eexists. split.
  { unfold AddClient. rewrite (bind_eq _ _ _ _ _ (update_eq _ _ _ _ Hc)). fold w1.
    rewrite (bind_eq _ _ _ _ _ (deref_eq _ _ _ Hs1)). fold n. rewrite Hscan.
    unfold must at 1. rewrite bind_ret. rewrite Nat2Z.id.
    assert (size_wrap (ref_clientsCount s + 1) = ref_clientsCount s + 1) as Hwrap
      by (unfold size_wrap; apply Z.mod_small; lia).
    unfold list'. destruct (decide (i < n)%nat) as [Hlt|Hge].
    - assert ((Z.of_nat i =? Z.of_nat i + 1) = false) as -> by (apply Z.eqb_neq; lia).
      rewrite decide_True by lia.
      rewrite (update_eq _ _ _ _ Hs1). rewrite Hwrap. reflexivity.
    - assert (i = n) as Hin by lia.
      rewrite Z.eqb_refl.
      replace (Z.to_nat (Z.of_nat i + 1)) with (S i) by lia.
      rewrite decide_True
        by (unfold realloc; rewrite length_take, length_app, length_replicate; lia).
      rewrite (update_eq _ _ _ _ Hs1). rewrite Hwrap.
      rewrite realloc_one_more by lia. rewrite Hin. reflexivity. }
  split; [simpl; rewrite lookup_insert_ne by congruence; apply lookup_insert_eq|].
  split; [simpl; apply lookup_insert_eq|].
  split; [reflexivity|]. split; [reflexivity|].
  split; [|split; reflexivity].
  intros p Hp1 Hp2. simpl. rewrite !lookup_insert_ne by congruence. reflexivity.
Qed.

(** A server whose first cell was vacated takes a client back into that cell. *)
Lemma AddClient_fills_first_vacated_cell_witness :
  exists w' s',
    AddClient 1 3 vacated_world = Done tt w'
    /\ heap w' !! 3 = Some (set_server (Some 1) (structure_of vacated_world 3))
    /\ heap w' !! 1 = Some s'
    /\ ref_clientsCount s' = ref_clientsCount (structure_of vacated_world 1) + 1
    /\ clientsList s'
       = (let n := Z.to_nat (ref_clientsCount (structure_of vacated_world 1)) in
          let i := first_vacated (clientsList (structure_of vacated_world 1)) n in
          if decide (i < n)%nat then <[i := Some 3]> (clientsList (structure_of vacated_world 1))
          else take n (clientsList (structure_of vacated_world 1)) ++ [Some 3])
    /\ (forall p, p <> 1 -> p <> 3 -> heap w' !! p = heap vacated_world !! p)
    /\ os w' = os vacated_world
    /\ polledSocketsList w' = polledSocketsList vacated_world.
Proof.
  apply (AddClient_fills_first_vacated_cell
           1 3 (structure_of vacated_world 1) (structure_of vacated_world 3) vacated_world).
  - discriminate.
  - evaluated.
  - evaluated.
  - evaluated.
  - evaluated.
Defined.

Lemma RemoveClient_loop_absent (n : nat) (server client : Z) (s : IPConnectionData) (w : World) :
  forall start,
    heap w !! server = Some s ->
    (forall j, (start <= j < start + n)%nat ->
               exists cell, clientsList s !! j = Some cell /\ cell <> Some client) ->
    RemoveClient_loop n server client (Z.of_nat start) w = Done tt w.
Proof.
  induction n as [|n IH]; intros start Hs Hcells; [reflexivity|].
  cbn [RemoveClient_loop]. rewrite (bind_eq _ _ _ _ _ (deref_eq _ _ _ Hs)).
  rewrite Nat2Z.id. destruct (Hcells start ltac:(lia)) as (cell & Hcell & Hne).
  rewrite Hcell. unfold must at 1. rewrite bind_ret.
  rewrite bool_decide_eq_false_2 by exact Hne.
  replace (Z.of_nat start + 1) with (Z.of_nat (S start)) by lia.
  apply IH; [exact Hs|]. intros j Hj. apply Hcells. lia.
Qed.

Lemma RemoveClient_loop_found (n : nat) (server client : Z) (s : IPConnectionData) (w : World)
    (i : nat) :
  forall start,
    heap w !! server = Some s ->
    (start <= i < start + n)%nat ->
    clientsList s !! i = Some (Some client) ->
    (forall j, (start <= j < i)%nat ->
               exists cell, clientsList s !! j = Some cell /\ cell <> Some client) ->
    RemoveClient_loop n server client (Z.of_nat start) w
    = Done tt (set_heap (<[server := set_clientsCount (size_wrap (ref_clientsCount s - 1))
                                       (set_clientsList (<[i := None]> (clientsList s)) s)]>
                           (heap w)) w).
Proof.
  induction n as [|n IH]; intros start Hs Hi Hcell Hbefore; [lia|].
  cbn [RemoveClient_loop]. rewrite (bind_eq _ _ _ _ _ (deref_eq _ _ _ Hs)).
  rewrite Nat2Z.id. destruct (decide (start = i)) as [->|Hne].
  - rewrite Hcell. unfold must at 1. rewrite bind_ret.
    rewrite bool_decide_eq_true_2 by reflexivity.
    rewrite (update_eq _ _ _ _ Hs). reflexivity.
  - destruct (Hbefore start ltac:(lia)) as (cell & Hc & Hnc).
    rewrite Hc. unfold must at 1. rewrite bind_ret.
    rewrite bool_decide_eq_false_2 by exact Hnc.
    replace (Z.of_nat start + 1) with (Z.of_nat (S start)) by lia.
    apply IH; [exact Hs|lia|exact Hcell|]. intros j Hj. apply Hbefore. lia.
Qed.

(** RemoveClient looks for the client in the first clientsCount cells of
    the server's list only.  Found there, its cell is vacated and the count
    drops by one, the list keeping its length; a client that is in none of
    these cells (also one stored at or behind clientsCount) is left where it
    is, and nothing changes. *)
Theorem RemoveClient_searches_counted_cells server client s w :
  heap w !! server = Some s ->
  0 <= ref_clientsCount s < SIZE_MODULUS ->
  (Z.to_nat (ref_clientsCount s) <= length (clientsList s))%nat ->
  (forall i,
     (i < Z.to_nat (ref_clientsCount s))%nat ->
     clientsList s !! i = Some (Some client) ->
     (forall j, (j < i)%nat -> clientsList s !! j <> Some (Some client)) ->
     exists w' s',
       RemoveClient (Some server) client w = Done tt w'
       /\ heap w' !! server = Some s'
       /\ ref_clientsCount s' = ref_clientsCount s - 1
       /\ clientsList s' = <[i := None]> (clientsList s)
       /\ (forall p, p <> server -> heap w' !! p = heap w !! p))
  /\ ((forall j, (j < Z.to_nat (ref_clientsCount s))%nat ->
                 clientsList s !! j <> Some (Some client)) ->
      RemoveClient (Some server) client w = Done tt w).
Proof.
  intros Hs Hcount Hlen. split.
  - intros i Hi Hcell Hfirst. eexists _, _. split.
    { unfold RemoveClient. rewrite (bind_eq _ _ _ _ _ (deref_eq _ _ _ Hs)).
      apply (RemoveClient_loop_found (Z.to_nat (ref_clientsCount s)) server client s w i 0%nat
               Hs ltac:(lia) Hcell).
      intros j Hj. destruct (lookup_lt_is_Some_2 (clientsList s) j ltac:(lia)) as [cell Hc].
      exists cell. split; [exact Hc|]. intros ->. apply (Hfirst j ltac:(lia)). exact Hc. }
    simpl. split; [apply lookup_insert_eq|].
    split; [unfold size_wrap; apply Z.mod_small; lia|]. split; [reflexivity|].
    intros p Hp. rewrite lookup_insert_ne by congruence. reflexivity.
  - intros Habsent. unfold RemoveClient. rewrite (bind_eq _ _ _ _ _ (deref_eq _ _ _ Hs)).
    apply (RemoveClient_loop_absent _ server client s w 0%nat Hs).
    intros j Hj. destruct (lookup_lt_is_Some_2 (clientsList s) j ltac:(lia)) as [cell Hc].
    exists cell. split; [exact Hc|]. intros ->. apply (Habsent j ltac:(lia)). exact Hc.
Qed.

(** The server of the scenario counts one client; its second client sits behind the counted cells. *)
Lemma RemoveClient_searches_counted_cells_witness :
  (forall i,
     (i < Z.to_nat (ref_clientsCount (structure_of vacated_world 1)))%nat ->
     clientsList (structure_of vacated_world 1) !! i = Some (Some 3) ->
     (forall j, (j < i)%nat -> clientsList (structure_of vacated_world 1) !! j <> Some (Some 3)) ->
     exists w' s',
       RemoveClient (Some 1) 3 vacated_world = Done tt w'
       /\ heap w' !! 1 = Some s'
       /\ ref_clientsCount s' = ref_clientsCount (structure_of vacated_world 1) - 1
       /\ clientsList s' = <[i := None]> (clientsList (structure_of vacated_world 1))
       /\ (forall p, p <> 1 -> heap w' !! p = heap vacated_world !! p))
  /\ ((forall j, (j < Z.to_nat (ref_clientsCount (structure_of vacated_world 1)))%nat ->
                 clientsList (structure_of vacated_world 1) !! j <> Some (Some 3)) ->
      RemoveClient (Some 1) 3 vacated_world = Done tt vacated_world).
Proof.
  apply (RemoveClient_searches_counted_cells 1 3 (structure_of vacated_world 1) vacated_world).
  - evaluated.
  - evaluated.
  - evaluated.
Defined.

(** * Identifiers the registry does not know *)

Lemma AcquireItem_unknown_id id s :
  unknown_id s id -> AcquireItem id s = Done None s.
Proof.
  intros H. apply AcquireItem_unknown. intros map Hm. unfold unknown_id in H.
  rewrite Hm in H. apply H.
Qed.

Lemma ReleaseItem_unknown_id id s :
  unknown_id s id -> ReleaseItem id s = Done tt s.
Proof.
  intros H. unfold ReleaseItem, unknown_id, modify in *.
  destruct (globalConnectionsList s) as [map|] eqn:Em; simpl.
  - destruct H as [_ H]. f_equal.
    replace (tsm_held map ∖ {[id]}) with (tsm_held map) by set_solver.
    destruct s, map; simpl in *. inversion Em; subst. reflexivity.
  - f_equal. destruct s; simpl in *. subst. reflexivity.
Qed.

(** Every call of the facade on an identifier that is not registered
    returns its default and leaves the state as it was: 0 clients, no
    address, length 0, no message, write refused, no client, nothing
    closed; and neither worker does anything for it. *)
Theorem unknown_identifier_changes_nothing IP_NETWORK_LEGACY TSM_FIRST_ID id s :
  unknown_id s id ->
  AsyncIP_GetClientsNumber id s = Done 0 s
  /\ AsyncIP_GetAddress IP_NETWORK_LEGACY id s = Done None s
  /\ (forall messageLength_, AsyncIP_SetMessageLength id messageLength_ s = Done 0 s)
  /\ AsyncIP_ReadMessage id s = Done None s
  /\ (forall message, AsyncIP_WriteMessage id message s = Done false s)
  /\ AsyncIP_GetClient id s = Done IP_CONNECTION_INVALID_ID s
  /\ AsyncIP_CloseConnection IP_NETWORK_LEGACY id s = Done tt s
  /\ ReadToQueue IP_NETWORK_LEGACY TSM_FIRST_ID id s = Done tt s
  /\ (forall fuel, WriteFromQueue fuel id s = Done tt s).
Proof.
  intros H. pose proof (AcquireItem_unknown_id id s H) as Ha.
  pose proof (ReleaseItem_unknown_id id s H) as Hr.
  repeat split; intros;
    try (unfold AsyncIP_GetClientsNumber, AsyncIP_GetAddress, AsyncIP_SetMessageLength,
           AsyncIP_WriteMessage, AsyncIP_GetClient, AsyncIP_CloseConnection, ReadToQueue,
           WriteFromQueue;
         rewrite (bind_eq _ _ _ _ _ Ha); reflexivity).
  unfold AsyncIP_ReadMessage. rewrite (bind_eq _ _ _ _ _ Ha). rewrite bind_ret.
  rewrite (bind_eq _ _ _ _ _ Hr). reflexivity.
Qed.

(** Identifier 5 while one connection is registered under 0. *)
Lemma unknown_identifier_changes_nothing_witness :
  AsyncIP_GetClientsNumber 5 one_client_state = Done 0 one_client_state
  /\ AsyncIP_GetAddress false 5 one_client_state = Done None one_client_state
  /\ (forall messageLength_, AsyncIP_SetMessageLength 5 messageLength_ one_client_state = Done 0 one_client_state)
  /\ AsyncIP_ReadMessage 5 one_client_state = Done None one_client_state
  /\ (forall message, AsyncIP_WriteMessage 5 message one_client_state = Done false one_client_state)
  /\ AsyncIP_GetClient 5 one_client_state = Done IP_CONNECTION_INVALID_ID one_client_state
  /\ AsyncIP_CloseConnection false 5 one_client_state = Done tt one_client_state
  /\ ReadToQueue false 0 5 one_client_state = Done tt one_client_state
  /\ (forall fuel, WriteFromQueue fuel 5 one_client_state = Done tt one_client_state).
Proof.
  apply (unknown_identifier_changes_nothing false 0 5 one_client_state).
  - unfold unknown_id. rewrite one_client_state_registry. split; [evaluated|decided].
Defined.

(** * Closing through the facade *)

Lemma update_item_eq id f s map c :
  globalConnectionsList s = Some map ->
  tsm_items map !! id = Some c ->
  update_item id f s
  = Done tt (set_globalConnectionsList
               (Some {| tsm_items := <[id := f c]> (tsm_items map);
                        tsm_nextID := tsm_nextID map; tsm_held := tsm_held map |}) s).
Proof.
  intros Hm Hc. unfold update_item. rewrite bind_get. rewrite Hm. unfold must at 1.
  rewrite bind_ret. rewrite Hc. unfold must at 1. rewrite bind_ret. reflexivity.
Qed.

(** The state AsyncIP_CloseConnection leaves. *)
Lemma AsyncIP_CloseConnection_eq IP_NETWORK_LEGACY id s map c w' :
  globalConnectionsList s = Some map ->
  tsm_items map !! id = Some c ->
  id ∉ tsm_held map ->
  IP_CloseConnection IP_NETWORK_LEGACY (baseConnection c) (world s) = Done tt w' ->
  AsyncIP_CloseConnection IP_NETWORK_LEGACY id s
  = Done tt
      (if decide (delete id (tsm_items map) = ∅) then
         {| world := w';
            globalReadThread := Thread_WaitExit (globalReadThread s) false;
            globalWriteThread := Thread_WaitExit (globalWriteThread s) false;
            isNetworkRunning := false;
            globalConnectionsList := None;
            activeConnectionsNumber := activeConnectionsNumber s;
            messageData := messageData s |}
       else
         {| world := w';
            globalReadThread := globalReadThread s;
            globalWriteThread := globalWriteThread s;
            isNetworkRunning := isNetworkRunning s;
            globalConnectionsList :=
              Some {| tsm_items := delete id (tsm_items map); tsm_nextID := tsm_nextID map;
                      tsm_held := tsm_held map |};
            activeConnectionsNumber := activeConnectionsNumber s;
            messageData := messageData s |}).
Proof.
  intros Hm Hc Hheld Hclose. unfold AsyncIP_CloseConnection.
  rewrite (bind_eq _ _ _ _ _ (AcquireItem_free id s map c Hm Hc Hheld)).
  match goal with |- context [bind (in_world _) _ ?s1] =>
    rewrite (bind_eq _ _ _ _ _ (in_world_eq _ s1 tt w' Hclose)) end.
  match goal with |- context [bind (update_item _ _) _ ?s1] =>
    rewrite (bind_eq _ _ _ _ _ (update_item_eq id _ s1 _ c eq_refl Hc)) end.
  match goal with |- context [bind (update_item _ _) _ ?s1] =>
    rewrite (bind_eq _ _ _ _ _ (update_item_eq id _ s1 _ _ eq_refl (lookup_insert_eq _ _ _))) end.
  match goal with |- context [bind (update_item _ _) _ ?s1] =>
    rewrite (bind_eq _ _ _ _ _ (update_item_eq id _ s1 _ _ eq_refl (lookup_insert_eq _ _ _))) end.
  unfold ReleaseItem, RemoveItem. rewrite !bind_modify. rewrite bind_get. simpl.
  rewrite (held_restored id (tsm_held map) Hheld).
  rewrite bool_decide_eq_false_2 by exact Hheld. simpl.
  rewrite !insert_insert_eq. rewrite delete_insert_eq.
  destruct (decide (delete id (tsm_items map) = ∅)) as [He|Hne].
  - rewrite He. rewrite map_size_empty. simpl. reflexivity.
  - assert ((Z.of_nat (size (delete id (tsm_items map))) =? 0) = false) as ->.
    { apply Z.eqb_neq. intros H0. apply Hne. apply map_size_empty_iff. lia. }
    reflexivity.
Qed.

Lemma Thread_WaitExit_stopped handle : Thread_WaitExit handle false <> THREAD_RUNNING.
Proof. destruct handle; discriminate. Qed.



(** * What Open leaves behind *)

Ltac open_cases E :=
  unfold IP_OpenConnection, SetSocketConfig, BindTCPServerSocket, BindUDPServerSocket,
    BindServerSocket, ConnectTCPClientSocket, ConnectUDPClientSocket, configure,
    call_ok, close in E;
  unfold bind, get, gets, modify, ret in E;
  repeat (match goal with
          | H : context [match ?x with _ => _ end] |- _ => destruct x eqn:?
          | H : Done _ _ = Done _ _ |- _ => inversion H; subst; clear H
          | H : Done _ _ = Crash |- _ => discriminate H
          | H : Done _ _ = Hang |- _ => discriminate H
          | H : Crash = Done _ _ |- _ => discriminate H
          | H : Hang = Done _ _ |- _ => discriminate H
          | H : negb true = true |- _ => discriminate H
          | H : negb false = false |- _ => discriminate H
          end).

(** IP_OpenConnection that returns NULL has allocated no structure and
    subscribed no descriptor: heap, poll list and wire are as before. *)
Theorem failed_open_allocates_nothing IP_NETWORK_LEGACY connectionType host port w w' :
  IP_OpenConnection IP_NETWORK_LEGACY connectionType host port w = Done None w' ->
  nothing_allocated w w'.
Proof.
  intros E. open_cases E; repeat split.
Qed.

(** A TCP client whose connect fails. *)
Lemma failed_open_allocates_nothing_witness :
  nothing_allocated (initial_World unreachable_OS) (world_then (IP_OpenConnection false 0x12 (Some "10.0.0.1") 50000) (initial_World unreachable_OS)).
Proof.
  apply (failed_open_allocates_nothing
           false 0x12 (Some "10.0.0.1") 50000 (initial_World unreachable_OS) (world_then (IP_OpenConnection false 0x12 (Some "10.0.0.1") 50000) (initial_World unreachable_OS))).
  - evaluated.
Defined.

Lemma AddConnection_kind IP_NETWORK_LEGACY socketFD address transportProtocol networkRole
    w connection w' :
  AddConnection IP_NETWORK_LEGACY socketFD address transportProtocol networkRole w
  = Done connection w' ->
  connection = next_address w
  /\ exists c,
       heap w' !! connection = Some c
       /\ ref_Close c =
          (if networkRole =? IP_SERVER then
             if transportProtocol =? IP_TCP then fn_CloseTCPServer else fn_CloseUDPServer
           else if transportProtocol =? IP_TCP then fn_CloseTCPClient else fn_CloseUDPClient)
       /\ buffer c = (if networkRole =? IP_SERVER then None
                      else Some (replicate (Z.to_nat IP_MAX_MESSAGE_LENGTH) 0))
       /\ clientsList c = [] /\ ref_clientsCount c = 0.
Proof.
  intros E. unfold AddConnection in E.
  apply bind_Done in E as (w0 & w1 & E0 & E). minv E0.
  apply bind_Done in E as (sock & w2 & E1 & E).
  assert (next_address w2 = next_address w1) as Hnext.
  { destruct IP_NETWORK_LEGACY; minv E1; try reflexivity.
    all: repeat case_match; reflexivity. }
  unfold malloc in E. minv E. simpl. split; [exact Hnext|]. rewrite lookup_insert_eq.
  eexists. split; [reflexivity|].
  destruct (networkRole =? IP_SERVER); simpl; repeat split; reflexivity.
Qed.

(** IP_OpenConnection returns a connection for the four type bytes only,
    and only for a port of the dynamic range.  Every other structure is as
    it was; the one returned carries the address LoadAddressInfo resolved
    and the message length IP_MAX_MESSAGE_LENGTH, belongs to no server, has
    no client list (and, for a server, the count 0), and is a server
    exactly when the role bits say so. *)
Theorem successful_open_result IP_NETWORK_LEGACY connectionType host port w connection w' :
  IP_OpenConnection IP_NETWORK_LEGACY connectionType host port w = Done (Some connection) w' ->
  49152 <= port
  /\ (connectionType = 0x11 \/ connectionType = 0x21
      \/ connectionType = 0x12 \/ connectionType = 0x22)
  /\ (forall p, p <> connection -> heap w' !! p = heap w !! p)
  /\ exists c,
       heap w' !! connection = Some c
       /\ LoadAddressInfo IP_NETWORK_LEGACY (os w) host (pretty port)
            (Z.land connectionType 0x0F) = Some (addressData c)
       /\ messageLength c = IP_MAX_MESSAGE_LENGTH
       /\ server c = None
       /\ clientsList c = []
       /\ (Z.land connectionType 0x0F = IP_SERVER -> ref_clientsCount c = 0)
       /\ IP_IsServer (Some connection) w'
          = Done (bool_decide (Z.land connectionType 0x0F = IP_SERVER)) w'.
Proof.
  intros E. open_cases E.
  all: match goal with H : (_ <? 49152) = false |- _ => apply Z.ltb_ge in H end.
  all: match goal with H : AddConnection _ _ _ _ _ _ = Done _ _ |- _ =>
         destruct (AddConnection_result _ _ _ _ _ _ _ _ H) as (c & Hc & Hlen & Haddr & Hserver & _ & Hother);
         destruct (AddConnection_kind _ _ _ _ _ _ _ _ H) as (_ & c' & Hc' & Hclose & _ & Hlist & Hcount)
       end.
  all: rewrite Hc in Hc'; inversion Hc'; subst c'; clear Hc'.
  all: repeat match goal with
              | H : (?x =? _) = true |- _ => apply Z.eqb_eq in H; subst x
              end.
  all: (split; [assumption|]).
  all: (split; [vm_compute; tauto|]).
  all: (split; [exact Hother|]).
  all: exists c.
  all: (split; [exact Hc|]).
  all: (split; [congruence|]).
  all: (split; [exact Hlen|]). all: (split; [exact Hserver|]).
  all: (split; [exact Hlist|]). all: (split; [intros _; exact Hcount|]).
  all: unfold IP_IsServer; rewrite (bind_eq _ _ _ _ _ (deref_eq _ _ _ Hc)); rewrite Hclose.
  all: reflexivity.
Qed.

(** A TCP client towards 10.0.0.1. *)
Lemma successful_open_result_witness :
  49152 <= 50000
  /\ (0x12 = 0x11 \/ 0x12 = 0x21
      \/ 0x12 = 0x12 \/ 0x12 = 0x22)
  /\ (forall p, p <> 1 -> heap (world one_client_state) !! p = heap (initial_World client_OS) !! p)
  /\ exists c,
       heap (world one_client_state) !! 1 = Some c
       /\ LoadAddressInfo false (os (initial_World client_OS)) (Some "10.0.0.1") (pretty 50000)
            (Z.land 0x12 0x0F) = Some (addressData c)
       /\ messageLength c = IP_MAX_MESSAGE_LENGTH
       /\ server c = None
       /\ clientsList c = []
       /\ (Z.land 0x12 0x0F = IP_SERVER -> ref_clientsCount c = 0)
       /\ IP_IsServer (Some 1) (world one_client_state)
          = Done (bool_decide (Z.land 0x12 0x0F = IP_SERVER)) (world one_client_state).
Proof.
  apply (successful_open_result
           false 0x12 (Some "10.0.0.1") 50000 (initial_World client_OS) 1 (world one_client_state)).
  - evaluated.
Defined.

(** * What a send transmits *)

Lemma only_wire_grows_refl w : only_wire_grows w w [].
Proof. repeat split. rewrite app_nil_r. reflexivity. Qed.

Lemma only_wire_grows_trans w1 w2 w3 a b :
  only_wire_grows w1 w2 a -> only_wire_grows w2 w3 b -> only_wire_grows w1 w3 (a ++ b).
Proof.
  intros (H1 & H2 & H3 & H4 & H5) (G1 & G2 & G3 & G4 & G5).
  repeat split; try congruence. rewrite G5, H5, app_assoc. reflexivity.
Qed.

Lemma socket_fd_only_wire s w w' sent a :
  only_wire_grows w w' sent -> socket_fd s w = Done a w -> socket_fd s w' = Done a w'.
Proof.
  intros (_ & Hp & _). destruct s as [i|f]; simpl; [|intros [= <-]; reflexivity].
  unfold bind, get, must, ret. rewrite Hp.
  destruct (fd <$> polledSocketsList w !! i); [|discriminate]. intros [= <-]. reflexivity.
Qed.

Lemma socket_fd_state s w a w' : socket_fd s w = Done a w' -> w' = w.
Proof.
  destruct s as [i|f]; simpl; [|intros [= _ <-]; reflexivity].
  unfold bind, get, must, ret.
  destruct (fd <$> polledSocketsList w !! i); [|discriminate]. intros [= _ <-]. reflexivity.
Qed.

Lemma transmitted_only_wire w w' sent message cell :
  only_wire_grows w w' sent -> sendable w (default 0 cell) \/ cell = None ->
  transmitted w' message cell = transmitted w message cell.
Proof.
  intros Hw Hcell. destruct cell as [client|]; [|reflexivity].
  destruct Hcell as [(c & f & Hc & Hf & _)|]; [|discriminate]. simpl in Hc.
  unfold transmitted. destruct Hw as (Hh & Hp & Hs & Hi & Hwire) eqn:E.
  rewrite Hh, Hc. destruct (strlen message + 1 >? messageLength c); [reflexivity|].
  rewrite Hf, (socket_fd_only_wire _ _ _ _ _ (conj Hh (conj Hp (conj Hs (conj Hi Hwire)))) Hf).
  rewrite Hs. reflexivity.
Qed.

(** One client: IP_SendMessage transmits what [transmitted] says and
    returns 0 or -1. *)
Lemma client_send_transmits fuel w client message :
  sendable w client ->
  exists r w',
    IP_SendMessage fuel client message w = Done r w'
    /\ only_wire_grows w w' (transmitted w message (Some client))
    /\ (r = 0 \/ r = -1).
Proof.
  intros (c & f & Hc & Hf & Hm). unfold transmitted. rewrite Hc, Hf.
  assert (IP_SendMessage fuel client message w =
          if strlen message + 1 >? messageLength c then Done 0 w
          else match ref_SendMessage c with
               | fn_SendTCPMessage => SendTCPMessage client message w
               | fn_SendUDPMessage => SendUDPMessage client message w
               | fn_SendMessageAll => IP_SendMessage fuel client message w
               end) as ->.
  { destruct fuel; simpl; rewrite (bind_eq _ _ _ _ _ (deref_eq _ _ _ Hc));
      destruct (strlen message + 1 >? messageLength c); try reflexivity;
      destruct (ref_SendMessage c); try reflexivity; contradiction. }
  destruct (strlen message + 1 >? messageLength c).
  { exists 0, w. split; [reflexivity|]. split; [apply only_wire_grows_refl|left; reflexivity]. }
  unfold sent_record.
  destruct (ref_SendMessage c) eqn:Em; [| |contradiction].
  - unfold SendTCPMessage.
    rewrite (bind_eq _ _ _ _ _ (deref_eq _ _ _ Hc)), (bind_eq _ _ _ _ _ Hf).
    unfold sys, bind, get, modify, ret, os_send.
    destruct (os_send_ok (os w) f); simpl; eexists _, _; (split; [reflexivity|]).
    + split; [repeat split|left; reflexivity].
    + split; [repeat split; simpl; rewrite app_nil_r; reflexivity|right; reflexivity].
  - unfold SendUDPMessage.
    rewrite (bind_eq _ _ _ _ _ (deref_eq _ _ _ Hc)), (bind_eq _ _ _ _ _ Hf).
    unfold sys, bind, get, modify, ret, os_send.
    destruct (os_send_ok (os w) f); simpl; eexists _, _; (split; [reflexivity|]).
    + split; [repeat split|left; reflexivity].
    + split; [repeat split; simpl; rewrite app_nil_r; reflexivity|right; reflexivity].
Qed.

Lemma sendable_only_wire w w' sent client :
  only_wire_grows w w' sent -> sendable w client -> sendable w' client.
Proof.
  intros Hs (c & f & Hc & Hf & Hm). exists c, f. split; [|split; [|exact Hm]].
  - destruct Hs as [-> _]. exact Hc.
  - eapply socket_fd_only_wire; eassumption.
Qed.

Lemma broadcast_loop_transmits fuel0 connection s message w0 :
  forall (n : nat) (fuel : nat) clientIndex w sent,
    heap w0 !! connection = Some s ->
    clients_sendable w0 s ->
    only_wire_grows w0 w sent ->
    0 <= clientIndex ->
    Z.to_nat (ref_clientsCount s - clientIndex) = n ->
    (n <= fuel)%nat ->
    exists w',
      SendMessageAll_loop (IP_SendMessage fuel0) fuel connection message
        (ref_clientsCount s) clientIndex w = Done 0 w'
      /\ only_wire_grows w0 w'
           (sent ++ flat_map (transmitted w0 message)
                      (drop (Z.to_nat clientIndex)
                         (take (Z.to_nat (ref_clientsCount s)) (clientsList s)))).
Proof.
  induction n as [|n IH]; intros fuel clientIndex w sent Hs Hc Hw Hi Hn Hfuel.
  - exists w.
    assert ((clientIndex <? ref_clientsCount s) = false) as E by (apply Z.ltb_ge; lia).
    split; [destruct fuel; simpl; rewrite E; reflexivity|].
    rewrite drop_ge by (rewrite length_take; lia). simpl. rewrite app_nil_r. exact Hw.
  - destruct fuel as [|fuel]; [lia|]. simpl.
    assert ((clientIndex <? ref_clientsCount s) = true) as E by (apply Z.ltb_lt; lia).
    rewrite E.
    assert (heap w !! connection = Some s) as Hs' by (destruct Hw as [-> _]; exact Hs).
    rewrite (bind_eq _ _ _ _ _ (deref_eq _ _ _ Hs')).
    destruct Hc as [Hcount Hcells].
    destruct (Hcells (Z.to_nat clientIndex)) as (client & Hcell & Hsendable); [lia|].
    rewrite Hcell. unfold must at 1. unfold bind at 1, ret at 1.
    pose proof (sendable_only_wire _ _ _ _ Hw Hsendable) as Hsendable'.
    destruct (client_send_transmits fuel0 w client message Hsendable')
      as (r & w1 & Er & Hgrow & _).
    rewrite (bind_eq _ _ _ _ _ Er).
    rewrite (transmitted_only_wire w0 w sent message (Some client) Hw (or_introl Hsendable))
      in Hgrow.
    pose proof (only_wire_grows_trans _ _ _ _ _ Hw Hgrow) as Hw1.
    destruct (IH fuel (clientIndex + 1) w1 _ Hs (conj Hcount Hcells) Hw1) as (w' & E' & Hw');
      try lia.
    exists w'. split; [exact E'|].
    assert (drop (Z.to_nat clientIndex) (take (Z.to_nat (ref_clientsCount s)) (clientsList s))
            = Some client :: drop (Z.to_nat (clientIndex + 1))
                               (take (Z.to_nat (ref_clientsCount s)) (clientsList s))) as ->.
    { replace (Z.to_nat (clientIndex + 1)) with (S (Z.to_nat clientIndex)) by lia.
      apply drop_S. rewrite lookup_take_lt by lia. exact Hcell. }
    cbn [flat_map]. rewrite app_assoc. exact Hw'.
Qed.

(** The broadcast reaches every client once.  IP_SendMessage on a server
    none of whose first clientsCount cells is vacated returns 0 and changes
    nothing but the wire.  A message too long for the server's own bound
    is sent to nobody; otherwise the wire receives, in the order of the
    client list, what IP_SendMessage transmits for each client on its own:
    one record of that client's messageLength bytes, or nothing for a
    client whose bound is too small for the message or whose send fails.  A
    failed send does not keep the later clients from being served. *)
Theorem broadcast_reaches_every_client server s message w :
  heap w !! server = Some s ->
  ref_SendMessage s = fn_SendMessageAll ->
  clients_sendable w s ->
  exists w',
    IP_SendMessage (S (Z.to_nat (ref_clientsCount s))) server message w = Done 0 w'
    /\ only_wire_grows w w'
         (if strlen message + 1 >? messageLength s then []
          else flat_map (transmitted w message)
                 (take (Z.to_nat (ref_clientsCount s)) (clientsList s))).
Proof.
  intros Hs Hall Hc. cbn [IP_SendMessage].
  rewrite (bind_eq _ _ _ _ _ (deref_eq _ _ _ Hs)), Hall.
  destruct (strlen message + 1 >? messageLength s).
  { exists w. split; [reflexivity|apply only_wire_grows_refl]. }
  destruct (broadcast_loop_transmits (Z.to_nat (ref_clientsCount s)) server s message w
              (Z.to_nat (ref_clientsCount s)) (Z.to_nat (ref_clientsCount s)) 0 w []
              Hs Hc (only_wire_grows_refl w) ltac:(lia) ltac:(f_equal; lia) ltac:(lia))
    as (w' & E & Hw).
  exists w'. split; [exact E|exact Hw].
Qed.

(** A UDP server with two pseudo-clients broadcasts one byte. *)
Lemma broadcast_reaches_every_client_witness :
  exists w',
    IP_SendMessage (S (Z.to_nat (ref_clientsCount (structure_of two_served_world 1)))) 1 [120] two_served_world = Done 0 w'
    /\ only_wire_grows two_served_world w'
         (if strlen [120] + 1 >? messageLength (structure_of two_served_world 1) then []
          else flat_map (transmitted two_served_world [120])
                 (take (Z.to_nat (ref_clientsCount (structure_of two_served_world 1))) (clientsList (structure_of two_served_world 1)))).
Proof.
  apply (broadcast_reaches_every_client
           1 (structure_of two_served_world 1) [120] two_served_world).
  - evaluated.
  - evaluated.
  - exact (proj1 two_served_clients_sendable).
Defined.

(** * The workers and the queues *)

Ltac monad_norm :=
  repeat (rewrite bind_assoc || rewrite bind_ret || rewrite bind_get || rewrite bind_modify).

Lemma TSQueue_eta (queue : TSQueue) :
  {| tsq_maxLength := tsq_maxLength queue; tsq_itemSize := tsq_itemSize queue;
     tsq_items := tsq_items queue |} = queue.
Proof. destruct queue; reflexivity. Qed.

(** A message written to an idle connection is what the writer sends next.
    AsyncIP_WriteMessage on a registered connection whose write queue is
    empty returns true without touching the synchronous layer, and the
    following step of the writer calls IP_SendMessage with the first
    IP_MAX_MESSAGE_LENGTH bytes of the message, on the world as it was.  The
    write queue is empty again; the connection stays registered unless the
    send returned -1, in which case it is removed from the registry, no
    other entry being touched. *)
Theorem written_message_is_sent_by_the_writer fuel id s map e connection message sent w' :
  globalConnectionsList s = Some map ->
  tsm_items map !! id = Some e ->
  id ∉ tsm_held map ->
  baseConnection e = Some connection ->
  tsq_items (writeQueue e) = [] ->
  0 < tsq_maxLength (writeQueue e) ->
  IP_SendMessage fuel connection (take (Z.to_nat IP_MAX_MESSAGE_LENGTH) message) (world s)
  = Done sent w' ->
  exists s1 s2 map2,
    AsyncIP_WriteMessage id message s = Done true s1
    /\ world s1 = world s
    /\ WriteFromQueue fuel id s1 = Done tt s2
    /\ world s2 = w'
    /\ globalConnectionsList s2 = Some map2
    /\ tsm_held map2 = tsm_held map
    /\ tsm_items map2 = if sent =? -1 then delete id (tsm_items map) else tsm_items map.
Proof.
  intros Hm He Hheld Hbase Hq Hmax Hsend.
  set (m := take (Z.to_nat IP_MAX_MESSAGE_LENGTH) message) in *.
  set (queue1 := {| tsq_maxLength := tsq_maxLength (writeQueue e);
                    tsq_itemSize := tsq_itemSize (writeQueue e);
                    tsq_items := [SlotMessage m] |}).
  set (e1 := set_writeQueue queue1 e).
  set (map1 := {| tsm_items := <[id := e1]> (tsm_items map); tsm_nextID := tsm_nextID map;
                  tsm_held := tsm_held map |}).
  set (s1 := set_globalConnectionsList (Some map1) s).
  assert (AsyncIP_WriteMessage id message s = Done true s1) as Hwrite.
  { unfold AsyncIP_WriteMessage.
    rewrite (bind_eq _ _ _ _ _ (AcquireItem_free id s map e Hm He Hheld)).
    unfold TSQ_Enqueue, TSQ_GetItemsCount. rewrite Hq. cbn [length app].
    assert ((Z.of_nat 0 <? tsq_maxLength (writeQueue e)) = true) as ->
      by (apply Z.ltb_lt; lia).
    unfold blocking at 1. rewrite bind_ret. fold m queue1.
    match goal with |- context [bind (update_item _ _) _ ?s0] =>
      rewrite (bind_eq _ _ _ _ _ (update_item_eq id _ s0 _ e eq_refl He)) end.
    unfold ReleaseItem. rewrite bind_modify. cbn.
    rewrite (held_restored id (tsm_held map) Hheld). reflexivity. }
  assert (tsm_items map1 !! id = Some e1) as He1 by (simpl; apply lookup_insert_eq).
  assert (~ id ∈ tsm_held map1) as Hheld1 by exact Hheld.
  set (e2 := set_writeQueue {| tsq_maxLength := tsq_maxLength (writeQueue e);
                               tsq_itemSize := tsq_itemSize (writeQueue e);
                               tsq_items := [] |} e1).
  assert (e2 = e) as He2.
  { unfold e2, e1, set_writeQueue. simpl. rewrite <- Hq, TSQueue_eta. destruct e; reflexivity. }
  assert (exists s2,
            WriteFromQueue fuel id s1 = Done tt s2
            /\ world s2 = w'
            /\ globalConnectionsList s2
               = Some {| tsm_items := if sent =? -1 then delete id (tsm_items map)
                                      else tsm_items map;
                         tsm_nextID := tsm_nextID map; tsm_held := tsm_held map |})
    as (s2 & Hstep & Hworld & Hlist).
  { unfold WriteFromQueue.
    rewrite (bind_eq _ _ _ _ _ (AcquireItem_free id s1 map1 e1 eq_refl He1 Hheld1)).
    change (TSQ_GetItemsCount (writeQueue e1) =? 0) with false. cbv iota.
    unfold TSQ_Dequeue. change (tsq_items (writeQueue e1)) with [SlotMessage m]. cbv iota.
    unfold blocking at 1. rewrite bind_ret.
    match goal with |- context [bind (update_item _ _) _ ?s0] =>
      rewrite (bind_eq _ _ _ _ _ (update_item_eq id _ s0 _ e1 eq_refl He1)) end.
    change (baseConnection e1) with (baseConnection e). rewrite Hbase.
    unfold must at 1. rewrite bind_ret. cbn [from_option slot_bytes].
    match goal with |- context [bind (in_world _) _ ?s0] =>
      rewrite (bind_eq _ _ _ _ _ (in_world_eq _ s0 sent w' Hsend)) end.
    change (set_writeQueue _ e1) with e2. rewrite He2. cbn [tsm_items tsm_nextID tsm_held map1].
    rewrite insert_insert_eq, (insert_id _ _ _ He).
    destruct (sent =? -1).
    - unfold ReleaseItem, RemoveItem. rewrite bind_modify. unfold modify.
      eexists. split; [reflexivity|]. cbn.
      rewrite (held_restored id (tsm_held map) Hheld).
      rewrite bool_decide_eq_false_2 by exact Hheld. split; reflexivity.
    - unfold ReleaseItem, modify. eexists. split; [reflexivity|]. cbn.
      rewrite (held_restored id (tsm_held map) Hheld). split; reflexivity. }
  eexists s1, s2, _. split; [exact Hwrite|]. split; [reflexivity|].
  split; [exact Hstep|]. split; [exact Hworld|]. split; [exact Hlist|].
  split; reflexivity.
Qed.

(** One byte written to the TCP client of the facade. *)
Lemma written_message_is_sent_by_the_writer_witness :
  exists s1 s2 map2,
    AsyncIP_WriteMessage 0 [120] one_client_state = Done true s1
    /\ world s1 = world one_client_state
    /\ WriteFromQueue 0%nat 0 s1 = Done tt s2
    /\ world s2 = (world (state_after false 0 client_OS successful_send_trace))
    /\ globalConnectionsList s2 = Some map2
    /\ tsm_held map2 = tsm_held (registry_of one_client_state)
    /\ tsm_items map2 = if 0 =? -1 then delete 0 (tsm_items (registry_of one_client_state)) else tsm_items (registry_of one_client_state).
Proof.
  apply (written_message_is_sent_by_the_writer
           0%nat 0 one_client_state (registry_of one_client_state) (entry_of one_client_state 0) 1 [120] 0 (world (state_after false 0 client_OS successful_send_trace))).
  - evaluated.
  - evaluated.
  - decided.
  - evaluated.
  - evaluated.
  - evaluated.
  - evaluated.
Defined.

Lemma unsigned_long_round_trip (n : Z) :
  0 <= n < 2 ^ 64 -> unsigned_long_of_bytes (unsigned_long_bytes n) = n.
Proof.
  intros Hn. unfold unsigned_long_of_bytes, unsigned_long_bytes, SIZEOF_UNSIGNED_LONG.
  change (seqZ 0 8) with [0; 1; 2; 3; 4; 5; 6; 7].
  cbn [fmap list_fmap take foldr Z.to_nat Pos.to_nat Pos.iter_op Init.Nat.add].
  change (8 * 0) with 0. change (8 * 1) with 8. change (8 * 2) with 16.
  change (8 * 3) with 24. change (8 * 4) with 32. change (8 * 5) with 40.
  change (8 * 6) with 48. change (8 * 7) with 56.
  change (2 ^ 0) with 1. change (2 ^ 8) with 256. change (2 ^ 16) with 65536.
  change (2 ^ 24) with 16777216. change (2 ^ 32) with 4294967296.
  change (2 ^ 40) with 1099511627776. change (2 ^ 48) with 281474976710656.
  change (2 ^ 56) with 72057594037927936. change (2 ^ 64) with 18446744073709551616 in Hn.
  change (Z.to_nat 8) with 8%nat. cbn [take foldr]. rewrite Z.div_1_r.
  replace (n / 65536) with (n / 256 / 256) by (rewrite Z.div_div by lia; reflexivity).
  replace (n / 16777216) with (n / 256 / 256 / 256)
    by (rewrite !Z.div_div by lia; reflexivity).
  replace (n / 4294967296) with (n / 256 / 256 / 256 / 256)
    by (rewrite !Z.div_div by lia; reflexivity).
  replace (n / 1099511627776) with (n / 256 / 256 / 256 / 256 / 256)
    by (rewrite !Z.div_div by lia; reflexivity).
  replace (n / 281474976710656) with (n / 256 / 256 / 256 / 256 / 256 / 256)
    by (rewrite !Z.div_div by lia; reflexivity).
  replace (n / 72057594037927936) with (n / 256 / 256 / 256 / 256 / 256 / 256 / 256)
    by (rewrite !Z.div_div by lia; reflexivity).
  assert (n / 256 / 256 / 256 / 256 / 256 / 256 / 256 / 256 = 0) as Htop
    by (rewrite !Z.div_div by lia; apply Z.div_small; lia).
  Z.div_mod_to_equations. lia.
Qed.

Lemma is_server_live w connection :
  is_server w connection = true -> forall p, connection = Some p -> is_Some (heap w !! p).
Proof.
  intros H p ->. unfold is_server in H. destruct (heap w !! p); [eauto|discriminate].
Qed.

Lemma AsyncIP_GetClient_eq id s map e item rest :
  globalConnectionsList s = Some map ->
  tsm_items map !! id = Some e ->
  id ∉ tsm_held map ->
  is_server (world s) (baseConnection e) = true ->
  tsq_items (readQueue e) = item :: rest ->
  AsyncIP_GetClient id s
  = Done (unsigned_long_of_bytes (slot_bytes item))
      (set_globalConnectionsList
         (Some {| tsm_items :=
                    <[id := set_readQueue
                              {| tsq_maxLength := tsq_maxLength (readQueue e);
                                 tsq_itemSize := tsq_itemSize (readQueue e);
                                 tsq_items := rest |} e]> (tsm_items map);
                  tsm_nextID := tsm_nextID map; tsm_held := tsm_held map |}) s).
Proof.
  intros Hm He Hheld Hserver Hq. unfold AsyncIP_GetClient.
  rewrite (bind_eq _ _ _ _ _ (AcquireItem_free id s map e Hm He Hheld)).
  match goal with |- context [bind (in_world _) _ ?s0] =>
    rewrite (bind_eq _ _ _ _ _
               (in_world_IP_IsServer (baseConnection e) s0 (is_server_live _ _ Hserver)))
  end.
  cbn [world set_globalConnectionsList]. rewrite Hserver.
  unfold TSQ_GetItemsCount, TSQ_Dequeue. rewrite Hq. cbn [length].
  assert ((Z.of_nat (S (length rest)) >? 0) = true) as -> by (apply Z.gtb_lt; lia).
  unfold blocking at 1. rewrite bind_assoc, bind_ret, bind_assoc.
  match goal with |- context [bind (update_item _ _) _ ?s0] =>
    rewrite (bind_eq _ _ _ _ _ (update_item_eq id _ s0 _ e eq_refl He)) end.
  rewrite bind_ret. unfold ReleaseItem. rewrite bind_modify. cbn.
  rewrite (held_restored id (tsm_held map) Hheld). reflexivity.
Qed.

(** AsyncIP_GetClient hands out the identifiers of accepted clients oldest
    first.  On a registered server whose read queue starts with the
    identifier [client] the call returns it (the eight bytes of the queue
    cell read back as an unsigned long) and takes it off the queue, the
    world and the other entries staying as they were; with an empty read
    queue it returns IP_CONNECTION_INVALID_ID and changes nothing. *)
Theorem AsyncIP_GetClient_returns_oldest_identifier id s map e :
  globalConnectionsList s = Some map ->
  tsm_items map !! id = Some e ->
  id ∉ tsm_held map ->
  is_server (world s) (baseConnection e) = true ->
  (forall client rest,
     tsq_items (readQueue e) = SlotID client :: rest ->
     0 <= client < 2 ^ 64 ->
     exists s' map' e',
       AsyncIP_GetClient id s = Done client s'
       /\ world s' = world s
       /\ globalConnectionsList s' = Some map'
       /\ tsm_items map' !! id = Some e'
       /\ tsq_items (readQueue e') = rest
       /\ baseConnection e' = baseConnection e
       /\ writeQueue e' = writeQueue e
       /\ forall other, other <> id -> tsm_items map' !! other = tsm_items map !! other)
  /\ (tsq_items (readQueue e) = [] ->
      AsyncIP_GetClient id s = Done IP_CONNECTION_INVALID_ID s).
Proof.
  intros Hm He Hheld Hserver. split.
  - intros client rest Hq Hrange.
    pose proof (AsyncIP_GetClient_eq id s map e _ rest Hm He Hheld Hserver Hq) as E.
    cbn [slot_bytes] in E. rewrite (unsigned_long_round_trip client Hrange) in E.
    eexists _, _, _. split; [exact E|]. split; [reflexivity|]. split; [reflexivity|].
    cbn. split; [apply lookup_insert_eq|]. split; [reflexivity|]. split; [reflexivity|].
    split; [reflexivity|]. intros other Hne. rewrite lookup_insert_ne by congruence.
    reflexivity.
  - intros Hq. unfold AsyncIP_GetClient.
    rewrite (bind_eq _ _ _ _ _ (AcquireItem_free id s map e Hm He Hheld)).
    match goal with |- context [bind (in_world _) _ ?s0] =>
      rewrite (bind_eq _ _ _ _ _
                 (in_world_IP_IsServer (baseConnection e) s0 (is_server_live _ _ Hserver)))
    end.
    cbn [world set_globalConnectionsList]. rewrite Hserver.
    unfold TSQ_GetItemsCount. rewrite Hq. change (Z.of_nat (length []) >? 0) with false.
    cbv iota. rewrite bind_ret. unfold ReleaseItem. rewrite bind_modify. cbn.
    rewrite (held_restored id (tsm_held map) Hheld).
    f_equal. destruct s; simpl in *. rewrite Hm. destruct map; reflexivity.
Qed.

(** The UDP server of the facade after its reader accepted one pseudo-client. *)
Lemma AsyncIP_GetClient_returns_oldest_identifier_witness :
  (forall client rest,
     tsq_items (readQueue (entry_of served_state 0)) = SlotID client :: rest ->
     0 <= client < 2 ^ 64 ->
     exists s' map' e',
       AsyncIP_GetClient 0 served_state = Done client s'
       /\ world s' = world served_state
       /\ globalConnectionsList s' = Some map'
       /\ tsm_items map' !! 0 = Some e'
       /\ tsq_items (readQueue e') = rest
       /\ baseConnection e' = baseConnection (entry_of served_state 0)
       /\ writeQueue e' = writeQueue (entry_of served_state 0)
       /\ forall other, other <> 0 -> tsm_items map' !! other = tsm_items (registry_of served_state) !! other)
  /\ (tsq_items (readQueue (entry_of served_state 0)) = [] ->
      AsyncIP_GetClient 0 served_state = Done IP_CONNECTION_INVALID_ID served_state).
Proof.
  apply (AsyncIP_GetClient_returns_oldest_identifier
           0 served_state (registry_of served_state) (entry_of served_state 0)).
  - evaluated.
  - evaluated.
  - decided.
  - evaluated.
Defined.

Lemma IP_GetAddress_live IP_NETWORK_LEGACY client w address w' :
  IP_GetAddress IP_NETWORK_LEGACY (Some client) w = Done address w' ->
  is_Some (heap w !! client).
Proof.
  unfold IP_GetAddress, deref, bind, get, must. destruct (heap w !! client); [eauto|discriminate].
Qed.

(** The reader's step on a server with a connection to accept.  When the
    synchronous layer reports input on a registered server, accepts the
    client [client] and names its address, ReadToQueue registers the client
    under the next identifier of the registry with two empty queues, and
    appends that identifier to the read queue of the server, which is
    released; the world is the one IP_AcceptClient left.  Asked on an
    empty queue, the next AsyncIP_GetClient on the server returns that very
    identifier. *)
Theorem reader_registers_accepted_client IP_NETWORK_LEGACY TSM_FIRST_ID id s map e listener
    client address w1 :
  globalConnectionsList s = Some map ->
  tsm_items map !! id = Some e ->
  id ∉ tsm_held map ->
  tsm_nextID map <> id ->
  baseConnection e = Some listener ->
  tsq_maxLength (readQueue e) = QUEUE_MAX_ITEMS ->
  TSQ_GetItemsCount (readQueue e) < QUEUE_MAX_ITEMS ->
  is_server (world s) (Some listener) = true ->
  IP_IsDataAvailable IP_NETWORK_LEGACY (Some listener) (world s) = Done true (world s) ->
  IP_AcceptClient IP_NETWORK_LEGACY listener (world s) = Done (Some client) w1 ->
  IP_GetAddress IP_NETWORK_LEGACY (Some client) w1 = Done (Some address) w1 ->
  exists s1 map1 e1 registered_client,
    ReadToQueue IP_NETWORK_LEGACY TSM_FIRST_ID id s = Done tt s1
    /\ world s1 = w1
    /\ globalConnectionsList s1 = Some map1
    /\ tsm_held map1 = tsm_held map
    /\ tsm_nextID map1 = tsm_nextID map + 1
    /\ tsm_items map1 !! tsm_nextID map = Some registered_client
    /\ baseConnection registered_client = Some client
    /\ tsq_items (readQueue registered_client) = []
    /\ tsq_items (writeQueue registered_client) = []
    /\ tsm_items map1 !! id = Some e1
    /\ tsq_items (readQueue e1) = tsq_items (readQueue e) ++ [SlotID (tsm_nextID map)]
    /\ (forall other, other <> id -> other <> tsm_nextID map ->
                      tsm_items map1 !! other = tsm_items map !! other)
    /\ (tsq_items (readQueue e) = [] ->
        0 <= tsm_nextID map < 2 ^ 64 ->
        is_server w1 (Some listener) = true ->
        exists s2, AsyncIP_GetClient id s1 = Done (tsm_nextID map) s2).
Proof.
  intros Hm He Hheld Hne Hbase Hcap Hcount Hserver Havail Haccept Haddr.
  pose proof (IP_GetAddress_live _ _ _ _ _ Haddr) as Hlive.
  set (newID := tsm_nextID map) in *.
  set (new := {| baseConnection := Some client;
                 readQueue := TSQ_Create QUEUE_MAX_ITEMS
                                (if negb (is_server w1 (Some client))
                                 then IP_MAX_MESSAGE_LENGTH else SIZEOF_UNSIGNED_LONG);
                 writeQueue := TSQ_Create QUEUE_MAX_ITEMS IP_MAX_MESSAGE_LENGTH |}).
  set (queue1 := {| tsq_maxLength := tsq_maxLength (readQueue e);
                    tsq_itemSize := tsq_itemSize (readQueue e);
                    tsq_items := tsq_items (readQueue e) ++ [SlotID newID] |}).
  set (map1 := {| tsm_items := <[id := set_readQueue queue1 e]> (<[newID := new]> (tsm_items map));
                  tsm_nextID := newID + 1; tsm_held := tsm_held map |}).
  set (s1 := set_globalConnectionsList (Some map1) (set_world w1 s)).
  assert (ReadToQueue IP_NETWORK_LEGACY TSM_FIRST_ID id s = Done tt s1) as Hstep.
  { unfold ReadToQueue.
    rewrite (bind_eq _ _ _ _ _ (AcquireItem_free id s map e Hm He Hheld)).
    assert ((TSQ_GetItemsCount (readQueue e) >=? QUEUE_MAX_ITEMS) = false) as ->
      by (rewrite Z.geb_leb; apply Z.leb_gt; lia).
    rewrite Hbase.
    match goal with |- context [bind (in_world _) _ ?s0] =>
      rewrite (bind_eq _ _ _ _ _ (in_world_same _ s0 true Havail)) end.
    match goal with |- context [bind (in_world (IP_IsServer _)) _ ?s0] =>
      rewrite (bind_eq _ _ _ _ _
                 (in_world_IP_IsServer (Some listener) s0 (is_server_live _ _ Hserver)))
    end.
    cbn [world set_globalConnectionsList]. rewrite Hserver.
    unfold must at 1. rewrite bind_ret.
    match goal with |- context [bind (in_world _) _ ?s0] =>
      rewrite (bind_eq _ _ _ _ _ (in_world_eq _ s0 (Some client) w1 Haccept)) end.
    match goal with |- context [bind (in_world _) _ ?s0] =>
      rewrite (bind_eq _ _ _ _ _ (in_world_same _ s0 (Some address) Haddr)) end.
    unfold ReleaseItem. rewrite bind_modify.
    unfold AddAsyncConnection. monad_norm.
    cbn [globalConnectionsList set_globalConnectionsList set_world TSM_ReleaseItem].
    monad_norm.
    match goal with |- context [bind (in_world (IP_IsServer _)) _ ?s0] =>
      rewrite (bind_eq _ _ _ _ _
                 (in_world_IP_IsServer (Some client) s0
                    ltac:(intros p [= <-]; exact Hlive)))
    end.
    monad_norm.
    cbn [globalConnectionsList set_globalConnectionsList set_world world].
    unfold must at 1. monad_norm. unfold TSM_SetItem.
    cbn [tsm_items tsm_nextID tsm_held]. monad_norm.
    fold newID new. rewrite (held_restored id (tsm_held map) Hheld).
    unfold enqueue_read, read_item. monad_norm.
    cbn [globalConnectionsList set_globalConnectionsList set_world world].
    unfold must at 1. monad_norm. cbn [tsm_items].
    rewrite lookup_insert_ne by exact Hne. rewrite He.
    unfold must at 1. monad_norm.
    unfold TSQ_Enqueue. rewrite Hcap.
    assert ((TSQ_GetItemsCount (readQueue e) <? QUEUE_MAX_ITEMS) = true) as ->
      by (apply Z.ltb_lt; lia).
    unfold blocking at 1. monad_norm. rewrite <- Hcap. fold queue1.
    match goal with |- update_item _ _ ?s0 = _ =>
      rewrite (update_item_eq id _ s0 _ e eq_refl
                 ltac:(cbn [tsm_items]; rewrite lookup_insert_ne by exact Hne; exact He))
    end.
    reflexivity. }
  exists s1, map1, (set_readQueue queue1 e), new.
  split; [exact Hstep|]. split; [reflexivity|]. split; [reflexivity|].
  split; [reflexivity|]. split; [reflexivity|].
  split; [cbn; rewrite lookup_insert_ne by congruence; apply lookup_insert_eq|].
  split; [reflexivity|]. split; [reflexivity|]. split; [reflexivity|].
  split; [cbn; apply lookup_insert_eq|]. split; [reflexivity|].
  split.
  { intros other H1 H2. cbn. rewrite !lookup_insert_ne by congruence. reflexivity. }
  intros Hempty Hrange Hserver1.
  assert (tsm_items map1 !! id = Some (set_readQueue queue1 e)) as He1
    by (cbn; apply lookup_insert_eq).
  assert (tsq_items (readQueue (set_readQueue queue1 e)) = [SlotID newID]) as Hq1
    by (cbn; rewrite Hempty; reflexivity).
  assert (is_server (world s1) (baseConnection (set_readQueue queue1 e)) = true) as Hs1
    by (cbn; rewrite Hbase; exact Hserver1).
  pose proof (AsyncIP_GetClient_eq id s1 map1 _ _ _ eq_refl He1 Hheld Hs1 Hq1) as E.
  cbn [slot_bytes] in E. rewrite (unsigned_long_round_trip newID Hrange) in E.
  eexists. exact E.
Qed.

(** The reader's step on a UDP server that has a datagram of a new source. *)
Lemma reader_registers_accepted_client_witness :
  exists s1 map1 e1 registered_client,
    ReadToQueue false 0 0 awaiting_server_state = Done tt s1
    /\ world s1 = (world_then (IP_AcceptClient false 1) (world awaiting_server_state))
    /\ globalConnectionsList s1 = Some map1
    /\ tsm_held map1 = tsm_held (registry_of awaiting_server_state)
    /\ tsm_nextID map1 = tsm_nextID (registry_of awaiting_server_state) + 1
    /\ tsm_items map1 !! tsm_nextID (registry_of awaiting_server_state) = Some registered_client
    /\ baseConnection registered_client = Some 2
    /\ tsq_items (readQueue registered_client) = []
    /\ tsq_items (writeQueue registered_client) = []
    /\ tsm_items map1 !! 0 = Some e1
    /\ tsq_items (readQueue e1) = tsq_items (readQueue (entry_of awaiting_server_state 0)) ++ [SlotID (tsm_nextID (registry_of awaiting_server_state))]
    /\ (forall other, other <> 0 -> other <> tsm_nextID (registry_of awaiting_server_state) ->
                      tsm_items map1 !! other = tsm_items (registry_of awaiting_server_state) !! other)
    /\ (tsq_items (readQueue (entry_of awaiting_server_state 0)) = [] ->
        0 <= tsm_nextID (registry_of awaiting_server_state) < 2 ^ 64 ->
        is_server (world_then (IP_AcceptClient false 1) (world awaiting_server_state)) (Some 1) = true ->
        exists s2, AsyncIP_GetClient 0 s1 = Done (tsm_nextID (registry_of awaiting_server_state)) s2).
Proof.
  apply (reader_registers_accepted_client
           false 0 0 awaiting_server_state (registry_of awaiting_server_state) (entry_of awaiting_server_state 0) 1 2 "host/port" (world_then (IP_AcceptClient false 1) (world awaiting_server_state))).
  - evaluated.
  - evaluated.
  - decided.
  - evaluated.
  - evaluated.
  - evaluated.
  - evaluated.
  - evaluated.
  - evaluated.
  - evaluated.
  - evaluated.
Defined.

(** The reader's step on a client with input.  When the synchronous layer
    reports input on a registered client whose read queue has room,
    ReadToQueue calls IP_ReceiveMessage once: a message it returns is
    appended to the read queue behind the ones not read yet, a NULL result
    leaves the queue as it was; the entry is released, the other entries
    are not touched, and the world is the one IP_ReceiveMessage left. *)
Theorem reader_queues_received_message IP_NETWORK_LEGACY TSM_FIRST_ID id s map e connection
    received w1 :
  globalConnectionsList s = Some map ->
  tsm_items map !! id = Some e ->
  id ∉ tsm_held map ->
  baseConnection e = Some connection ->
  tsq_maxLength (readQueue e) = QUEUE_MAX_ITEMS ->
  TSQ_GetItemsCount (readQueue e) < QUEUE_MAX_ITEMS ->
  is_Some (heap (world s) !! connection) ->
  is_server (world s) (Some connection) = false ->
  IP_IsDataAvailable IP_NETWORK_LEGACY (Some connection) (world s) = Done true (world s) ->
  IP_ReceiveMessage IP_NETWORK_LEGACY connection (world s) = Done received w1 ->
  exists s1 map1 e1,
    ReadToQueue IP_NETWORK_LEGACY TSM_FIRST_ID id s = Done tt s1
    /\ world s1 = w1
    /\ globalConnectionsList s1 = Some map1
    /\ tsm_held map1 = tsm_held map
    /\ tsm_items map1 !! id = Some e1
    /\ tsq_items (readQueue e1)
       = tsq_items (readQueue e)
         ++ match received with Some message => [SlotMessage message] | None => [] end
    /\ baseConnection e1 = Some connection
    /\ writeQueue e1 = writeQueue e
    /\ forall other, other <> id -> tsm_items map1 !! other = tsm_items map !! other.
Proof.
  intros Hm He Hheld Hbase Hcap Hcount Hlive Hclient Havail Hreceive.
  assert (exists s0,
            s0 = set_world w1
                   (set_globalConnectionsList
                      (Some {| tsm_items := tsm_items map; tsm_nextID := tsm_nextID map;
                               tsm_held := {[ id ]} ∪ tsm_held map |}) s)
            /\ ReadToQueue IP_NETWORK_LEGACY TSM_FIRST_ID id s
               = (exec match received with
                       | Some message => enqueue_read id (SlotMessage message)
                       | None => ret tt
                       end;
                  ReleaseItem id) s0) as (s0 & Hs0 & ->).
  { eexists. split; [reflexivity|]. unfold ReadToQueue.
    rewrite (bind_eq _ _ _ _ _ (AcquireItem_free id s map e Hm He Hheld)).
    assert ((TSQ_GetItemsCount (readQueue e) >=? QUEUE_MAX_ITEMS) = false) as ->
      by (rewrite Z.geb_leb; apply Z.leb_gt; lia).
    rewrite Hbase.
    match goal with |- context [bind (in_world _) _ ?s0] =>
      rewrite (bind_eq _ _ _ _ _ (in_world_same _ s0 true Havail)) end.
    match goal with |- context [bind (in_world (IP_IsServer _)) _ ?s0] =>
      rewrite (bind_eq _ _ _ _ _
                 (in_world_IP_IsServer (Some connection) s0
                    ltac:(intros p [= <-]; exact Hlive)))
    end.
    cbn [world set_globalConnectionsList]. rewrite Hclient.
    unfold must at 1. rewrite bind_ret.
    match goal with |- context [bind (in_world _) _ ?s0] =>
      rewrite (bind_eq _ _ _ _ _ (in_world_eq _ s0 received w1 Hreceive)) end.
    reflexivity. }
  destruct received as [message|].
  - set (queue1 := {| tsq_maxLength := tsq_maxLength (readQueue e);
                      tsq_itemSize := tsq_itemSize (readQueue e);
                      tsq_items := tsq_items (readQueue e) ++ [SlotMessage message] |}).
    unfold enqueue_read, read_item. monad_norm. rewrite Hs0.
    cbn [globalConnectionsList set_globalConnectionsList set_world world].
    unfold must at 1. monad_norm. cbn [tsm_items]. rewrite He.
    unfold must at 1. monad_norm. unfold TSQ_Enqueue. rewrite Hcap.
    assert ((TSQ_GetItemsCount (readQueue e) <? QUEUE_MAX_ITEMS) = true) as ->
      by (apply Z.ltb_lt; lia).
    unfold blocking at 1. monad_norm. rewrite <- Hcap. fold queue1.
    match goal with |- context [bind (update_item _ _) _ ?s0] =>
      rewrite (bind_eq _ _ _ _ _ (update_item_eq id _ s0 _ e eq_refl He)) end.
    unfold ReleaseItem, modify. eexists _, _, _. split; [reflexivity|].
    cbn [globalConnectionsList set_globalConnectionsList set_world world tsm_held tsm_items
         tsm_nextID readQueue writeQueue baseConnection set_readQueue tsq_items
         TSM_ReleaseItem].
    rewrite (held_restored id (tsm_held map) Hheld).
    split; [reflexivity|]. split; [reflexivity|]. split; [reflexivity|].
    split; [apply lookup_insert_eq|]. split; [reflexivity|]. split; [exact Hbase|].
    split; [reflexivity|]. intros other Hne. cbn [tsm_items]. rewrite lookup_insert_ne by congruence.
    reflexivity.
  - monad_norm. unfold ReleaseItem, modify. rewrite Hs0. eexists _, _, _.
    split; [reflexivity|].
    cbn [globalConnectionsList set_globalConnectionsList set_world world tsm_held tsm_items
         tsm_nextID readQueue writeQueue baseConnection set_readQueue tsq_items
         TSM_ReleaseItem].
    rewrite (held_restored id (tsm_held map) Hheld).
    split; [reflexivity|]. split; [reflexivity|]. split; [reflexivity|].
    split; [exact He|]. split; [rewrite app_nil_r; reflexivity|]. split; [exact Hbase|].
    split; [reflexivity|]. intros other Hne. reflexivity.
Qed.

(** The reader's step on a UDP client that has a datagram of its peer. *)
Lemma reader_queues_received_message_witness :
  exists s1 map1 e1,
    ReadToQueue false 0 0 awaiting_client_state = Done tt s1
    /\ world s1 = (world_then (IP_ReceiveMessage false 1) (world awaiting_client_state))
    /\ globalConnectionsList s1 = Some map1
    /\ tsm_held map1 = tsm_held (registry_of awaiting_client_state)
    /\ tsm_items map1 !! 0 = Some e1
    /\ tsq_items (readQueue e1)
       = tsq_items (readQueue (entry_of awaiting_client_state 0))
         ++ match (Some (111 :: 107 :: replicate 510 0)) with Some message => [SlotMessage message] | None => [] end
    /\ baseConnection e1 = Some 1
    /\ writeQueue e1 = writeQueue (entry_of awaiting_client_state 0)
    /\ forall other, other <> 0 -> tsm_items map1 !! other = tsm_items (registry_of awaiting_client_state) !! other.
Proof.
  apply (reader_queues_received_message
           false 0 0 awaiting_client_state (registry_of awaiting_client_state) (entry_of awaiting_client_state 0) 1 (Some (111 :: 107 :: replicate 510 0)) (world_then (IP_ReceiveMessage false 1) (world awaiting_client_state))).
  - evaluated.
  - evaluated.
  - decided.
  - evaluated.
  - evaluated.
  - evaluated.
  - vm_compute. eexists. reflexivity.
  - evaluated.
  - evaluated.
  - evaluated.
Defined.

(** * Closing servers and their clients *)

Lemma free_eq p c w :
  heap w !! p = Some c -> free p w = Done tt (set_heap (delete p (heap w)) w).
Proof. intros H. unfold free. rewrite (bind_eq _ _ _ _ _ (deref_eq _ _ _ H)). reflexivity. Qed.

Lemma socket_fd_poll_list s w w' a :
  polledSocketsList w' = polledSocketsList w ->
  socket_fd s w = Done a w -> socket_fd s w' = Done a w'.
Proof.
  intros Hp. destruct s as [i|f]; simpl; [|intros [= <-]; reflexivity].
  unfold bind, get, must, ret. rewrite Hp.
  destruct (fd <$> polledSocketsList w !! i); [|discriminate]. intros [= <-]. reflexivity.
Qed.

(** RemoveSocket on a polled descriptor, in the poll build. *)
Lemma RemoveSocket_polled socketFD w :
  poll_list_ok w -> socketFD ∈ polled_fds w ->
  exists w',
    RemoveSocket false socketFD w = Done tt w'
    /\ poll_list_ok w'
    /\ heap w' = heap w
    /\ os w' = os_close socketFD (os w)
    /\ (socketFD ∉ polled_fds w')
    /\ forall other, other <> socketFD -> other ∈ polled_fds w -> other ∈ polled_fds w'.
Proof.
  intros Hok Hin. unfold polled_fds in Hin.
  apply list_elem_of_fmap in Hin as (p & Hp & Hin).
  apply list_elem_of_split in Hin as (pre & post & Hsplit).
  destruct (RemoveSocket_shifts socketFD w pre p post Hok Hsplit (eq_sym Hp))
    as (w' & E & Hok' & Hpolled & Hheap & Hos & _).
  exists w'. split; [exact E|]. split; [exact Hok'|]. split; [exact Hheap|].
  split; [exact Hos|].
  destruct Hok as (_ & _ & Hs & _). rewrite Hsplit in Hs.
  apply StronglySorted_app in Hs as (Hlt & Hpre & Hpost).
  apply StronglySorted_inv in Hpost as [_ Hpost].
  split.
  - unfold polled_fds. rewrite Hpolled, fmap_app. intros Hin.
    apply elem_of_app in Hin as [Hin|Hin];
      apply list_elem_of_fmap in Hin as (q & Hq & Hin).
    + pose proof (Hlt q p Hin ltac:(left)) as H. unfold poller_lt in H. lia.
    + pose proof (proj1 (Forall_forall _ _) Hpost q Hin) as H. unfold poller_lt in H. lia.
  - intros other Hne. unfold polled_fds. rewrite Hpolled, Hsplit, !fmap_app, fmap_cons.
    rewrite !elem_of_app, elem_of_cons. intros [H|[H|H]]; [left; exact H| |right; exact H].
    congruence.
Qed.

(** A UDP server lives as long as a pseudo-client of it does.  While
    clientsCount is not zero IP_CloseConnection on the server returns
    without any effect.  Closing a pseudo-client vacates its cell and frees
    its structure; the shared descriptor stays open while other clients
    remain, and when the client was the last one the server goes with it,
    whether or not its own close was ever asked for: its descriptor leaves
    the poll list and is closed, and its structure is freed. *)
Theorem UDP_server_goes_with_its_last_client (listener client : Z) s c socketFD i w :
  poll_list_ok w ->
  heap w !! listener = Some s ->
  ref_Close s = fn_CloseUDPServer ->
  socket_fd (socket s) w = Done socketFD w ->
  socketFD ∈ polled_fds w ->
  1 <= ref_clientsCount s < SIZE_MODULUS ->
  (Z.to_nat (ref_clientsCount s) <= length (clientsList s))%nat ->
  heap w !! client = Some c ->
  ref_Close c = fn_CloseUDPClient ->
  server c = Some listener ->
  (i < Z.to_nat (ref_clientsCount s))%nat ->
  clientsList s !! i = Some (Some client) ->
  (forall j, (j < i)%nat -> clientsList s !! j <> Some (Some client)) ->
  IP_CloseConnection false (Some listener) w = Done tt w
  /\ exists w',
       IP_CloseConnection false (Some client) w = Done tt w'
       /\ heap w' !! client = None
       /\ (forall p, p <> client -> p <> listener -> heap w' !! p = heap w !! p)
       /\ if decide (ref_clientsCount s = 1)
          then heap w' !! listener = None
               /\ os w' = os_close socketFD (os w)
               /\ (socketFD ∉ polled_fds w')
          else heap w' !! listener
               = Some (set_clientsCount (ref_clientsCount s - 1)
                         (set_clientsList (<[i := None]> (clientsList s)) s))
               /\ os w' = os w
               /\ polled_fds w' = polled_fds w.
Proof.
  intros Hok Hs Hcs Hfd Hin Hcount Hlen Hc Hcc Hserver Hi Hcell Hfirst.
  assert (listener <> client) as Hne by (intros ->; congruence).
  assert ((ref_clientsCount s =? 0) = false) as Hz by (apply Z.eqb_neq; lia).
  split.
  { unfold IP_CloseConnection. rewrite (bind_eq _ _ _ _ _ (deref_eq _ _ _ Hs)), Hcs.
    unfold CloseUDPServer. rewrite (bind_eq _ _ _ _ _ (deref_eq _ _ _ Hs)), Hz. reflexivity. }
  set (s1 := set_clientsCount (size_wrap (ref_clientsCount s - 1))
               (set_clientsList (<[i := None]> (clientsList s)) s)).
  set (w1 := set_heap (<[listener := s1]> (heap w)) w).
  assert (RemoveClient (Some listener) client w = Done tt w1) as Hremove.
  { unfold RemoveClient. rewrite (bind_eq _ _ _ _ _ (deref_eq _ _ _ Hs)).
    apply (RemoveClient_loop_found (Z.to_nat (ref_clientsCount s)) listener client s w i 0%nat
             Hs ltac:(lia) Hcell).
    intros j Hj. destruct (lookup_lt_is_Some_2 (clientsList s) j ltac:(lia)) as [cell Hcj].
    exists cell. split; [exact Hcj|]. intros ->. apply (Hfirst j ltac:(lia)). exact Hcj. }
  assert (size_wrap (ref_clientsCount s - 1) = ref_clientsCount s - 1) as Hwrap
    by (unfold size_wrap; apply Z.mod_small; lia).
  assert (heap w1 !! listener = Some s1) as Hs1 by (simpl; apply lookup_insert_eq).
  assert (heap w1 !! client = Some c) as Hc1
    by (simpl; rewrite lookup_insert_ne by exact Hne; exact Hc).
  assert (IP_CloseConnection false (Some client) w
          = (exec (do s <- deref listener;
                   if ref_clientsCount s =? 0 then CloseUDPServer false listener else ret tt);
             free client) w1) as ->.
  { unfold IP_CloseConnection. rewrite (bind_eq _ _ _ _ _ (deref_eq _ _ _ Hc)), Hcc.
    unfold CloseUDPClient. rewrite (bind_eq _ _ _ _ _ (deref_eq _ _ _ Hc)), Hserver.
    rewrite (bind_eq _ _ _ _ _ Hremove). reflexivity. }
  rewrite bind_assoc, (bind_eq _ _ _ _ _ (deref_eq _ _ _ Hs1)).
  change (ref_clientsCount s1) with (size_wrap (ref_clientsCount s - 1)). rewrite Hwrap.
  destruct (decide (ref_clientsCount s = 1)) as [Hone|Hmore].
  - rewrite Hone. change (1 - 1 =? 0) with true. cbv iota.
    assert (poll_list_ok w1) as Hok1 by exact Hok.
    destruct (RemoveSocket_polled socketFD w1 Hok1 Hin)
      as (w2 & E2 & Hok2 & Hheap2 & Hos2 & Hgone & _).
    assert (heap w2 !! listener = Some s1) as Hs2 by (rewrite Hheap2; exact Hs1).
    assert (CloseUDPServer false listener w1
            = Done tt (set_heap (delete listener (heap w2)) w2)) as Hclose.
    { unfold CloseUDPServer. rewrite (bind_eq _ _ _ _ _ (deref_eq _ _ _ Hs1)).
      change (ref_clientsCount s1) with (size_wrap (ref_clientsCount s - 1)).
      rewrite Hwrap, Hone. change (1 - 1 =? 0) with true. cbv iota.
      rewrite (bind_eq _ _ _ _ _ (socket_fd_poll_list (socket s) w w1 socketFD eq_refl Hfd)).
      rewrite (bind_eq _ _ _ _ _ E2). apply (free_eq _ _ _ Hs2). }
    rewrite (bind_eq _ _ _ _ _ Hclose).
    assert (heap (set_heap (delete listener (heap w2)) w2) !! client = Some c) as Hc3.
    { simpl. rewrite lookup_delete_ne by exact Hne. rewrite Hheap2. exact Hc1. }
    rewrite (free_eq _ _ _ Hc3). eexists. split; [reflexivity|]. simpl.
    split; [apply lookup_delete_eq|].
    split.
    { intros p Hp1 Hp2. rewrite !lookup_delete_ne by congruence. rewrite Hheap2. simpl.
      rewrite lookup_insert_ne by congruence. reflexivity. }
    split; [rewrite lookup_delete_ne by congruence; apply lookup_delete_eq|].
    split; [exact Hos2|exact Hgone].
  - assert ((ref_clientsCount s - 1 =? 0) = false) as -> by (apply Z.eqb_neq; lia).
    rewrite bind_ret, (free_eq _ _ _ Hc1). eexists. split; [reflexivity|]. simpl.
    split; [apply lookup_delete_eq|].
    split.
    { intros p Hp1 Hp2. rewrite lookup_delete_ne by congruence.
      rewrite lookup_insert_ne by congruence. reflexivity. }
    split; [rewrite lookup_delete_ne by congruence; rewrite lookup_insert_eq;
            unfold s1; rewrite Hwrap; reflexivity|].
    split; reflexivity.
Qed.

(** A UDP server with one pseudo-client. *)
Lemma UDP_server_goes_with_its_last_client_witness :
  IP_CloseConnection false (Some 1) (world served_state) = Done tt (world served_state)
  /\ exists w',
       IP_CloseConnection false (Some 2) (world served_state) = Done tt w'
       /\ heap w' !! 2 = None
       /\ (forall p, p <> 2 -> p <> 1 -> heap w' !! p = heap (world served_state) !! p)
       /\ if decide (ref_clientsCount (structure_of (world served_state) 1) = 1)
          then heap w' !! 1 = None
               /\ os w' = os_close 5 (os (world served_state))
               /\ (5 ∉ polled_fds w')
          else heap w' !! 1
               = Some (set_clientsCount (ref_clientsCount (structure_of (world served_state) 1) - 1)
                         (set_clientsList (<[0%nat := None]> (clientsList (structure_of (world served_state) 1))) (structure_of (world served_state) 1)))
               /\ os w' = os (world served_state)
               /\ polled_fds w' = polled_fds (world served_state).
Proof.
  apply (UDP_server_goes_with_its_last_client
           1 2 (structure_of (world served_state) 1) (structure_of (world served_state) 2) 5 0%nat (world served_state)).
  - poll_list_evaluated.
  - evaluated.
  - evaluated.
  - evaluated.
  - decided.
  - evaluated.
  - evaluated.
  - evaluated.
  - evaluated.
  - evaluated.
  - evaluated.
  - evaluated.
  - intros j Hj. lia.
Defined.

(** A TCP server closed before its clients leaves them with a dangling
    server pointer.  CloseTCPServer removes the descriptor and frees the
    server without looking at its client list; a client accepted by it
    still names it in its server field, and IP_CloseConnection on such a
    client reads the freed structure in RemoveClient. *)
Theorem TCP_server_closed_before_its_client (listener client : Z) s c socketFD w :
  poll_list_ok w ->
  heap w !! listener = Some s ->
  ref_Close s = fn_CloseTCPServer ->
  socket_fd (socket s) w = Done socketFD w ->
  socketFD ∈ polled_fds w ->
  heap w !! client = Some c ->
  ref_Close c = fn_CloseTCPClient ->
  server c = Some listener ->
  exists w',
    IP_CloseConnection false (Some listener) w = Done tt w'
    /\ heap w' !! listener = None
    /\ heap w' !! client = Some c
    /\ IP_CloseConnection false (Some client) w' = Crash.
Proof.
  intros Hok Hs Hcs Hfd Hin Hc Hcc Hserver.
  assert (listener <> client) as Hne by (intros ->; congruence).
  destruct (RemoveSocket_polled socketFD w Hok Hin) as (w1 & E1 & _ & Hheap1 & _).
  assert (heap w1 !! listener = Some s) as Hs1 by (rewrite Hheap1; exact Hs).
  eexists. split.
  { unfold IP_CloseConnection. rewrite (bind_eq _ _ _ _ _ (deref_eq _ _ _ Hs)), Hcs.
    unfold CloseTCPServer. rewrite (bind_eq _ _ _ _ _ (deref_eq _ _ _ Hs)).
    rewrite (bind_eq _ _ _ _ _ Hfd), (bind_eq _ _ _ _ _ E1). apply (free_eq _ _ _ Hs1). }
  simpl. split; [apply lookup_delete_eq|].
  assert (delete listener (heap w1) !! client = Some c) as Hc2
    by (rewrite lookup_delete_ne by exact Hne; rewrite Hheap1; exact Hc).
  split; [exact Hc2|].
  set (w2 := set_heap (delete listener (heap w1)) w1).
  assert (heap w2 !! client = Some c) as Hc2' by exact Hc2.
  unfold IP_CloseConnection. rewrite (bind_eq _ _ _ _ _ (deref_eq _ _ _ Hc2')), Hcc.
  unfold CloseTCPClient. rewrite (bind_eq _ _ _ _ _ (deref_eq _ _ _ Hc2')), Hserver.
  unfold RemoveClient, deref, bind, get, must. simpl. rewrite lookup_delete_eq. reflexivity.
Qed.

(** A TCP server with one accepted client. *)
Lemma TCP_server_closed_before_its_client_witness :
  exists w',
    IP_CloseConnection false (Some 1) TCP_served_world = Done tt w'
    /\ heap w' !! 1 = None
    /\ heap w' !! 2 = Some (structure_of TCP_served_world 2)
    /\ IP_CloseConnection false (Some 2) w' = Crash.
Proof.
  apply (TCP_server_closed_before_its_client
           1 2 (structure_of TCP_served_world 1) (structure_of TCP_served_world 2) 5 TCP_served_world).
  - poll_list_evaluated.
  - evaluated.
  - evaluated.
  - evaluated.
  - decided.
  - evaluated.
  - evaluated.
  - evaluated.
Defined.

(** * Receiving *)

Lemma set_os_same w : set_os (os w) w = w.
Proof. destruct w; reflexivity. Qed.

(** A datagram of another source is never taken off the socket.
    ReceiveUDPMessage peeks at the oldest datagram and consumes it only when
    its source compares equal to the address of the connection; otherwise
    IP_ReceiveMessage returns NULL and leaves the operating system as it
    was, so the same datagram is found by the next call: the connection
    stays held up by it, and what is pending behind it is not delivered. *)
Theorem foreign_datagram_holds_up_UDP_client IP_NETWORK_LEGACY w connection p rest :
  held_up_by IP_NETWORK_LEGACY w connection p rest ->
  exists w',
    IP_ReceiveMessage IP_NETWORK_LEGACY connection w = Done None w'
    /\ os w' = os w
    /\ held_up_by IP_NETWORK_LEGACY w' connection p rest.
Proof.
  intros (c & buf & socketFD & Hc & Hr & Hb & Hfd & Hin & Hne).
  set (zeros := replicate (Z.to_nat IP_MAX_MESSAGE_LENGTH) 0).
  set (c1 := set_buffer (Some zeros) c).
  set (w1 := set_heap (<[connection := c1]> (heap w)) w).
  set (data := take (Z.to_nat (messageLength c)) (pkt_data p)).
  set (c2 := set_buffer (Some (write_buffer data zeros)) c1).
  set (w2 := set_heap (<[connection := c2]> (heap w1)) w1).
  assert (heap w1 !! connection = Some c1) as Hc1 by (simpl; apply lookup_insert_eq).
  assert (socket_fd (socket c1) w1 = Done socketFD w1) as Hfd1
    by (apply (socket_fd_poll_list (socket c) w w1 socketFD eq_refl Hfd)).
  assert (IP_ReceiveMessage IP_NETWORK_LEGACY connection w = Done None w2) as E.
  { unfold IP_ReceiveMessage. rewrite (bind_eq _ _ _ _ _ (deref_eq _ _ _ Hc)), Hb.
    unfold must at 1. rewrite bind_ret. rewrite (bind_eq _ _ _ _ _ (update_eq _ _ _ _ Hc)).
    rewrite Hr. fold c1 zeros w1. unfold ReceiveUDPMessage.
    rewrite (bind_eq _ _ _ _ _ (deref_eq _ _ _ Hc1)), (bind_eq _ _ _ _ _ Hfd1).
    change (buffer c1) with (Some zeros). unfold must at 1. rewrite bind_ret.
    assert (os_recv_dgram socketFD (messageLength c1) true (os w1)
            = (Some (data, pkt_source p), os w1)) as Hpeek
      by (unfold os_recv_dgram; change (os w1) with (os w); rewrite Hin; reflexivity).
    rewrite (bind_eq _ _ _ _ _ (sys_eq _ _ _ _ Hpeek)), set_os_same.
    rewrite (bind_eq _ _ _ _ _ (update_eq _ _ _ _ Hc1)).
    change (addressData c1) with (addressData c). rewrite Hne. reflexivity. }
  exists w2. split; [exact E|]. split; [reflexivity|].
  exists c2, (write_buffer data zeros), socketFD.
  split; [simpl; apply lookup_insert_eq|]. split; [exact Hr|]. split; [reflexivity|].
  split; [apply (socket_fd_poll_list (socket c) w w2 socketFD eq_refl Hfd)|].
  split; [exact Hin|exact Hne].
Qed.

(** A UDP client of 10.0.0.1:50000 with a datagram of 10.0.0.2:50001 ahead of its peer's. *)
Lemma foreign_datagram_holds_up_UDP_client_witness :
  exists w',
    IP_ReceiveMessage false 1 stray_world = Done None w'
    /\ os w' = os stray_world
    /\ held_up_by false w' 1 (datagram peer_C [98]) [datagram peer_A [97]].
Proof.
  apply (foreign_datagram_holds_up_UDP_client
           false stray_world 1 (datagram peer_C [98]) [datagram peer_A [97]]).
  - exact stray_world_held_up.
Defined.

(** A TCP peer's shutdown hands the connection the descriptor of its
    neighbour.  On end of stream ReceiveTCPMessage calls RemoveSocket and
    returns NULL; the structure stays allocated, and its socket pointer
    keeps naming the same slot of the poll list, which the sort has filled
    with the descriptor that followed.  The next IP_ReceiveMessage on the
    connection therefore reads from that other descriptor and takes what
    was sent to the connection that owns it. *)
Theorem TCP_shutdown_hands_over_the_next_descriptor connection c buf source w pre p q post rest :
  poll_list_ok w ->
  polled_sockets w = pre ++ p :: q :: post ->
  heap w !! connection = Some c ->
  ref_ReceiveMessage c = fn_ReceiveTCPMessage ->
  buffer c = Some buf ->
  socket c = PollSlot (length pre) ->
  os_inbox (os w) !! fd p = Some ({| pkt_source := source; pkt_data := [] |} :: rest) ->
  exists w',
    IP_ReceiveMessage false connection w = Done None w'
    /\ is_Some (heap w' !! connection)
    /\ polled_sockets w' = pre ++ q :: post
    /\ os w' = os_close (fd p) (os w)
    /\ socket_fd (socket c) w' = Done (fd q) w'
    /\ forall chunk more,
         os_inbox (os w) !! fd q = Some (chunk :: more) ->
         pkt_data chunk <> [] ->
         Z.of_nat (length (pkt_data chunk)) <= messageLength c ->
         exists message w'',
           IP_ReceiveMessage false connection w' = Done (Some message) w''
           /\ take (length (pkt_data chunk)) message = pkt_data chunk
           /\ os_inbox (os w'') !! fd q = Some more.
Proof.
  intros Hok Hsplit Hc Hr Hb Hsock Heof.
  set (zeros := replicate (Z.to_nat IP_MAX_MESSAGE_LENGTH) 0).
  set (c1 := set_buffer (Some zeros) c).
  set (w1 := set_heap (<[connection := c1]> (heap w)) w).
  assert (heap w1 !! connection = Some c1) as Hc1 by (simpl; apply lookup_insert_eq).
  assert (poll_list_ok w1) as Hok1 by exact Hok.
  assert (polled_sockets w1 = pre ++ p :: q :: post) as Hsplit1 by exact Hsplit.
  destruct Hok as (Hlen & Hn & Hs & Hbelow).
  assert (polled_sockets w !! length pre = Some p) as Hp
    by (rewrite Hsplit; apply list_lookup_middle; reflexivity).
  assert (polledSocketsList w !! length pre = Some p) as Hp'.
  { unfold polled_sockets in Hp. apply lookup_take_Some in Hp as [Hp _]. exact Hp. }
  assert (below_sentinel (fd p) /\ below_sentinel (fd q)) as [Hpb Hqb].
  { rewrite Hsplit in Hbelow. rewrite Forall_app in Hbelow. destruct Hbelow as [_ H].
    apply Forall_cons in H as [H1 H]. apply Forall_cons in H as [H2 _]. split; assumption. }
  assert (fd p < fd q) as Hpq.
  { rewrite Hsplit in Hs. apply StronglySorted_app in Hs as (_ & _ & Hs).
    apply StronglySorted_inv in Hs as [_ Hs]. apply Forall_cons in Hs as [Hs _]. exact Hs. }
  assert (socket_fd (socket c1) w1 = Done (fd p) w1) as Hfd1.
  { change (socket c1) with (socket c). rewrite Hsock. unfold socket_fd, bind, get, must.
    change (polledSocketsList w1) with (polledSocketsList w). rewrite Hp'. reflexivity. }
  destruct (RemoveSocket_shifts (fd p) w1 pre p (q :: post) Hok1 Hsplit1 eq_refl)
    as (w2 & E2 & Hok2 & Hpolled2 & Hheap2 & Hos2 & _).
  assert (IP_ReceiveMessage false connection w = Done None w2) as E.
  { unfold IP_ReceiveMessage. rewrite (bind_eq _ _ _ _ _ (deref_eq _ _ _ Hc)), Hb.
    unfold must at 1. rewrite bind_ret. rewrite (bind_eq _ _ _ _ _ (update_eq _ _ _ _ Hc)).
    rewrite Hr. fold c1 zeros w1. unfold ReceiveTCPMessage.
    rewrite (bind_eq _ _ _ _ _ (deref_eq _ _ _ Hc1)), (bind_eq _ _ _ _ _ Hfd1).
    assert ((fd p =? INVALID_SOCKET) = false) as ->
      by (apply Z.eqb_neq; unfold below_sentinel, INVALID_SOCKET in *; lia).
    change (buffer c1) with (Some zeros). unfold must at 1. rewrite bind_ret.
    assert (os_recv_stream (fd p) (messageLength c1) (os w1) = (Some [], os w1)) as Hrecv.
    { unfold os_recv_stream. change (os w1) with (os w). rewrite Heof. simpl.
      rewrite take_nil. reflexivity. }
    rewrite (bind_eq _ _ _ _ _ (sys_eq _ _ _ _ Hrecv)), set_os_same.
    change (Z.of_nat (length []) =? 0) with true. cbv iota.
    rewrite (bind_eq _ _ _ _ _ E2). reflexivity. }
  assert (heap w2 !! connection = Some c1) as Hc2 by (rewrite Hheap2; exact Hc1).
  assert (polledSocketsList w2 !! length pre = Some q) as Hq2.
  { assert (polled_sockets w2 !! length pre = Some q) as H
      by (rewrite Hpolled2; apply list_lookup_middle; reflexivity).
    unfold polled_sockets in H. apply lookup_take_Some in H as [H _]. exact H. }
  assert (socket_fd (socket c) w2 = Done (fd q) w2) as Hfd2.
  { rewrite Hsock. unfold socket_fd, bind, get, must. rewrite Hq2. reflexivity. }
  exists w2. split; [exact E|]. split; [rewrite Hc2; eexists; reflexivity|].
  split; [exact Hpolled2|]. split; [exact Hos2|]. split; [exact Hfd2|].
  intros chunk more Hchunk Hdata Hfits.
  set (data := pkt_data chunk) in *.
  set (w3 := set_heap (<[connection := c1]> (heap w2)) w2).
  assert (heap w3 !! connection = Some c1) as Hc3 by (simpl; apply lookup_insert_eq).
  assert (socket_fd (socket c1) w3 = Done (fd q) w3) as Hfd3
    by (apply (socket_fd_poll_list (socket c) w2 w3 (fd q) eq_refl Hfd2)).
  assert (os_inbox (os w3) !! fd q = Some (chunk :: more)) as Hin3.
  { change (os w3) with (os w2). rewrite Hos2. simpl.
    rewrite lookup_delete_ne by lia. exact Hchunk. }
  assert (os_recv_stream (fd q) (messageLength c1) (os w3)
          = (Some data, set_os_inbox (<[fd q := more]> (os_inbox (os w3))) (os w3))) as Hrecv.
  { unfold os_recv_stream. rewrite Hin3. fold data. change (messageLength c1) with (messageLength c).
    rewrite take_ge by lia. rewrite drop_ge by lia.
    destruct data as [|b data']; [contradiction|reflexivity]. }
  eexists _, _. split.
  { unfold IP_ReceiveMessage. rewrite (bind_eq _ _ _ _ _ (deref_eq _ _ _ Hc2)).
    change (buffer c1) with (Some zeros). unfold must at 1. rewrite bind_ret.
    rewrite (bind_eq _ _ _ _ _ (update_eq _ _ _ _ Hc2)).
    change (ref_ReceiveMessage c1) with (ref_ReceiveMessage c). rewrite Hr.
    change (set_buffer (Some (replicate (Z.to_nat IP_MAX_MESSAGE_LENGTH) 0)) c1) with c1.
    fold w3. unfold ReceiveTCPMessage.
    rewrite (bind_eq _ _ _ _ _ (deref_eq _ _ _ Hc3)), (bind_eq _ _ _ _ _ Hfd3).
    assert ((fd q =? INVALID_SOCKET) = false) as ->
      by (apply Z.eqb_neq; unfold below_sentinel, INVALID_SOCKET in *; lia).
    change (buffer c1) with (Some zeros). unfold must at 1. rewrite bind_ret.
    rewrite (bind_eq _ _ _ _ _ (sys_eq _ _ _ _ Hrecv)).
    assert ((Z.of_nat (length data) =? 0) = false) as ->
      by (apply Z.eqb_neq; destruct data; [contradiction|simpl; lia]).
    set (w4 := set_os _ w3).
    assert (heap w4 !! connection = Some c1) as Hc4 by exact Hc3.
    rewrite (bind_eq _ _ _ _ _ (update_eq _ _ _ _ Hc4)). reflexivity. }
  split.
  - unfold write_buffer. rewrite take_app_length. reflexivity.
  - simpl. apply lookup_insert_eq.
Qed.

(** The TCP client on descriptor 3 is shut down by its peer; the UDP client on descriptor 4 follows it in the poll list. *)
Lemma TCP_shutdown_hands_over_the_next_descriptor_witness :
  exists w',
    IP_ReceiveMessage false 1 hangup_world = Done None w'
    /\ is_Some (heap w' !! 1)
    /\ polled_sockets w' = [] ++ (watched 4) :: []
    /\ os w' = os_close (fd (watched 3)) (os hangup_world)
    /\ socket_fd (socket (structure_of hangup_world 1)) w' = Done (fd (watched 4)) w'
    /\ forall chunk more,
         os_inbox (os hangup_world) !! fd (watched 4) = Some (chunk :: more) ->
         pkt_data chunk <> [] ->
         Z.of_nat (length (pkt_data chunk)) <= messageLength (structure_of hangup_world 1) ->
         exists message w'',
           IP_ReceiveMessage false 1 w' = Done (Some message) w''
           /\ take (length (pkt_data chunk)) message = pkt_data chunk
           /\ os_inbox (os w'') !! fd (watched 4) = Some more.
Proof.
  apply (TCP_shutdown_hands_over_the_next_descriptor
           1 (structure_of hangup_world 1) (replicate (Z.to_nat IP_MAX_MESSAGE_LENGTH) 0) peer_A hangup_world [] (watched 3) (watched 4) [] []).
  - poll_list_evaluated.
  - evaluated.
  - evaluated.
  - evaluated.
  - evaluated.
  - evaluated.
  - evaluated.
Defined.
